(** * The video processing pipeline of video-education-system

    A shallow embedding of the Django/Celery backend under
    [backend/apps/videos]: the models ([models.py]), the stage tasks
    ([tasks/tasks.py]), the services they call ([services/*.py]) and the
    [procesar] action of the video view ([views/video_views.py]).

    Database tables are explicit state, exceptions are an error monad,
    and every tool outside the repository (FFmpeg, Whisper, the OpenAI
    client, the file system, the download client) is an oracle whose
    answer may depend on the arguments of the call and on the number of
    calls made before it. *)

From stdpp Require Import gmap strings list pretty.
From Stdlib Require Import QArith Qminmax Sorted Permutation.

Local Open Scope Z_scope.

(** ** Python values used by the services *)

Module Py.

(** A Python [float]: the finite values are rationals here, the three
    special values are kept apart because comparisons treat them
    differently. *)
Inductive PyFloat :=
| Finite (q : Q)
| PInf
| NInf
| NaN.

Definition Qltb (a b : Q) : bool := negb (Qle_bool b a).

(** [a < b] on floats; every comparison with [nan] is false. *)
Definition lt (a b : PyFloat) : bool :=
  match a, b with
  | NaN, _ | _, NaN => false
  | Finite x, Finite y => Qltb x y
  | NInf, (Finite _ | PInf) => true
  | Finite _, PInf => true
  | _, _ => false
  end.

(** [min(a, b)] keeps [a] unless [b < a]; [max(a, b)] keeps [a] unless
    [b > a]. *)
Definition min (a b : PyFloat) : PyFloat := if lt b a then b else a.
Definition max (a b : PyFloat) : PyFloat := if lt a b then b else a.

(** [xs[:n]] with Python's rule for a negative bound. *)
Definition slice_to {A} (n : Z) (xs : list A) : list A :=
  if 0 <=? n then take (Z.to_nat n) xs
  else take (Z.to_nat (Z.of_nat (length xs) + n)) xs.

(** A Python [str] is a sequence of code points; a [string] here is
    the sequence of the bytes of its UTF-8 encoding.  In it a code
    point is a byte that is not a continuation byte (0x80-0xBF)
    followed by its continuation bytes. *)
Definition is_continuation (c : Ascii.ascii) : bool :=
  let n := Ascii.nat_of_ascii c in
  (128 <=? n)%nat && (n <? 192)%nat.

(** [len(s)]: the number of code points. *)
Fixpoint len (s : string) : nat :=
  match s with
  | EmptyString => 0%nat
  | String c s' => if is_continuation c then len s' else S (len s')
  end.

(** [s[:n]] on strings, for a non-negative literal bound: the first
    [n] code points. *)
Fixpoint str_take (n : nat) (s : string) : string :=
  match s with
  | EmptyString => EmptyString
  | String c s' =>
      if is_continuation c then String c (str_take n s')
      else
        match n with
        | S n' => String c (str_take n' s')
        | O => EmptyString
        end
  end.

Definition newline : string := String (Ascii.ascii_of_nat 10) EmptyString.

(** [sep.join(parts)] *)
Definition join (sep : string) (parts : list string) : string :=
  String.concat sep parts.

(** [space_width s] is the number of bytes of the code point at the
    head of [s] when that code point is whitespace for [str.split()]
    and [str.strip()], and 0 otherwise.  The whitespace code points
    are U+0009-000D, U+001C-001F, U+0020, U+0085, U+00A0, U+1680,
    U+2000-200A, U+2028, U+2029, U+202F, U+205F and U+3000. *)
Definition space_width (s : string) : nat :=
  match s with
  | String a rest =>
      let a := Ascii.nat_of_ascii a in
      if ((9 <=? a)%nat && (a <=? 13)%nat) || ((28 <=? a)%nat && (a <=? 32)%nat)
      then 1%nat
      else
        match rest with
        | String b rest' =>
            let b := Ascii.nat_of_ascii b in
            if (a =? 194)%nat && ((b =? 133)%nat || (b =? 160)%nat) then 2%nat
            else
              match rest' with
              | String c _ =>
                  let c := Ascii.nat_of_ascii c in
                  if (a =? 225)%nat && (b =? 154)%nat && (c =? 128)%nat
                  then 3%nat
                  else if (a =? 226)%nat && (b =? 128)%nat
                          && (((128 <=? c)%nat && (c <=? 138)%nat)
                              || (c =? 168)%nat || (c =? 169)%nat
                              || (c =? 175)%nat)
                  then 3%nat
                  else if (a =? 226)%nat && (b =? 129)%nat && (c =? 159)%nat
                  then 3%nat
                  else if (a =? 227)%nat && (b =? 128)%nat && (c =? 128)%nat
                  then 3%nat
                  else 0%nat
              | EmptyString => 0%nat
              end
        | EmptyString => 0%nat
        end
  | EmptyString => 0%nat
  end.

(** [len(s.split())]: the number of maximal runs of code points that
    are not whitespace.  [skip] counts the bytes still to pass of a
    whitespace code point. *)
Fixpoint count_words_from (skip : nat) (in_word : bool) (s : string) : nat :=
  match s with
  | EmptyString => 0%nat
  | String c s' =>
      match skip with
      | S k => count_words_from k in_word s'
      | O =>
          match space_width (String c s') with
          | S k => count_words_from k false s'
          | O =>
              if in_word then count_words_from 0 true s'
              else S (count_words_from 0 true s')
          end
      end
  end.

Definition count_words (s : string) : nat := count_words_from 0 false s.

Fixpoint lstrip_from (skip : nat) (s : string) : string :=
  match s with
  | EmptyString => EmptyString
  | String c s' =>
      match skip with
      | S k => lstrip_from k s'
      | O =>
          match space_width (String c s') with
          | S k => lstrip_from k s'
          | O => String c s'
          end
      end
  end.

(** [s.lstrip()] *)
Definition lstrip (s : string) : string := lstrip_from 0 s.

(** [s.rstrip()]: [s] up to its last code point that is not
    whitespace. *)
Fixpoint rstrip (s : string) : string :=
  match s with
  | EmptyString => EmptyString
  | String c s' =>
      match lstrip (String c s') with
      | EmptyString => EmptyString
      | String _ _ => String c (rstrip s')
      end
  end.

(** [s.strip()] *)
Definition strip (s : string) : string := rstrip (lstrip s).

(** The double quote character. *)
Definition dquote : string := String (Ascii.ascii_of_nat 34) EmptyString.

(** The integer nearest to [q], ties to the even one. *)
Definition round_half_even (q : Q) : Z :=
  let n := Qnum q in
  let d := Z.pos (Qden q) in
  let f := n / d in
  let r := n mod d in
  match 2 * r ?= d with
  | Lt => f
  | Gt => f + 1
  | Eq => if Z.even f then f else f + 1
  end.

(** [round(q, 2)] *)
Definition round2 (q : Q) : Q := (round_half_even (q * 100) # 100)%Q.

(** [f"{z:02d}"] *)
Definition fmt_02d (z : Z) : string :=
  if (0 <=? z) && (z <? 10) then "0" +:+ pretty z else pretty z.

(** [f"{q:.2f}"] *)
Definition fmt_2f (q : Q) : string :=
  let h := round_half_even (q * 100) in
  let a := Z.abs h in
  (if h <? 0 then "-" else "") +:+ pretty (a / 100) +:+ "."
    +:+ fmt_02d (a mod 100).

(** [str(x)] for a float [x] that came out of [round(_, 2)]: one
    decimal at least, two when the second is not zero. *)
Definition repr_round2 (q : Q) : string :=
  let h := round_half_even (q * 100) in
  let a := Z.abs h in
  (if h <? 0 then "-" else "") +:+ pretty (a / 100) +:+ "."
    +:+ (if a mod 10 =? 0 then pretty ((a mod 100) / 10)
         else fmt_02d (a mod 100)).

(** [int(q // 1)] *)
Definition floor (q : Q) : Z := Qnum q / Z.pos (Qden q).

(** Truthiness of an optional string ([None] and [''] are falsy). *)
Definition truthy_str (o : option string) : bool :=
  match o with
  | Some (String _ _) => true
  | _ => false
  end.

(** Truthiness of an optional integer ([None] and [0] are falsy). *)
Definition truthy_int (o : option Z) : bool :=
  match o with
  | Some z => negb (z =? 0)
  | None => false
  end.

End Py.

(** ** models.py *)

Module Models.

(** [Video.ESTADO_CHOICES] *)
Inductive Estado :=
| E_pendiente
| E_descargando
| E_procesando
| E_transcribiendo
| E_analizando
| E_segmentando
| E_completado
| E_error.

#[export] Instance Estado_eq_dec : EqDecision Estado.
Proof. solve_decision. Defined.

(** The columns of [Video] that the pipeline reads or writes. *)
Record Video := mkVideo {
  v_id : Z;
  v_titulo : string;
  v_url_original : option string;
  v_duracion_segundos : option Z;
  v_estado : Estado;
  v_miniatura_url : option string;
}.

Definition with_estado (e : Estado) (v : Video) : Video :=
  mkVideo (v_id v) (v_titulo v) (v_url_original v)
          (v_duracion_segundos v) e (v_miniatura_url v).

Definition with_id (id : Z) (v : Video) : Video :=
  mkVideo id (v_titulo v) (v_url_original v)
          (v_duracion_segundos v) (v_estado v) (v_miniatura_url v).

Definition with_miniatura (p : string) (v : Video) : Video :=
  mkVideo (v_id v) (v_titulo v) (v_url_original v)
          (v_duracion_segundos v) (v_estado v) (Some p).

(** One word of a transcribed segment. *)
Record Palabra := mkPalabra {
  w_palabra : string;
  w_inicio : Q;
  w_fin : Q;
  w_probabilidad : Q;
}.

(** One element of [Transcripcion.transcripcion_con_timestamps]. *)
Record TimedText := mkTimedText {
  tt_inicio : Q;
  tt_fin : Q;
  tt_texto : string;
  tt_palabras : list Palabra;
}.

(** [Transcripcion]: one-to-one with [Video] through [video]. *)
Record Transcripcion := mkTranscripcion {
  t_video : Z;
  t_contenido_completo : string;
  t_idioma_detectado : string;
  t_precision_estimada : Q;
  t_transcripcion_con_timestamps : list TimedText;
  t_modelo_utilizado : string;
}.

(** [ResumenEjecutivo]: one-to-one with [Video] through [video]. *)
Record ResumenEjecutivo := mkResumen {
  r_video : Z;
  r_resumen_completo : string;
  r_temas_principales : string;
  r_conclusiones_clave : string;
  r_puntos_importantes : string;
  r_cantidad_palabras : nat;
  r_modelo_ia_utilizado : string;
}.

(** [Segmento]: many per [Video]. *)
Record Segmento := mkSegmento {
  s_id : Z;
  s_video : Z;
  s_titulo : string;
  s_descripcion : string;
  s_timestamp_inicio_seg : Z;
  s_timestamp_fin_seg : Z;
  s_duracion_seg : Z;
  s_orden : Z;
  s_relevancia_score : Py.PyFloat;
  s_tipo_contenido : string;
  s_ruta_archivo_segmento : option string;
  s_miniatura_url : option string;
}.

Definition with_files (clip : string) (thumb : option string) (s : Segmento)
  : Segmento :=
  mkSegmento (s_id s) (s_video s) (s_titulo s) (s_descripcion s)
             (s_timestamp_inicio_seg s) (s_timestamp_fin_seg s)
             (s_duracion_seg s) (s_orden s) (s_relevancia_score s)
             (s_tipo_contenido s) (Some clip)
             (match thumb with
              | Some t => Some t
              | None => s_miniatura_url s
              end).

(** [LogProcesamiento.ESTADO_CHOICES] *)
Inductive LogEstado :=
| L_iniciado
| L_en_progreso
| L_completado
| L_error
| L_cancelado.

#[export] Instance LogEstado_eq_dec : EqDecision LogEstado.
Proof. solve_decision. Defined.

(** [LogProcesamiento]: the audit trail, one row per [create]. *)
Record LogProcesamiento := mkLog {
  l_video : Z;
  l_etapa : string;
  l_estado : LogEstado;
  l_mensaje : string;
  l_error_detalle : option string;
}.

End Models.

Export Models.

(** ** Exceptions, the database and the outside world *)

Module Runtime.

(** [e.stderr] of an [ffmpeg.Error]: nothing ([None] or no bytes),
    bytes that decode as UTF-8, or bytes on which [decode()] raises
    the [UnicodeDecodeError] with the message [msg]. *)
Inductive Stderr :=
| NoStderr
| Decodes (text : string)
| Undecodable (msg : string).

(** The exception classes that the tasks and services raise or catch.
    [OtherException] stands for any other subclass of [Exception]
    ([OSError], [ValueError], [UnicodeDecodeError], ...); [Retry] is
    the exception with which the task executor signals that a new
    attempt has been scheduled. *)
Inductive Exn :=
| DoesNotExist
| VideoDownloadError (msg : string)
| AudioExtractionError (msg : string)
| ThumbnailGenerationError (msg : string)
| TranscriptionError (msg : string)
| AnalysisError (msg : string)
| SegmentationError (msg : string)
| FfmpegError (stderr : Stderr)
| DownloadError (msg : string)
| OtherException (msg : string)
| Retry (exc : Exn) (countdown : Z).

(** [str(e)]; an [ffmpeg.Error] is built with the text
    ['ffmpeg error (see stderr output for detail)']. *)
Fixpoint str (e : Exn) : string :=
  match e with
  | DoesNotExist => "Video matching query does not exist."
  | VideoDownloadError m | AudioExtractionError m
  | ThumbnailGenerationError m | TranscriptionError m
  | AnalysisError m | SegmentationError m
  | DownloadError m | OtherException m => m
  | FfmpegError _ => "ffmpeg error (see stderr output for detail)"
  | Retry exc c => "Retry in " +:+ pretty c +:+ "s: " +:+ str exc
  end.

(** [e.stderr.decode() if e.stderr else str(e)], in the clause
    [except ffmpeg.Error as e]: the text, or the message of the
    [UnicodeDecodeError] that [decode()] raises. *)
Definition stderr_text (stderr : Stderr) : string + string :=
  match stderr with
  | NoStderr => inl (str (FfmpegError NoStderr))
  | Decodes text => inl text
  | Undecodable msg => inr msg
  end.

(** What the tools outside the repository can raise: [ffmpeg.Error],
    [yt_dlp.utils.DownloadError], or some other exception of the
    standard library or of a client library. *)
Inductive OutsideError :=
| OE_ffmpeg (stderr : Stderr)
| OE_download (msg : string)
| OE_other (msg : string).

Definition exn_of (e : OutsideError) : Exn :=
  match e with
  | OE_ffmpeg m => FfmpegError m
  | OE_download m => DownloadError m
  | OE_other m => OtherException m
  end.

(** The Python [logging] output of the workers. *)
Inductive Level := INFO | WARNING | ERROR.

#[export] Instance Level_eq_dec : EqDecision Level.
Proof. solve_decision. Defined.

Record LogLine := mkLine { ll_level : Level; ll_text : string }.

(** The FFmpeg command lines that the services build. *)
Inductive FfmpegCmd :=
| FfCut (input : string) (ss t : Z) (output : string)
| FfFrame (input : string) (ss : Q) (output : string)
| FfAudio (input output : string).

(** What [ffmpeg.run] does: it returns, leaving the output file in
    place or not, or it raises. *)
Inductive FfResult :=
| FfDone (output_exists : bool)
| FfRaises (e : OutsideError).

(** Calls that leave the process, in the order they are made. *)
Inductive Call :=
| C_ffmpeg (cmd : FfmpegCmd)
| C_whisper_api (audio : string)
| C_whisper_local (audio : string)
| C_gpt_summary (transcription : string)
| C_gpt_segments (text : string)
| C_download (url : string)
| C_delay (task : string) (video_id : Z).

(** The database tables, the worker log and the trace of outside
    calls.  [tick] counts the questions asked to the outside world. *)
Record World := mkWorld {
  videos : gmap Z Video;
  transcripciones : list Transcripcion;
  resumenes : list ResumenEjecutivo;
  segmentos : list Segmento;
  logs : list LogProcesamiento;
  applog : list LogLine;
  calls : list Call;
  tick : nat;
}.

Definition set_videos (f : gmap Z Video -> gmap Z Video) (w : World) :=
  mkWorld (f (videos w)) (transcripciones w) (resumenes w) (segmentos w)
          (logs w) (applog w) (calls w) (tick w).
Definition set_transcripciones (f : list Transcripcion -> list Transcripcion)
  (w : World) :=
  mkWorld (videos w) (f (transcripciones w)) (resumenes w) (segmentos w)
          (logs w) (applog w) (calls w) (tick w).
Definition set_resumenes (f : list ResumenEjecutivo -> list ResumenEjecutivo)
  (w : World) :=
  mkWorld (videos w) (transcripciones w) (f (resumenes w)) (segmentos w)
          (logs w) (applog w) (calls w) (tick w).
Definition set_segmentos (f : list Segmento -> list Segmento) (w : World) :=
  mkWorld (videos w) (transcripciones w) (resumenes w) (f (segmentos w))
          (logs w) (applog w) (calls w) (tick w).
Definition set_logs (f : list LogProcesamiento -> list LogProcesamiento)
  (w : World) :=
  mkWorld (videos w) (transcripciones w) (resumenes w) (segmentos w)
          (f (logs w)) (applog w) (calls w) (tick w).
Definition set_applog (f : list LogLine -> list LogLine) (w : World) :=
  mkWorld (videos w) (transcripciones w) (resumenes w) (segmentos w)
          (logs w) (f (applog w)) (calls w) (tick w).
Definition set_calls (f : list Call -> list Call) (w : World) :=
  mkWorld (videos w) (transcripciones w) (resumenes w) (segmentos w)
          (logs w) (applog w) (f (calls w)) (tick w).
Definition bump (w : World) :=
  mkWorld (videos w) (transcripciones w) (resumenes w) (segmentos w)
          (logs w) (applog w) (calls w) (S (tick w)).

Definition empty_world : World := mkWorld ∅ [] [] [] [] [] [] 0.

(** *** The monad of the workers: state and exceptions *)

Inductive Res (A : Type) :=
| Val (a : A)
| Exc (e : Exn).
Arguments Val {A} a.
Arguments Exc {A} e.

Definition M (A : Type) : Type := World -> Res A * World.

Definition ret {A} (a : A) : M A := fun w => (Val a, w).

Definition raise {A} (e : Exn) : M A := fun w => (Exc e, w).

Definition bind {A B} (m : M A) (k : A -> M B) : M B :=
  fun w =>
    match m w with
    | (Val a, w') => k a w'
    | (Exc e, w') => (Exc e, w')
    end.

(** [try: m  except Exception as e: h e].  A handler that does not
    name the class of [e] re-raises it. *)
Definition try_except {A} (m : M A) (h : Exn -> M A) : M A :=
  fun w =>
    match m w with
    | (Val a, w') => (Val a, w')
    | (Exc e, w') => h e w'
    end.

(** [try: m  except: pass] *)
Definition try_pass (m : M unit) : M unit :=
  try_except m (fun _ => ret tt).

Definition modify (f : World -> World) : M unit := fun w => (Val tt, f w).

Definition gets {A} (f : World -> A) : M A := fun w => (Val (f w), w).

(** A question to the outside world; the answer may depend on how many
    were asked before. *)
Definition ask {A} (oracle : nat -> A) : M A :=
  fun w => (Val (oracle (tick w)), bump w).

Definition when (b : bool) (m : M unit) : M unit :=
  if b then m else ret tt.

(** [for x in xs: body x] *)
Fixpoint for_each {A} (xs : list A) (body : A -> M unit) : M unit :=
  match xs with
  | [] => ret tt
  | x :: xs' => bind (body x) (fun _ => for_each xs' body)
  end.

End Runtime.

Export Runtime.

Notation "x <- m ;; k" := (Runtime.bind m (fun x => k))
  (at level 100, m at next level, right associativity).
Notation "m ;;; k" := (Runtime.bind m (fun _ => k))
  (at level 100, right associativity).

(** ** Settings and the outside world *)

Module Outside.

(** The values of [django.conf.settings] that the services read. *)
Record Settings := mkSettings {
  MEDIA_ROOT : string;
  TEMP_ROOT : string;
  OPENAI_API_KEY : string;
  WHISPER_MODE : string;
  WHISPER_MODEL : string;
  WHISPER_API_MODEL : string;
  GPT_MODEL : string;
  ANALYSIS_MIN_SEGMENTS : Z;
  ANALYSIS_MAX_SEGMENTS : Z;
}.

(** What Whisper (local model or remote API) answers. *)
Record WhisperSegment := mkWSeg {
  ws_start : Q;
  ws_end : Q;
  ws_text : string;
  ws_words : list Palabra;
  ws_avg_logprob : Q;
}.

Record WhisperResult := mkWhisper {
  wr_text : string;
  wr_language : string;
  wr_segments : list WhisperSegment;
}.

(** What a conversion such as [int(x)], [float(x)] or [x[:n]] does on
    a JSON value: it answers, it raises [ValueError] or [TypeError]
    ([Conv_invalid], with the message), or it raises something else
    ([Conv_crash]; [int(float('inf'))] raises [OverflowError]). *)
Inductive Conv (A : Type) :=
| Conv_ok (a : A)
| Conv_invalid (msg : string)
| Conv_crash (e : OutsideError).
Arguments Conv_ok {A} a.
Arguments Conv_invalid {A} msg.
Arguments Conv_crash {A} e.

(** One entry of the [segmentos] array in the language model's answer,
    seen through the expressions that [_validate_segments] evaluates
    on it: [raw_has_keys] is the test on the three required keys,
    [raw_timestamp_inicio] is [int(seg['timestamp_inicio'])],
    [raw_tipo] is [seg.get('tipo', 'otro')], [raw_relevancia] is
    [float(seg.get('relevancia', 7.0))], [raw_titulo] is
    [seg['titulo']] ready to be cut, and so on. *)
Record RawSegment := mkRaw {
  raw_has_keys : bool;
  raw_titulo : Conv string;
  raw_descripcion : Conv string;
  raw_timestamp_inicio : Conv Z;
  raw_timestamp_fin : Conv Z;
  raw_tipo : string;
  raw_relevancia : Conv Py.PyFloat;
}.

(** The summary JSON object of the language model. *)
Record RawSummary := mkRawSummary {
  rs_resumen_completo : string;
  rs_temas_principales : list string;
  rs_conclusiones_clave : list string;
  rs_puntos_importantes : list string;
}.

(** What [yt_dlp] reports about a downloaded video. *)
Record DownloadInfo := mkInfo {
  di_file : string;
  di_title : option string;
  di_duration : Z;
}.

(** The answers of the tools outside the repository.  The first
    argument is the number of questions asked before. *)
Record Env := mkEnv {
  path_exists : nat -> string -> bool;
  stat_size : nat -> string -> Z;
  mkdir : nat -> string -> option OutsideError;
  ffmpeg : nat -> FfmpegCmd -> FfResult;
  storage_save : nat -> string -> option OutsideError;
  yt_dlp : nat -> string -> DownloadInfo + OutsideError;
  whisper_api : nat -> string -> WhisperResult + OutsideError;
  whisper_local : nat -> string -> WhisperResult + OutsideError;
  gpt_summary : nat -> string -> RawSummary + OutsideError;
  gpt_segments : nat -> string -> list RawSegment + OutsideError;
  broker : nat -> string -> Z -> string + OutsideError;
}.

End Outside.

Export Outside.

(** ** Database and logging primitives *)

Module Db.

(** [Video.objects.get(id=video_id)]: the instance carries the key
    it was found under. *)
Definition video_get (video_id : Z) : M Video :=
  fun w =>
    match videos w !! video_id with
    | Some v => (Val (with_id video_id v), w)
    | None => (Exc DoesNotExist, w)
    end.

(** [video.save()]: every column of the instance is written. *)
Definition video_save (v : Video) : M unit :=
  modify (set_videos (fun m => <[v_id v := v]> m)).

Definition logger_info (s : string) : M unit :=
  modify (set_applog (fun l => l ++ [mkLine INFO s])).
Definition logger_warning (s : string) : M unit :=
  modify (set_applog (fun l => l ++ [mkLine WARNING s])).
Definition logger_error (s : string) : M unit :=
  modify (set_applog (fun l => l ++ [mkLine ERROR s])).

(** [LogProcesamiento.objects.create(...)]: the foreign key must point
    to a stored video. *)
Definition log_create (row : LogProcesamiento) : M unit :=
  fun w =>
    match videos w !! l_video row with
    | Some _ => (Val tt, set_logs (fun l => l ++ [row]) w)
    | None => (Exc (OtherException "FOREIGN KEY constraint failed"), w)
    end.

(** [_log_progress], the same in every service. *)
Definition _log_progress (video : Video) (etapa : string) (estado : LogEstado)
    (mensaje : string) (error_detalle : option string) : M unit :=
  try_except
    (log_create (mkLog (v_id video) etapa estado mensaje error_detalle))
    (fun e => logger_error ("Error al crear log: " +:+ str e)).

(** [segmento.save()] on a stored row: the row with this primary key
    is replaced. *)
Definition segmento_save (s : Segmento) : M unit :=
  modify (set_segmentos
            (fun l => (fun r => if decide (s_id r = s_id s) then s else r) <$> l)).

(** Asking the outside world, raising what it raises. *)
Definition ask_or_raise {A} (oracle : nat -> A + OutsideError) : M A :=
  r <- ask oracle ;;
  match r with
  | inl a => ret a
  | inr e => raise (exn_of e)
  end.

Definition ask_unit (oracle : nat -> option OutsideError) : M unit :=
  r <- ask oracle ;;
  match r with
  | None => ret tt
  | Some e => raise (exn_of e)
  end.

(** [ffmpeg.run(stream, overwrite_output=True, quiet=True)] followed by
    [output_path.exists()]. *)
Definition ffmpeg_run (env : Env) (cmd : FfmpegCmd) : M bool :=
  r <- ask (fun t => ffmpeg env t cmd) ;;
  modify (set_calls (fun l => l ++ [C_ffmpeg cmd])) ;;;
  match r with
  | FfDone b => ret b
  | FfRaises e => raise (exn_of e)
  end.

End Db.

Export Db.

(** ** services/video_segmentation_service.py *)

Module Segmentation.

(** A [pathlib.Path] built as [directory / name]. *)
Record Path := mkPath { p_dir : string; p_name : string }.

Definition path_str (p : Path) : string := p_dir p +:+ "/" +:+ p_name p.

(** [str(thumbnail_path)], where the path may be [None]. *)
Definition opt_path_str (p : option Path) : string :=
  match p with
  | Some p => path_str p
  | None => "None"
  end.

(** One dictionary of the list that [segment_video] returns. *)
Record Resultado := mkResultado {
  res_segmento_id : Z;
  res_titulo : string;
  res_video_path : string;
  res_thumbnail_path : string;
  res_duracion : Z;
}.

(** [order_by('orden')]: ascending; rows with the same [orden] stay in
    table order. *)
Fixpoint insert_by_orden (s : Segmento) (l : list Segmento) : list Segmento :=
  match l with
  | [] => [s]
  | r :: l' =>
      if s_orden r <? s_orden s then r :: insert_by_orden s l'
      else s :: l
  end.

Definition order_by_orden (l : list Segmento) : list Segmento :=
  foldr insert_by_orden [] l.

(** [self.video.segmentos.all()] *)
Definition segmentos_of (video_id : Z) (w : World) : list Segmento :=
  filter (fun s => s_video s = video_id) (segmentos w).

(** The file names, from [(video.id, segmento.orden)]. *)
Definition output_filename (video_id orden : Z) : string :=
  "segmento_" +:+ pretty video_id +:+ "_" +:+ pretty orden +:+ ".mp4".

Definition thumbnail_filename (video_id orden : Z) : string :=
  "thumb_seg_" +:+ pretty video_id +:+ "_" +:+ pretty orden +:+ ".jpg".

(** [segmento.timestamp_inicio_seg + (segmento.duracion_seg / 2)] *)
Definition thumbnail_timestamp (s : Segmento) : Q :=
  (inject_Z (s_timestamp_inicio_seg s) + inject_Z (s_duracion_seg s) / 2)%Q.

Section Service.

Context (env : Env) (settings : Settings) (video : Video).

Definition segments_dir : string := MEDIA_ROOT settings +:+ "/segmentos".
Definition thumbnails_dir : string :=
  MEDIA_ROOT settings +:+ "/miniaturas_segmentos".

(** [_cut_segment] *)
Definition _cut_segment (video_path : string) (segmento : Segmento) : M Path :=
  try_except
    (let output_path :=
       mkPath segments_dir (output_filename (v_id video) (s_orden segmento)) in
     let inicio := s_timestamp_inicio_seg segmento in
     let duracion := s_duracion_seg segmento in
     logger_info ("Recortando segmento: " +:+ pretty inicio +:+ "s por "
                  +:+ pretty duracion +:+ "s") ;;;
     created <- ffmpeg_run env
                  (FfCut video_path inicio duracion (path_str output_path)) ;;
     (if created : bool then ret tt
      else raise (SegmentationError
                    ("No se pudo crear segmento: " +:+ path_str output_path))) ;;;
     logger_info ("Segmento creado: " +:+ path_str output_path) ;;;
     ret output_path)
    (fun e =>
       match e with
       | FfmpegError stderr =>
           match stderr_text stderr with
           | inl text =>
               let error_msg := "Error de FFmpeg: " +:+ text in
               logger_error error_msg ;;;
               raise (SegmentationError error_msg)
           | inr decode_error => raise (OtherException decode_error)
           end
       | _ =>
           let error_msg := "Error inesperado al recortar: " +:+ str e in
           logger_error error_msg ;;;
           raise (SegmentationError error_msg)
       end).

(** [_generate_segment_thumbnail]: never raises, answers [None]
    when no picture could be made. *)
Definition _generate_segment_thumbnail (video_path : string)
    (segmento : Segmento) : M (option Path) :=
  try_except
    (let thumbnail_path :=
       mkPath thumbnails_dir
              (thumbnail_filename (v_id video) (s_orden segmento)) in
     let timestamp := thumbnail_timestamp segmento in
     created <- ffmpeg_run env
                  (FfFrame video_path timestamp (path_str thumbnail_path)) ;;
     if created : bool then
       logger_info ("Miniatura creada: " +:+ path_str thumbnail_path) ;;;
       ret (Some thumbnail_path)
     else
       logger_warning ("No se pudo crear miniatura para segmento "
                       +:+ pretty (s_id segmento)) ;;;
       ret None)
    (fun e =>
       logger_error ("Error generando miniatura: " +:+ str e) ;;;
       ret None).

(** [_update_segment_files] *)
Definition _update_segment_files (segmento : Segmento) (video_path : Path)
    (thumbnail_path : option Path) : M unit :=
  try_except
    (ask_unit (fun t => storage_save env t (path_str video_path)) ;;;
     stored_thumb <-
       match thumbnail_path with
       | Some tp =>
           present <- ask (fun t => path_exists env t (path_str tp)) ;;
           if present : bool then
             ask_unit (fun t => storage_save env t (path_str tp)) ;;;
             ret (Some (p_name tp))
           else ret None
       | None => ret None
       end ;;
     segmento_save (with_files (p_name video_path) stored_thumb segmento) ;;;
     logger_info ("Segmento " +:+ pretty (s_id segmento)
                  +:+ " actualizado con archivos"))
    (fun e =>
       logger_error ("Error actualizando segmento: " +:+ str e) ;;;
       raise e).

(** The body of the loop of [segment_video] for one row: the
    [try] block appends to [resultados], the handler logs and goes on
    to the next row. *)
Definition process_segment (video_path : string)
    (resultados : list Resultado) (segmento : Segmento)
  : M (list Resultado) :=
  try_except
    (segment_path <- _cut_segment video_path segmento ;;
     thumbnail_path <- _generate_segment_thumbnail video_path segmento ;;
     _update_segment_files segmento segment_path thumbnail_path ;;;
     let resultados' :=
       resultados ++
         [mkResultado (s_id segmento) (s_titulo segmento)
                      (path_str segment_path)
                      (opt_path_str thumbnail_path)
                      (s_duracion_seg segmento)] in
     logger_info ("Segmento " +:+ pretty (s_id segmento) +:+ " procesado: "
                  +:+ p_name segment_path) ;;;
     ret resultados')
    (fun e =>
       logger_error ("Error procesando segmento "
                     +:+ pretty (s_id segmento) +:+ ": " +:+ str e) ;;;
       ret resultados).

Fixpoint process_all (video_path : string) (resultados : list Resultado)
    (rows : list Segmento) : M (list Resultado) :=
  match rows with
  | [] => ret resultados
  | segmento :: rest =>
      resultados' <- process_segment video_path resultados segmento ;;
      process_all video_path resultados' rest
  end.

(** [VideoSegmentationService.segment_video] *)
Definition segment_video (video_path : string) : M (list Resultado) :=
  try_except
    (_log_progress video "segmentacion" L_iniciado
                   "Iniciando segmentación de video" None ;;;
     present <- ask (fun t => path_exists env t video_path) ;;
     (if present : bool then ret tt
      else raise (SegmentationError ("Video no existe: " +:+ video_path))) ;;;
     rows <- gets (fun w => order_by_orden (segmentos_of (v_id video) w)) ;;
     match rows with
     | [] =>
         logger_warning ("No hay segmentos para procesar en video "
                         +:+ pretty (v_id video)) ;;;
         ret []
     | _ =>
         logger_info ("Segmentando video " +:+ pretty (v_id video) +:+ " en "
                      +:+ pretty (length rows) +:+ " clips") ;;;
         resultados <- process_all video_path [] rows ;;
         _log_progress video "segmentacion" L_completado
                       (pretty (length resultados)
                        +:+ " segmentos procesados exitosamente") None ;;;
         logger_info ("Segmentación completada para video "
                      +:+ pretty (v_id video)) ;;;
         ret resultados
     end)
    (fun e =>
       let error_msg := "Error al segmentar video: " +:+ str e in
       _log_progress video "segmentacion" L_error error_msg (Some (str e)) ;;;
       logger_error error_msg ;;;
       raise (SegmentationError error_msg)).

End Service.

End Segmentation.

(** ** services/transcription_service.py *)

Module Transcription.

(** The dictionary that [_process_transcription] builds. *)
Record TranscriptionData := mkData {
  d_contenido_completo : string;
  d_idioma : string;
  d_precision_estimada : Q;
  d_segmentos : list TimedText;
}.

Definition MB : Z := 1024 * 1024.

(** [audio_path.stat().st_size / (1024 * 1024)] *)
Definition file_size_mb (st_size : Z) : Q := (inject_Z st_size / inject_Z MB)%Q.

(** [hasattr(self.video, 'transcripcion')]: the reverse one-to-one
    accessor finds a row or raises an [AttributeError]. *)
Definition has_transcripcion (video_id : Z) (w : World) : bool :=
  bool_decide (Exists (fun t => t_video t = video_id) (transcripciones w)).

(** [Transcripcion.objects.create(...)]: [video] is a one-to-one key,
    a second row for the same video is refused. *)
Definition transcripcion_create (row : Transcripcion) : M unit :=
  fun w =>
    if has_transcripcion (t_video row) w
    then (Exc (OtherException "UNIQUE constraint failed: transcripciones.video_id"), w)
    else (Val tt, set_transcripciones (fun l => l ++ [row]) w).

(** Assigning the fields of [self.video.transcripcion] and saving it. *)
Definition transcripcion_update (row : Transcripcion) : M unit :=
  modify (set_transcripciones
            (fun l => (fun t => if decide (t_video t = t_video row)
                                then row else t) <$> l)).

Section Service.

Context (env : Env) (settings : Settings) (video : Video).

(** [self.mode = mode or settings.WHISPER_MODE] *)
Definition resolve_mode (mode : option string) : string :=
  if Py.truthy_str mode then default "" mode else WHISPER_MODE settings.

(** [TranscriptionService.__init__] *)
Definition init (mode : option string) : M string :=
  let mode := resolve_mode mode in
  (if decide (mode = "api") then
     if decide (OPENAI_API_KEY settings = "")
     then raise (TranscriptionError "OPENAI_API_KEY no configurada")
     else ret tt
   else ret tt) ;;;
  ret mode.

(** [_transcribe_with_api] *)
Definition _transcribe_with_api (audio_path : string) : M WhisperResult :=
  try_except
    (logger_info "Usando API de OpenAI Whisper" ;;;
     modify (set_calls (fun l => l ++ [C_whisper_api audio_path])) ;;;
     ask_or_raise (fun t => whisper_api env t audio_path))
    (fun e =>
       logger_error ("Error en API de OpenAI: " +:+ str e) ;;;
       raise (TranscriptionError ("Error en API de OpenAI: " +:+ str e))).

(** [_transcribe_with_local]; the model is only loaded when the mode
    is ['local'], so any other mode fails on the missing model. *)
Definition _transcribe_with_local (mode audio_path : string)
  : M WhisperResult :=
  try_except
    (logger_info "Usando modelo local de Whisper" ;;;
     if decide (mode = "local") then
       modify (set_calls (fun l => l ++ [C_whisper_local audio_path])) ;;;
       ask_or_raise (fun t => whisper_local env t audio_path)
     else
       raise (OtherException
                "'NoneType' object has no attribute 'transcribe'"))
    (fun e =>
       logger_error ("Error en transcripción local: " +:+ str e) ;;;
       raise (TranscriptionError ("Error en transcripción local: " +:+ str e))).

(** [_extract_words] *)
Definition _extract_words (segment : WhisperSegment) : list Palabra :=
  (fun w => mkPalabra (Py.strip (w_palabra w)) (w_inicio w) (w_fin w)
                      (w_probabilidad w)) <$> ws_words segment.

(** [_calculate_precision] *)
Definition _calculate_precision (mode : string) (result : WhisperResult) : Q :=
  match wr_segments result with
  | [] => 95
  | segments =>
      if decide (mode = "api") then 95
      else
        let total_logprob :=
          foldr Qplus 0%Q (ws_avg_logprob <$> segments) in
        let avg_logprob :=
          (total_logprob / inject_Z (Z.of_nat (length segments)))%Q in
        Py.round2 (Qmin 100 (Qmax 0 ((1 + avg_logprob) * 100)))
  end.

(** [_process_transcription] *)
Definition _process_transcription (mode : string) (result : WhisperResult)
  : TranscriptionData :=
  mkData (Py.strip (wr_text result))
         (wr_language result)
         (_calculate_precision mode result)
         ((fun s => mkTimedText (ws_start s) (ws_end s)
                                 (Py.strip (ws_text s)) (_extract_words s))
            <$> wr_segments result).

(** [_save_transcription] *)
Definition _save_transcription (mode : string) (data : TranscriptionData)
  : M unit :=
  try_except
    (let modelo_usado :=
       if decide (mode = "local") then "whisper-" +:+ WHISPER_MODEL settings
       else if decide (mode = "api")
            then "whisper-api-" +:+ WHISPER_API_MODEL settings
            else "whisper-" +:+ mode in
     let row :=
       mkTranscripcion (v_id video) (d_contenido_completo data)
                       (d_idioma data) (d_precision_estimada data)
                       (d_segmentos data) modelo_usado in
     existing <- gets (has_transcripcion (v_id video)) ;;
     (if existing : bool then transcripcion_update row
      else transcripcion_create row) ;;;
     logger_info ("Transcripción guardada para video " +:+ pretty (v_id video)))
    (fun e =>
       logger_error ("Error al guardar transcripción: " +:+ str e) ;;;
       raise e).

(** [TranscriptionService.transcribe] *)
Definition transcribe (mode audio_path : string) : M TranscriptionData :=
  try_except
    (_log_progress video "transcripcion" L_iniciado
                   ("Iniciando transcripción de audio (modo: " +:+ mode +:+ ")")
                   None ;;;
     present <- ask (fun t => path_exists env t audio_path) ;;
     (if present : bool then ret tt
      else raise (TranscriptionError
                    ("Archivo de audio no existe: " +:+ audio_path))) ;;;
     st_size <- ask (fun t => stat_size env t audio_path) ;;
     let size_mb := file_size_mb st_size in
     (if bool_decide (mode = "api") && Py.Qltb 25 size_mb
      then raise (TranscriptionError
                    ("Archivo muy grande para API (" +:+ Py.fmt_2f size_mb
                     +:+ "MB). Límite: 25MB. Usa modo 'local' o divide el audio."))
      else ret tt) ;;;
     logger_info ("Transcribiendo audio (" +:+ mode +:+ "): " +:+ audio_path) ;;;
     result <- (if decide (mode = "api") then _transcribe_with_api audio_path
                else _transcribe_with_local mode audio_path) ;;
     let transcription_data := _process_transcription mode result in
     _save_transcription mode transcription_data ;;;
     _log_progress video "transcripcion" L_completado
                   ("Transcripción completada. Idioma: "
                    +:+ d_idioma transcription_data) None ;;;
     logger_info ("Transcripción completada para video "
                  +:+ pretty (v_id video)) ;;;
     ret transcription_data)
    (fun e =>
       let error_msg := "Error al transcribir audio: " +:+ str e in
       _log_progress video "transcripcion" L_error error_msg (Some (str e)) ;;;
       logger_error error_msg ;;;
       raise (TranscriptionError error_msg)).

End Service.

End Transcription.

(** ** services/analysis_service.py *)

Module Analysis.

(** One dictionary of the list that [_validate_segments] returns. *)
Record ValidSegment := mkValid {
  vs_titulo : string;
  vs_descripcion : string;
  vs_timestamp_inicio : Z;
  vs_timestamp_fin : Z;
  vs_duracion : Z;
  vs_relevancia : Py.PyFloat;
  vs_tipo : string;
}.

Definition tipos_validos : list string :=
  ["introduccion"; "concepto_clave"; "ejemplo"; "demostracion";
   "conclusion"; "ejercicio"; "otro"].

(** [max(1.0, min(10.0, relevancia))] *)
Definition clamp_relevancia (relevancia : Py.PyFloat) : Py.PyFloat :=
  Py.max (Py.Finite 1) (Py.min (Py.Finite 10) relevancia).

(** What one turn of the loop of [_validate_segments] does. *)
Inductive Outcome :=
| Keep (v : ValidSegment)
| Skip
| SkipWarn (msg : string)
| Crash (e : Exn).

Definition conv_bind {A} (c : Conv A) (k : A -> Outcome) : Outcome :=
  match c with
  | Conv_ok a => k a
  | Conv_invalid msg => SkipWarn msg
  | Conv_crash e => Crash (exn_of e)
  end.

Definition validate_one (video : Video) (seg : RawSegment) : Outcome :=
  if negb (raw_has_keys seg) then Skip
  else
    conv_bind (raw_timestamp_inicio seg) (fun inicio =>
    conv_bind (raw_timestamp_fin seg) (fun fin =>
      if (inicio <? 0) || (fin <=? inicio) then Skip
      else
        let fin :=
          if Py.truthy_int (v_duracion_segundos video)
             && (default 0 (v_duracion_segundos video) <? fin)
          then default 0 (v_duracion_segundos video)
          else fin in
        let duracion := fin - inicio in
        let tipo :=
          if bool_decide (raw_tipo seg ∈ tipos_validos) then raw_tipo seg
          else "otro" in
        conv_bind (raw_relevancia seg) (fun relevancia =>
          let relevancia := clamp_relevancia relevancia in
          conv_bind (raw_titulo seg) (fun titulo =>
          conv_bind (raw_descripcion seg) (fun descripcion =>
            Keep (mkValid (Py.str_take 255 titulo)
                          (Py.str_take 500 descripcion)
                          inicio fin duracion relevancia tipo)))))).

(** [validados.sort(key=lambda x: x['relevancia'], reverse=True)]: a
    stable sort, highest relevance first. *)
Fixpoint insert_by_relevancia (x : ValidSegment) (l : list ValidSegment)
  : list ValidSegment :=
  match l with
  | [] => [x]
  | y :: l' =>
      if Py.lt (vs_relevancia x) (vs_relevancia y)
      then y :: insert_by_relevancia x l'
      else x :: l
  end.

Definition sort_by_relevancia (l : list ValidSegment) : list ValidSegment :=
  foldr insert_by_relevancia [] l.

(** [hasattr(self.video, 'resumen_ejecutivo')] *)
Definition has_resumen (video_id : Z) (w : World) : bool :=
  bool_decide (Exists (fun r => r_video r = video_id) (resumenes w)).

(** [ResumenEjecutivo.objects.create(...)]: [video] is a one-to-one
    key. *)
Definition resumen_create (row : ResumenEjecutivo) : M unit :=
  fun w =>
    if has_resumen (r_video row) w
    then (Exc (OtherException
                 "UNIQUE constraint failed: resumenes_ejecutivos.video_id"), w)
    else (Val tt, set_resumenes (fun l => l ++ [row]) w).

(** Assigning the fields of [self.video.resumen_ejecutivo] and saving. *)
Definition resumen_update (row : ResumenEjecutivo) : M unit :=
  modify (set_resumenes
            (fun l => (fun r => if decide (r_video r = r_video row)
                                then row else r) <$> l)).

(** [self.video.transcripcion] *)
Definition video_transcripcion (video_id : Z) : M Transcripcion :=
  fun w =>
    match List.find (fun t => bool_decide (t_video t = video_id))
                    (transcripciones w) with
    | Some t => (Val t, w)
    | None => (Exc (OtherException "Video has no transcripcion."), w)
    end.

Section Service.

Context (env : Env) (settings : Settings) (video : Video).

(** [AnalysisService.__init__] *)
Definition init : M unit :=
  if decide (OPENAI_API_KEY settings = "")
  then raise (AnalysisError "OPENAI_API_KEY no configurada")
  else ret tt.

(** [_get_transcription] *)
Definition _get_transcription : M (option string) :=
  try_except
    (t <- video_transcripcion (v_id video) ;;
     ret (Some (t_contenido_completo t)))
    (fun _ => ret None).

(** [_generate_executive_summary] *)
Definition _generate_executive_summary (transcription : string)
  : M RawSummary :=
  try_except
    (logger_info "Generando resumen ejecutivo..." ;;;
     let user_prompt := Py.str_take 8000 transcription in
     modify (set_calls (fun l => l ++ [C_gpt_summary user_prompt])) ;;;
     result <- ask_or_raise (fun t => gpt_summary env t user_prompt) ;;
     logger_info "Resumen ejecutivo generado" ;;;
     ret result)
    (fun e =>
       logger_error ("Error al generar resumen: " +:+ str e) ;;;
       raise (AnalysisError ("Error al generar resumen: " +:+ str e))).

(** [_format_transcription_with_times] *)
Definition _format_transcription_with_times (segments : list TimedText)
  : string :=
  Py.join Py.newline
    ((fun seg =>
        let inicio := tt_inicio seg in
        let minutos := Py.floor (inicio / 60) in
        let segundos := Py.floor (inicio - inject_Z (60 * minutos)) in
        "[" +:+ Py.fmt_02d minutos +:+ ":" +:+ Py.fmt_02d segundos +:+ "] "
            +:+ Py.strip (tt_texto seg))
       <$> segments).

(** The loop of [_validate_segments]. *)
Fixpoint validate_loop (segments : list RawSegment)
    (validados : list ValidSegment) : M (list ValidSegment) :=
  match segments with
  | [] => ret validados
  | seg :: rest =>
      match validate_one video seg with
      | Keep v => validate_loop rest (validados ++ [v])
      | Skip => validate_loop rest validados
      | SkipWarn msg =>
          logger_warning ("Segmento inválido ignorado: " +:+ msg) ;;;
          validate_loop rest validados
      | Crash e => raise e
      end
  end.

(** [_validate_segments] *)
Definition _validate_segments (segments : list RawSegment)
  : M (list ValidSegment) :=
  validados <- validate_loop segments [] ;;
  let validados := sort_by_relevancia validados in
  let max_segments := ANALYSIS_MAX_SEGMENTS settings in
  ret (Py.slice_to max_segments validados).

(** [_identify_important_segments]: every failure ends in an empty
    list. *)
Definition _identify_important_segments (transcription : string)
  : M (list ValidSegment) :=
  try_except
    (logger_info "Identificando segmentos importantes..." ;;;
     transcripcion_obj <- video_transcripcion (v_id video) ;;
     let segmentos_con_timestamps :=
       t_transcripcion_con_timestamps transcripcion_obj in
     match segmentos_con_timestamps with
     | [] =>
         logger_warning "No hay segmentos con timestamps" ;;;
         ret []
     | _ =>
         let texto_con_tiempos :=
           _format_transcription_with_times segmentos_con_timestamps in
         let min_segs := ANALYSIS_MIN_SEGMENTS settings in
         let max_segs := ANALYSIS_MAX_SEGMENTS settings in
         let user_prompt :=
           "Analiza esta transcripción con timestamps e identifica los "
           +:+ pretty min_segs +:+ "-" +:+ pretty max_segs
           +:+ " segmentos MÁS IMPORTANTES:" +:+ Py.newline +:+ Py.newline
           +:+ Py.str_take 10000 texto_con_tiempos
           +:+ Py.newline +:+ Py.newline +:+ "Responde en formato JSON." in
         modify (set_calls (fun l => l ++ [C_gpt_segments user_prompt])) ;;;
         segmentos <- ask_or_raise (fun t => gpt_segments env t user_prompt) ;;
         segmentos_validados <- _validate_segments segmentos ;;
         logger_info (pretty (length segmentos_validados)
                      +:+ " segmentos importantes identificados") ;;;
         ret segmentos_validados
     end)
    (fun e =>
       logger_error ("Error al identificar segmentos: " +:+ str e) ;;;
       ret []).

Definition bullets (items : list string) : string :=
  Py.join Py.newline ((fun item => "• " +:+ item) <$> items).

(** [_save_analysis] *)
Definition _save_analysis (resumen_data : RawSummary) : M unit :=
  try_except
    (let temas := bullets (rs_temas_principales resumen_data) in
     let conclusiones := bullets (rs_conclusiones_clave resumen_data) in
     let puntos := bullets (rs_puntos_importantes resumen_data) in
     let resumen_completo := rs_resumen_completo resumen_data in
     let cantidad_palabras := Py.count_words resumen_completo in
     let row :=
       mkResumen (v_id video) resumen_completo temas conclusiones puntos
                 cantidad_palabras (GPT_MODEL settings) in
     existing <- gets (has_resumen (v_id video)) ;;
     (if existing : bool then resumen_update row else resumen_create row) ;;;
     logger_info ("Resumen guardado para video " +:+ pretty (v_id video)))
    (fun e =>
       logger_error ("Error al guardar resumen: " +:+ str e) ;;;
       raise e).

(** [AnalysisService.analyze] *)
Definition analyze : M (RawSummary * list ValidSegment) :=
  try_except
    (_log_progress video "analisis_ia" L_iniciado
                   "Iniciando análisis con IA" None ;;;
     transcripcion <- _get_transcription ;;
     (if Py.truthy_str transcripcion then ret tt
      else raise (AnalysisError "El video no tiene transcripción")) ;;;
     let transcripcion := default "" transcripcion in
     logger_info ("Analizando video " +:+ pretty (v_id video) +:+ " con "
                  +:+ GPT_MODEL settings) ;;;
     resumen_data <- _generate_executive_summary transcripcion ;;
     segmentos_importantes <- _identify_important_segments transcripcion ;;
     _save_analysis resumen_data ;;;
     _log_progress video "analisis_ia" L_completado
                   ("Análisis completado. "
                    +:+ pretty (length segmentos_importantes)
                    +:+ " segmentos identificados") None ;;;
     logger_info ("Análisis completado para video " +:+ pretty (v_id video)) ;;;
     ret (resumen_data, segmentos_importantes))
    (fun e =>
       let error_msg := "Error al analizar video: " +:+ str e in
       _log_progress video "analisis_ia" L_error error_msg (Some (str e)) ;;;
       logger_error error_msg ;;;
       raise (AnalysisError error_msg)).

End Service.

End Analysis.

(** ** services/thumbnail_generator.py, video_downloader.py,
       audio_extractor.py *)

Module Services.

Section Service.

Context (env : Env) (settings : Settings) (video : Video).

(** *** ThumbnailGenerator *)

Definition thumbnail_dir : string := MEDIA_ROOT settings +:+ "/miniaturas".

(** [ThumbnailGenerator.__init__] *)
Definition thumbnail_init : M unit :=
  ask_unit (fun t => mkdir env t thumbnail_dir).

(** [ThumbnailGenerator.generate(video_path)], with the default
    [timestamp=None]; [int(duracion * 0.1)] is the tenth, rounded
    down. *)
Definition generate (video_path : string) : M string :=
  try_except
    (_log_progress video "generacion_miniatura" L_iniciado
                   "Generando miniatura" None ;;;
     present <- ask (fun t => path_exists env t video_path) ;;
     (if present : bool then ret tt
      else raise (ThumbnailGenerationError
                    ("Video no existe: " +:+ video_path))) ;;;
     let timestamp :=
       if Py.truthy_int (v_duracion_segundos video)
       then default 0 (v_duracion_segundos video) `quot` 10
       else 0 in
     let output_name := "thumb_" +:+ pretty (v_id video) +:+ ".jpg" in
     let output_path := thumbnail_dir +:+ "/" +:+ output_name in
     created <- ffmpeg_run env
                  (FfFrame video_path (inject_Z timestamp) output_path) ;;
     (if created : bool then ret tt
      else raise (ThumbnailGenerationError "No se pudo crear la miniatura")) ;;;
     ask_unit (fun t => storage_save env t output_path) ;;;
     video_save (with_miniatura output_name video) ;;;
     _log_progress video "generacion_miniatura" L_completado
                   ("Miniatura generada: " +:+ output_path) None ;;;
     ret output_path)
    (fun e =>
       match e with
       | FfmpegError stderr =>
           match stderr_text stderr with
           | inl text =>
               let error_msg := "Error de FFmpeg: " +:+ text in
               _log_progress video "generacion_miniatura" L_error error_msg
                             (Some (str e)) ;;;
               raise (ThumbnailGenerationError error_msg)
           | inr decode_error => raise (OtherException decode_error)
           end
       | _ =>
           let error_msg := "Error inesperado: " +:+ str e in
           _log_progress video "generacion_miniatura" L_error error_msg
                         (Some (str e)) ;;;
           raise (ThumbnailGenerationError error_msg)
       end).

(** *** VideoDownloader *)

(** [VideoDownloader.__init__] *)
Definition downloader_init : M unit :=
  ask_unit (fun t => mkdir env t (TEMP_ROOT settings)).

(** [_update_video_info]: whatever goes wrong is logged and
    forgotten. *)
Definition _update_video_info (video : Video) (info : DownloadInfo)
  : M unit :=
  try_except
    (_ <- ask (fun t => stat_size env t (di_file info)) ;;
     video_save
       (mkVideo (v_id video)
                (default (v_titulo video) (di_title info))
                (v_url_original video)
                (Some (di_duration info))
                E_descargando
                (v_miniatura_url video)))
    (fun e =>
       logger_error ("Error al actualizar info del video: " +:+ str e)).

(** [VideoDownloader.download] *)
Definition download : M string :=
  try_except
    (_log_progress video "descarga" L_iniciado
                   "Iniciando descarga de video" None ;;;
     (if Py.truthy_str (v_url_original video) then ret tt
      else raise (VideoDownloadError "No se proporcionó URL de video")) ;;;
     let url := default "" (v_url_original video) in
     modify (set_calls (fun l => l ++ [C_download url])) ;;;
     info <- ask_or_raise (fun t => yt_dlp env t url) ;;
     let downloaded_file := di_file info in
     _update_video_info video info ;;;
     _log_progress video "descarga" L_completado
                   ("Video descargado: " +:+ downloaded_file) None ;;;
     ret downloaded_file)
    (fun e =>
       match e with
       | DownloadError m =>
           let error_msg := "Error al descargar video: " +:+ m in
           _log_progress video "descarga" L_error error_msg (Some m) ;;;
           raise (VideoDownloadError error_msg)
       | _ =>
           let error_msg := "Error inesperado en descarga: " +:+ str e in
           _log_progress video "descarga" L_error error_msg (Some (str e)) ;;;
           raise (VideoDownloadError error_msg)
       end).

(** *** AudioExtractor *)

Definition audio_dir : string := MEDIA_ROOT settings +:+ "/audio".

(** [AudioExtractor.__init__] *)
Definition extractor_init : M unit :=
  ask_unit (fun t => mkdir env t audio_dir).

(** [AudioExtractor.extract]; [_get_audio_info] only reads, and its
    answer is not used. *)
Definition extract (video_path : string) : M string :=
  try_except
    (_log_progress video "extraccion_audio" L_iniciado
                   "Iniciando extracción de audio" None ;;;
     present <- ask (fun t => path_exists env t video_path) ;;
     (if present : bool then ret tt
      else raise (AudioExtractionError
                    ("Archivo de video no existe: " +:+ video_path))) ;;;
     let output_path :=
       audio_dir +:+ "/audio_" +:+ pretty (v_id video) +:+ ".mp3" in
     created <- ffmpeg_run env (FfAudio video_path output_path) ;;
     (if created : bool then ret tt
      else raise (AudioExtractionError
                    "No se pudo crear el archivo de audio")) ;;;
     _log_progress video "extraccion_audio" L_completado
                   ("Audio extraído: " +:+ output_path) None ;;;
     ret output_path)
    (fun e =>
       match e with
       | FfmpegError stderr =>
           match stderr_text stderr with
           | inl text =>
               let error_msg := "Error de FFmpeg al extraer audio: " +:+ text in
               _log_progress video "extraccion_audio" L_error error_msg
                             (Some (str e)) ;;;
               raise (AudioExtractionError error_msg)
           | inr decode_error => raise (OtherException decode_error)
           end
       | _ =>
           let error_msg := "Error inesperado al extraer audio: " +:+ str e in
           _log_progress video "extraccion_audio" L_error error_msg
                         (Some (str e)) ;;;
           raise (AudioExtractionError error_msg)
       end).

(** [VideoSegmentationService.__init__] *)
Definition segmentation_init : M unit :=
  ask_unit (fun t => mkdir env t (Segmentation.segments_dir settings)) ;;;
  ask_unit (fun t => mkdir env t (Segmentation.thumbnails_dir settings)).

End Service.

End Services.

(** ** The task executor *)

Module Celery.

(** [self.retry(exc=exc, countdown=countdown)] in an attempt whose
    [self.request.retries] is [request_retries], for a task declared
    with [max_retries]: when the next retry number exceeds
    [max_retries] the original exception is raised, otherwise a new
    attempt is queued and [Retry] is raised. *)
Definition retry (max_retries request_retries : nat) (exc : Exn)
    (countdown : Z) : Exn :=
  if (max_retries <? request_retries + 1)%nat then exc
  else Retry exc countdown.

(** How one submitted task ends: the countdowns of the retries that
    were scheduled, in order, and what the last attempt returned or
    raised. *)
Record Run (A : Type) := mkRun {
  run_countdowns : list Z;
  run_result : Res A;
  run_world : World;
}.
Arguments mkRun {A}.
Arguments run_countdowns {A}.
Arguments run_result {A}.
Arguments run_world {A}.

(** The number of times the body of the task was executed. *)
Definition attempts {A} (r : Run A) : nat := S (length (run_countdowns r)).

(** The worker: execute the attempt numbered [retries]; when it raises
    [Retry], execute the next one.  [fuel] bounds the number of
    re-executions. *)
Fixpoint worker {A} (attempt : nat -> M A) (fuel retries : nat) (w : World)
  : option (Run A) :=
  match attempt retries w with
  | (Exc (Retry _ countdown), w') =>
      match fuel with
      | O => None
      | S fuel' =>
          match worker attempt fuel' (S retries) w' with
          | Some r =>
              Some (mkRun (countdown :: run_countdowns r)
                          (run_result r) (run_world r))
          | None => None
          end
      end
  | (r, w') => Some (mkRun [] r w')
  end.

End Celery.

(** ** tasks/tasks.py *)

Module Tasks.

Import Celery.

(** The block that the handlers repeat:
    [try: video = get; video.estado = 'error'; video.save()
     except: pass]. *)
Definition mark_error (video_id : Z) : M unit :=
  try_pass
    (video <- video_get video_id ;;
     video_save (with_estado E_error video)).

(** The values that the tasks return. *)
Record TranscribirResult := mkTranscribir {
  tr_video_id : Z;
  tr_idioma : string;
  tr_precision : Q;
  tr_palabras : nat;
}.

Record AnalizarResult := mkAnalizar {
  ar_video_id : Z;
  ar_segmentos_identificados : nat;
  ar_resumen_generado : bool;
}.

Record SegmentarResult := mkSegmentar {
  sr_video_id : Z;
  sr_segmentos_procesados : nat;
  sr_segmentos : list (Z * string * Z);
}.

(** [Segmento.objects.create(...)]: the next primary key is taken. *)
Definition next_segmento_id (w : World) : Z :=
  1 + foldr Z.max 0 (s_id <$> segmentos w).

Definition segmento_create (video : Video) (orden : Z)
    (seg_data : Analysis.ValidSegment) : M unit :=
  fun w =>
    match videos w !! v_id video with
    | Some _ =>
        (Val tt,
         set_segmentos
           (fun l =>
              l ++ [mkSegmento (next_segmento_id w) (v_id video)
                               (Analysis.vs_titulo seg_data)
                               (Analysis.vs_descripcion seg_data)
                               (Analysis.vs_timestamp_inicio seg_data)
                               (Analysis.vs_timestamp_fin seg_data)
                               (Analysis.vs_duracion seg_data)
                               orden
                               (Analysis.vs_relevancia seg_data)
                               (Analysis.vs_tipo seg_data)
                               None None]) w)
    | None => (Exc (OtherException "FOREIGN KEY constraint failed"), w)
    end.

(** [for i, seg_data in enumerate(segmentos_importantes, i): create] *)
Fixpoint create_segmentos (video : Video) (i : Z)
    (segmentos_importantes : list Analysis.ValidSegment) : M nat :=
  match segmentos_importantes with
  | [] => ret 0%nat
  | seg_data :: rest =>
      segmento_create video i seg_data ;;;
      n <- create_segmentos video (i + 1) rest ;;
      ret (S n)
  end.

Section Tasks.

Context (env : Env) (settings : Settings).

(** [request_retries] is [self.request.retries]. *)

(** [@shared_task(bind=True, max_retries=3)
     def descargar_video_task(self, video_id)] *)
Definition descargar_video_task (request_retries : nat) (video_id : Z)
  : M string :=
  try_except
    (logger_info ("Iniciando descarga de video " +:+ pretty video_id) ;;;
     video <- video_get video_id ;;
     let video := with_estado E_descargando video in
     video_save video ;;;
     Services.downloader_init env settings ;;;
     video_path <- Services.download env video ;;
     logger_info ("Video " +:+ pretty video_id +:+ " descargado: "
                  +:+ video_path) ;;;
     ret video_path)
    (fun e =>
       match e with
       | DoesNotExist =>
           logger_error ("Video " +:+ pretty video_id +:+ " no existe") ;;;
           raise e
       | VideoDownloadError _ =>
           logger_error ("Error al descargar video " +:+ pretty video_id
                         +:+ ": " +:+ str e) ;;;
           mark_error video_id ;;;
           raise (retry 3 request_retries e
                        (60 * (Z.of_nat request_retries + 1)))
       | _ =>
           logger_error ("Error inesperado al descargar video "
                         +:+ pretty video_id +:+ ": " +:+ str e) ;;;
           mark_error video_id ;;;
           raise e
       end).

(** [@shared_task(bind=True, max_retries=3)
     def extraer_audio_task(self, video_id, video_path)] *)
Definition extraer_audio_task (request_retries : nat) (video_id : Z)
    (video_path : string) : M string :=
  try_except
    (logger_info ("Iniciando extracción de audio del video "
                  +:+ pretty video_id) ;;;
     video <- video_get video_id ;;
     let video := with_estado E_procesando video in
     video_save video ;;;
     Services.extractor_init env settings ;;;
     audio_path <- Services.extract env settings video video_path ;;
     logger_info ("Audio extraído del video " +:+ pretty video_id +:+ ": "
                  +:+ audio_path) ;;;
     ret audio_path)
    (fun e =>
       match e with
       | DoesNotExist =>
           logger_error ("Video " +:+ pretty video_id +:+ " no existe") ;;;
           raise e
       | AudioExtractionError _ =>
           logger_error ("Error al extraer audio del video "
                         +:+ pretty video_id +:+ ": " +:+ str e) ;;;
           mark_error video_id ;;;
           raise (retry 3 request_retries e
                        (60 * (Z.of_nat request_retries + 1)))
       | _ =>
           logger_error ("Error inesperado al extraer audio del video "
                         +:+ pretty video_id +:+ ": " +:+ str e) ;;;
           mark_error video_id ;;;
           raise e
       end).

(** [@shared_task(bind=True, max_retries=3)
     def generar_miniatura_task(self, video_id, video_path)] *)
Definition generar_miniatura_task (request_retries : nat) (video_id : Z)
    (video_path : string) : M string :=
  try_except
    (logger_info ("Generando miniatura para video " +:+ pretty video_id) ;;;
     video <- video_get video_id ;;
     Services.thumbnail_init env settings ;;;
     thumbnail_path <- Services.generate env settings video video_path ;;
     logger_info ("Miniatura generada para video " +:+ pretty video_id
                  +:+ ": " +:+ thumbnail_path) ;;;
     ret thumbnail_path)
    (fun e =>
       match e with
       | DoesNotExist =>
           logger_error ("Video " +:+ pretty video_id +:+ " no existe") ;;;
           raise e
       | ThumbnailGenerationError _ =>
           logger_error ("Error al generar miniatura del video "
                         +:+ pretty video_id +:+ ": " +:+ str e) ;;;
           raise (retry 3 request_retries e
                        (30 * (Z.of_nat request_retries + 1)))
       | _ =>
           logger_error ("Error inesperado al generar miniatura del video "
                         +:+ pretty video_id +:+ ": " +:+ str e) ;;;
           raise e
       end).

(** [@shared_task(bind=True, max_retries=2)
     def transcribir_audio_task(self, video_id, audio_path)] *)
Definition transcribir_audio_task (request_retries : nat) (video_id : Z)
    (audio_path : string) : M TranscribirResult :=
  try_except
    (logger_info ("Iniciando transcripción del video " +:+ pretty video_id) ;;;
     video <- video_get video_id ;;
     let video := with_estado E_transcribiendo video in
     video_save video ;;;
     mode <- Transcription.init settings None ;;
     result <- Transcription.transcribe env settings video mode audio_path ;;
     logger_info ("Transcripción completada para video "
                  +:+ pretty video_id) ;;;
     ret (mkTranscribir
            video_id
            (Transcription.d_idioma result)
            (Transcription.d_precision_estimada result)
            (Py.count_words (Transcription.d_contenido_completo result))))
    (fun e =>
       match e with
       | DoesNotExist =>
           logger_error ("Video " +:+ pretty video_id +:+ " no existe") ;;;
           raise e
       | TranscriptionError _ =>
           logger_error ("Error al transcribir video " +:+ pretty video_id
                         +:+ ": " +:+ str e) ;;;
           mark_error video_id ;;;
           raise (retry 2 request_retries e
                        (120 * (Z.of_nat request_retries + 1)))
       | _ =>
           logger_error ("Error inesperado al transcribir video "
                         +:+ pretty video_id +:+ ": " +:+ str e) ;;;
           mark_error video_id ;;;
           raise e
       end).

(** [@shared_task(bind=True, max_retries=2)
     def analizar_video_task(self, video_id)] *)
Definition analizar_video_task (request_retries : nat) (video_id : Z)
  : M AnalizarResult :=
  try_except
    (logger_info ("Iniciando análisis IA del video " +:+ pretty video_id) ;;;
     video <- video_get video_id ;;
     let video := with_estado E_analizando video in
     video_save video ;;;
     Analysis.init settings ;;;
     result <- Analysis.analyze env settings video ;;
     segmentos_guardados <- create_segmentos video 1 (snd result) ;;
     logger_info ("Análisis completado para video " +:+ pretty video_id
                  +:+ ". " +:+ pretty segmentos_guardados
                  +:+ " segmentos guardados") ;;;
     ret (mkAnalizar video_id segmentos_guardados true))
    (fun e =>
       match e with
       | DoesNotExist =>
           logger_error ("Video " +:+ pretty video_id +:+ " no existe") ;;;
           raise e
       | AnalysisError _ =>
           logger_error ("Error al analizar video " +:+ pretty video_id
                         +:+ ": " +:+ str e) ;;;
           mark_error video_id ;;;
           raise (retry 2 request_retries e
                        (180 * (Z.of_nat request_retries + 1)))
       | _ =>
           logger_error ("Error inesperado al analizar video "
                         +:+ pretty video_id +:+ ": " +:+ str e) ;;;
           mark_error video_id ;;;
           raise e
       end).

(** [@shared_task(bind=True, max_retries=2)
     def segmentar_video_task(self, video_id, video_path)] *)
Definition segmentar_video_task (request_retries : nat) (video_id : Z)
    (video_path : string) : M SegmentarResult :=
  try_except
    (logger_info ("Iniciando segmentación del video " +:+ pretty video_id) ;;;
     video <- video_get video_id ;;
     let video := with_estado E_segmentando video in
     video_save video ;;;
     Services.segmentation_init env settings ;;;
     segmentos <- Segmentation.segment_video env settings video video_path ;;
     logger_info ("Segmentación completada para video " +:+ pretty video_id
                  +:+ ". " +:+ pretty (length segmentos) +:+ " segmentos") ;;;
     ret (mkSegmentar
            video_id (length segmentos)
            ((fun seg => (Segmentation.res_segmento_id seg,
                           Segmentation.res_titulo seg,
                           Segmentation.res_duracion seg)) <$> segmentos)))
    (fun e =>
       match e with
       | DoesNotExist =>
           logger_error ("Video " +:+ pretty video_id +:+ " no existe") ;;;
           raise e
       | SegmentationError _ =>
           logger_error ("Error al segmentar video " +:+ pretty video_id
                         +:+ ": " +:+ str e) ;;;
           mark_error video_id ;;;
           raise (retry 2 request_retries e
                        (120 * (Z.of_nat request_retries + 1)))
       | _ =>
           logger_error ("Error inesperado al segmentar video "
                         +:+ pretty video_id +:+ ": " +:+ str e) ;;;
           mark_error video_id ;;;
           raise e
       end).

End Tasks.

End Tasks.

(** ** The six stages and their tasks *)

Module Stages.

Import Celery Tasks.

Inductive Stage :=
| Download
| AudioExtraction
| Thumbnail
| TranscriptionStage
| AnalysisStage
| SegmentationStage.

(** The [max_retries] of the [@shared_task] decorators. *)
Definition max_retries (s : Stage) : nat :=
  match s with
  | Download | AudioExtraction | Thumbnail => 3
  | TranscriptionStage | AnalysisStage | SegmentationStage => 2
  end.

(** The factor of [self.request.retries + 1] in the [countdown] of
    each task. *)
Definition base_delay (s : Stage) : Z :=
  match s with
  | Download => 60
  | AudioExtraction => 60
  | Thumbnail => 30
  | TranscriptionStage => 120
  | AnalysisStage => 180
  | SegmentationStage => 120
  end.

(** One attempt of the task of a stage; [path] is the upstream
    artifact, for the tasks that take one. *)
Definition stage_attempt (env : Env) (settings : Settings) (s : Stage)
    (video_id : Z) (path : string) (request_retries : nat) : M unit :=
  match s with
  | Download =>
      _ <- descargar_video_task env settings request_retries video_id ;; ret tt
  | AudioExtraction =>
      _ <- extraer_audio_task env settings request_retries video_id path ;;
      ret tt
  | Thumbnail =>
      _ <- generar_miniatura_task env settings request_retries video_id path ;;
      ret tt
  | TranscriptionStage =>
      _ <- transcribir_audio_task env settings request_retries video_id path ;;
      ret tt
  | AnalysisStage =>
      _ <- analizar_video_task env settings request_retries video_id ;; ret tt
  | SegmentationStage =>
      _ <- segmentar_video_task env settings request_retries video_id path ;;
      ret tt
  end.

(** Submitting the task of a stage and letting the worker run it to
    its end. *)
Definition run_stage (env : Env) (settings : Settings) (s : Stage)
    (video_id : Z) (path : string) (w : World) : option (Run unit) :=
  worker (stage_attempt env settings s video_id path) (max_retries s) 0 w.

End Stages.

(** ** views/video_views.py *)

Module Views.

Inductive Response :=
| HTTP_202_ACCEPTED (message : string) (video_id : Z) (task_id : string)
                    (estado : Estado)
| HTTP_400_BAD_REQUEST (error : string)
| HTTP_404_NOT_FOUND
| HTTP_500_INTERNAL_SERVER_ERROR (error : string).

Definition estado_str (e : Estado) : string :=
  match e with
  | E_pendiente => "pendiente"
  | E_descargando => "descargando"
  | E_procesando => "procesando"
  | E_transcribiendo => "transcribiendo"
  | E_analizando => "analizando"
  | E_segmentando => "segmentando"
  | E_completado => "completado"
  | E_error => "error"
  end.

Section View.

(** [in_queryset] is the filter of [get_queryset] for the user of
    the request. *)
Context (env : Env) (in_queryset : Video -> bool).

(** [self.get_object()]: the row with this key among those the user
    may see, or [Http404]. *)
Definition get_object (pk : Z) : M (option Video) :=
  gets (fun w =>
          match videos w !! pk with
          | Some v =>
              if in_queryset (with_id pk v) then Some (with_id pk v)
              else None
          | None => None
          end).

(** [procesar_video_completo_task.delay(video.id)] *)
Definition delay (video_id : Z) : M string :=
  task_id <- ask_or_raise
               (fun t => broker env t "procesar_video_completo_task" video_id) ;;
  modify (set_calls
            (fun l => l ++ [C_delay "procesar_video_completo_task" video_id])) ;;;
  ret task_id.

(** [procesar(self, request, pk)] *)
Definition procesar (pk : Z) : M Response :=
  found <- get_object pk ;;
  match found with
  | None => ret HTTP_404_NOT_FOUND
  | Some video =>
      if negb (bool_decide (v_estado video = E_pendiente)) then
        ret (HTTP_400_BAD_REQUEST
               ("El video está en estado " +:+ Py.dquote
                +:+ estado_str (v_estado video) +:+ Py.dquote
                +:+ " y no puede ser procesado"))
      else if negb (Py.truthy_str (v_url_original video)) then
        ret (HTTP_400_BAD_REQUEST "El video no tiene URL para procesar")
      else
        try_except
          (task_id <- delay (v_id video) ;;
           let video := with_estado E_procesando video in
           video_save video ;;;
           ret (HTTP_202_ACCEPTED "Procesamiento iniciado" (v_id video)
                                  task_id (v_estado video)))
          (fun e =>
             logger_error ("Error al iniciar procesamiento: " +:+ str e) ;;;
             ret (HTTP_500_INTERNAL_SERVER_ERROR
                    ("Error al iniciar procesamiento: " +:+ str e)))
  end.

End View.

End Views.

(** ** services/file_cleaner.py *)

Module FileCleaner.

Inductive Kind := RegularFile | Directory | OtherKind.

(** One entry of the temporary directory, with what the calls of the
    loop answer on its path.  [is_file()], the [stat()] that reads
    [st_mtime], the [stat()] that reads [st_size] and [unlink()] each
    answer or raise an [OSError]; the four last fields are the message
    of that error, if there is one. *)
Record Entry := mkEntry {
  e_name : string;
  e_kind : Kind;
  e_mtime : Q;
  e_size : Z;
  e_is_file_error : option string;
  e_mtime_error : option string;
  e_size_error : option string;
  e_unlink_error : option string;
}.

(** The temporary directory: [exists()] raises an [OSError], or the
    directory is missing, or it is there with its entries, which
    [iterdir()] lists unless it raises. *)
Inductive TempDir :=
| Unreadable (msg : string)
| Missing
| Present (entries : list Entry) (iterdir_error : option string).

(** [file_path.is_file()], when it answers. *)
Definition is_file (f : Entry) : bool :=
  match e_kind f with
  | RegularFile => true
  | _ => false
  end.

(** The dictionary that [clean_old_files] returns. *)
Record Stats := mkStats {
  deleted_count : nat;
  freed_space_mb : Q;
  error : option string;
}.

(** What the body of the loop does with one entry. *)
Inductive Turn :=
| Kept
| Deleted (file_size : Z)
| Raises (msg : string).

Definition turn (cutoff_time : Q) (file_path : Entry) : Turn :=
  match e_is_file_error file_path with
  | Some msg => Raises msg
  | None =>
      if is_file file_path then
        match e_mtime_error file_path with
        | Some msg => Raises msg
        | None =>
            if Py.Qltb (e_mtime file_path) cutoff_time then
              match e_size_error file_path with
              | Some msg => Raises msg
              | None =>
                  match e_unlink_error file_path with
                  | Some msg => Raises msg
                  | None => Deleted (e_size file_path)
                  end
              end
            else Kept
        end
      else Kept
  end.

(** How the loop over the directory ends. *)
Inductive LoopEnd :=
| Finished (deleted_count : nat) (freed_space : Z)
| Raised (msg : string).

(** The loop of [clean_old_files]: the answer, the entries left in
    the directory, and the lines logged. *)
Fixpoint sweep (cutoff_time : Q) (entries : list Entry)
    (deleted_count : nat) (freed_space : Z)
  : LoopEnd * list Entry * list LogLine :=
  match entries with
  | [] => (Finished deleted_count freed_space, [], [])
  | file_path :: rest =>
      match turn cutoff_time file_path with
      | Raises msg => (Raised msg, file_path :: rest, [])
      | Deleted file_size =>
          let '(r, kept, lines) :=
            sweep cutoff_time rest (S deleted_count)
                  (freed_space + file_size) in
          (r, kept,
           mkLine INFO ("Eliminado archivo temporal: " +:+ e_name file_path)
             :: lines)
      | Kept =>
          let '(r, kept, lines) :=
            sweep cutoff_time rest deleted_count freed_space in
          (r, file_path :: kept, lines)
      end
  end.

(** [FileCleaner.clean_old_files]; [now] is [time.time()].  The test
    [exists()] is outside the [try]; everything else is inside it. *)
Definition clean_old_files (lifetime_hours now : Q) (temp_dir : TempDir)
  : Res Stats * option (list Entry) * list LogLine :=
  match temp_dir with
  | Unreadable msg => (Exc (OtherException msg), None, [])
  | Missing => (Val (mkStats 0 0 None), None, [])
  | Present entries (Some msg) =>
      (Val (mkStats 0 0 (Some msg)), Some entries,
       [mkLine ERROR ("Error en limpieza de archivos: " +:+ msg)])
  | Present entries None =>
      let cutoff_time := (now - lifetime_hours * 3600)%Q in
      match sweep cutoff_time entries 0 0 with
      | (Finished deleted_count freed_space, kept, lines) =>
          let freed_space_mb :=
            Py.round2 (inject_Z freed_space / inject_Z (1024 * 1024)) in
          (Val (mkStats deleted_count freed_space_mb None), Some kept,
           lines ++
             [mkLine INFO ("Limpieza completada: " +:+ pretty deleted_count
                           +:+ " archivos, " +:+ Py.repr_round2 freed_space_mb
                           +:+ " MB liberados")])
      | (Raised msg, kept, lines) =>
          (Val (mkStats 0 0 (Some msg)), Some kept,
           lines ++
             [mkLine ERROR ("Error en limpieza de archivos: " +:+ msg)])
      end
  end.

End FileCleaner.

(** * More of the code *)

(** ** models.py: the formatted durations *)

Module Display.

(** [Video.duracion_formateada] *)
Definition duracion_formateada (self : Video) : string :=
  if Py.truthy_int (v_duracion_segundos self) then
    let duracion_segundos := default 0 (v_duracion_segundos self) in
    let horas := duracion_segundos / 3600 in
    let minutos := (duracion_segundos mod 3600) / 60 in
    let segundos := duracion_segundos mod 60 in
    Py.fmt_02d horas +:+ ":" +:+ Py.fmt_02d minutos +:+ ":"
      +:+ Py.fmt_02d segundos
  else "00:00:00".

(** [Segmento.timestamp_inicio_formateado] *)
Definition timestamp_inicio_formateado (self : Segmento) : string :=
  let minutos := s_timestamp_inicio_seg self / 60 in
  let segundos := s_timestamp_inicio_seg self mod 60 in
  Py.fmt_02d minutos +:+ ":" +:+ Py.fmt_02d segundos.

(** [Segmento.timestamp_fin_formateado] *)
Definition timestamp_fin_formateado (self : Segmento) : string :=
  let minutos := s_timestamp_fin_seg self / 60 in
  let segundos := s_timestamp_fin_seg self mod 60 in
  Py.fmt_02d minutos +:+ ":" +:+ Py.fmt_02d segundos.

End Display.

(** ** users/permissions.py, and [get_queryset] of views/video_views.py *)

Module Permissions.

(** [request.user]: an [AnonymousUser], which has no [rol], or a
    stored [Usuario]. *)
Inductive RequestUser :=
| AnonymousUser
| Usuario (id : Z) (rol : string).

Definition is_authenticated (user : RequestUser) : bool :=
  match user with
  | AnonymousUser => false
  | Usuario _ _ => true
  end.

(** [user.rol == rol]; only evaluated on a stored user. *)
Definition rol_is (user : RequestUser) (rol : string) : bool :=
  match user with
  | AnonymousUser => false
  | Usuario _ r => bool_decide (r = rol)
  end.

(** [IsDocente.has_permission]; both kinds of user are truthy. *)
Definition IsDocente (user : RequestUser) : bool :=
  is_authenticated user && rol_is user "docente".

(** [IsAdmin.has_permission] *)
Definition IsAdmin (user : RequestUser) : bool :=
  is_authenticated user && rol_is user "admin".

(** [IsDocenteOrAdmin.has_permission] *)
Definition IsDocenteOrAdmin (user : RequestUser) : bool :=
  is_authenticated user
  && match user with
     | AnonymousUser => false
     | Usuario _ r => bool_decide (r ∈ ["docente"; "admin"])
     end.

(** The object of a detail request: a row with a [usuario] column, a
    [Usuario], or anything else. *)
Inductive Obj :=
| Owned (usuario : Z)
| UsuarioObj (id : Z)
| OtherObj.

(** [IsOwnerOrAdmin.has_object_permission]; [None] is the
    [AttributeError] on [AnonymousUser.rol]. *)
Definition IsOwnerOrAdmin (user : RequestUser) (obj : Obj) : option bool :=
  match user with
  | AnonymousUser => None
  | Usuario id rol =>
      if bool_decide (rol = "admin") then Some true
      else
        match obj with
        | Owned usuario => Some (bool_decide (usuario = id))
        | UsuarioObj id' => Some (bool_decide (id' = id))
        | OtherObj => Some false
        end
  end.

Section Queryset.

(** The [usuario] column of a video. *)
Context (usuario : Video -> Z).

(** [VideoViewSet.get_queryset], over the rows of the table. *)
Definition get_queryset (user : RequestUser) (table : list Video)
  : option (list Video) :=
  match user with
  | AnonymousUser => None
  | Usuario id rol =>
      if bool_decide (rol = "admin") then Some table
      else Some (filter (fun v => usuario v = id) table)
  end.

End Queryset.

End Permissions.

(** ** tasks/tasks.py: the last task of the pipeline *)

Module Finalizar.

(** [finalizar_procesamiento_task]; [fecha_procesamiento] is not among
    the columns kept here. *)
Definition finalizar_procesamiento_task (video_id : Z) : M unit :=
  try_except
    (logger_info ("Finalizando procesamiento del video " +:+ pretty video_id) ;;;
     video <- video_get video_id ;;
     let video := with_estado E_completado video in
     video_save video ;;;
     log_create (mkLog (v_id video) "finalizacion" L_completado
                       "Procesamiento completado exitosamente" None) ;;;
     logger_info ("Procesamiento del video " +:+ pretty video_id
                  +:+ " completado"))
    (fun e =>
       match e with
       | DoesNotExist =>
           logger_error ("Video " +:+ pretty video_id +:+ " no existe") ;;;
           raise e
       | _ =>
           logger_error ("Error al finalizar procesamiento del video "
                         +:+ pretty video_id +:+ ": " +:+ str e) ;;;
           raise e
       end).

End Finalizar.

(** ** views/video_views.py: [reanalizar] *)

Module Reanalizar.

Inductive Response :=
| HTTP_202_ACCEPTED (message : string) (video_id : Z) (task_id : string)
| HTTP_400_BAD_REQUEST (error : string)
| HTTP_404_NOT_FOUND
| HTTP_500_INTERNAL_SERVER_ERROR (error : string).

Section View.

Context (env : Env) (in_queryset : Video -> bool).

(** [analizar_video_task.delay(video.id)] *)
Definition delay (video_id : Z) : M string :=
  task_id <- ask_or_raise
               (fun t => broker env t "analizar_video_task" video_id) ;;
  modify (set_calls
            (fun l => l ++ [C_delay "analizar_video_task" video_id])) ;;;
  ret task_id.

(** [reanalizar(self, request, pk)] *)
Definition reanalizar (pk : Z) : M Response :=
  found <- Views.get_object in_queryset pk ;;
  match found with
  | None => ret HTTP_404_NOT_FOUND
  | Some video =>
      has <- gets (Transcription.has_transcripcion (v_id video)) ;;
      if negb has then
        ret (HTTP_400_BAD_REQUEST
               "El video no tiene transcripción. Transcríbalo primero.")
      else
        try_except
          (task_id <- delay (v_id video) ;;
           ret (HTTP_202_ACCEPTED "Re-análisis iniciado" (v_id video) task_id))
          (fun e =>
             logger_error ("Error al iniciar re-análisis: " +:+ str e) ;;;
             ret (HTTP_500_INTERNAL_SERVER_ERROR
                    ("Error al iniciar re-análisis: " +:+ str e)))
  end.

End View.

End Reanalizar.

(** ** services/thumbnail_generator.py: [generate_multiple] *)

Module Thumbnails.

Section Service.

Context (env : Env) (settings : Settings) (video : Video).

(** The body of the loop for [i]: a failure is logged and the loop
    goes on. *)
Definition generate_one (video_path : string) (interval : Z)
    (thumbnails : list string) (i : Z) : M (list string) :=
  let timestamp := interval * i in
  try_except
    (let output_path :=
       Services.thumbnail_dir settings +:+ "/thumb_" +:+ pretty (v_id video)
         +:+ "_" +:+ pretty i +:+ ".jpg" in
     _ <- ffmpeg_run env (FfFrame video_path (inject_Z timestamp) output_path) ;;
     ret (thumbnails ++ [output_path]))
    (fun e =>
       logger_error ("Error generando miniatura " +:+ pretty i +:+ ": "
                     +:+ str e) ;;;
       ret thumbnails).

Fixpoint generate_loop (video_path : string) (interval : Z)
    (thumbnails : list string) (range : list Z) : M (list string) :=
  match range with
  | [] => ret thumbnails
  | i :: rest =>
      thumbnails' <- generate_one video_path interval thumbnails i ;;
      generate_loop video_path interval thumbnails' rest
  end.

(** [range(1, count + 1)] *)
Definition range_from_1 (count : Z) : list Z :=
  (fun k => Z.of_nat k + 1) <$> seq 0 (Z.to_nat count).

(** [ThumbnailGenerator.generate_multiple(video_path, count)] *)
Definition generate_multiple (video_path : string) (count : Z)
  : M (list string) :=
  if negb (Py.truthy_int (v_duracion_segundos video)) then ret []
  else if count + 1 =? 0 then
    raise (OtherException "integer division or modulo by zero")
  else
    let interval := default 0 (v_duracion_segundos video) / (count + 1) in
    generate_loop video_path interval [] (range_from_1 count).

End Service.

End Thumbnails.

(** ** services/analysis_service.py: [get_existing_summary] *)

Module Summary.

(** [s.split(sep)] for a separator of one character. *)
Fixpoint split (sep : Ascii.ascii) (s : string) : list string :=
  match s with
  | EmptyString => [EmptyString]
  | String c s' =>
      if Ascii.eqb c sep then EmptyString :: split sep s'
      else
        match split sep s' with
        | piece :: pieces => String c piece :: pieces
        | [] => [String c EmptyString]
        end
  end.

Definition newline_char : Ascii.ascii := Ascii.ascii_of_nat 10.

(** The dictionary that [get_existing_summary] returns. *)
Record Existing := mkExisting {
  es_resumen_completo : string;
  es_temas_principales : list string;
  es_conclusiones_clave : list string;
  es_puntos_importantes : list string;
  es_modelo_utilizado : string;
}.

(** [AnalysisService.get_existing_summary] *)
Definition get_existing_summary (video : Video) : M (option Existing) :=
  gets (fun w =>
          match List.find (fun r => bool_decide (r_video r = v_id video))
                          (resumenes w) with
          | Some resumen =>
              Some (mkExisting
                      (r_resumen_completo resumen)
                      (split newline_char (r_temas_principales resumen))
                      (split newline_char (r_conclusiones_clave resumen))
                      (split newline_char (r_puntos_importantes resumen))
                      (r_modelo_ia_utilizado resumen))
          | None => None
          end).

End Summary.

(** ** serializers/video_serializers.py: [SegmentoCreateSerializer] *)

Module Serializers.

(** What [validate] does: it returns the attributes, with
    [duracion_seg] added, or raises a [ValidationError]. *)
Inductive Validated :=
| Accepted (duracion_seg : Z)
| ValidationError (msg : string).

(** [SegmentoCreateSerializer.validate(attrs)], on the timestamps and
    the video of [attrs]. *)
Definition validate (video : Video) (inicio fin : Z) : Validated :=
  if fin <=? inicio then
    ValidationError "El timestamp de fin debe ser mayor al de inicio."
  else if Py.truthy_int (v_duracion_segundos video)
          && ((inicio <? 0) || (default 0 (v_duracion_segundos video) <? fin))
  then
    ValidationError
      ("Los timestamps deben estar entre 0 y "
       +:+ pretty (default 0 (v_duracion_segundos video)) +:+ " segundos.")
  else Accepted (fin - inicio).

End Serializers.

(** * Reasoning about the workers' computations *)

Module Logic.

(** [wp m Q w]: running [m] from [w] ends in a result and a world that
    satisfy [Q]. *)
Definition wp {A} (m : M A) (Q : Res A -> World -> Prop) (w : World) : Prop :=
  Q (fst (m w)) (snd (m w)).

Lemma wp_run {A} (m : M A) Q w r w' :
  wp m Q w -> m w = (r, w') -> Q r w'.
Proof. unfold wp. intros H E. now rewrite E in H. Qed.

Lemma wp_mono {A} (m : M A) (Q Q' : Res A -> World -> Prop) w :
  wp m Q w -> (forall r w', Q r w' -> Q' r w') -> wp m Q' w.
Proof. unfold wp. auto. Qed.

Lemma wp_any {A} (m : M A) (Q : Res A -> World -> Prop) w :
  (forall r w', Q r w') -> wp m Q w.
Proof. unfold wp. auto. Qed.

Lemma wp_and {A} (m : M A) (Q Q' : Res A -> World -> Prop) w :
  wp m Q w -> wp m Q' w -> wp m (fun r w' => Q r w' /\ Q' r w') w.
Proof. unfold wp. auto. Qed.

Lemma wp_ret {A} (a : A) Q w : Q (Val a) w -> wp (ret a) Q w.
Proof. auto. Qed.

Lemma wp_raise {A} e (Q : Res A -> World -> Prop) w :
  Q (Exc e) w -> wp (raise e) Q w.
Proof. auto. Qed.

Lemma wp_bind {A B} (m : M A) (k : A -> M B) Q w :
  wp m (fun r w' =>
          match r with
          | Val a => wp (k a) Q w'
          | Exc e => Q (Exc e) w'
          end) w ->
  wp (bind m k) Q w.
Proof. unfold wp, bind. destruct (m w) as [[a|e] w']; auto. Qed.

Lemma wp_try_except {A} (m : M A) (h : Exn -> M A) Q w :
  wp m (fun r w' =>
          match r with
          | Val a => Q (Val a) w'
          | Exc e => wp (h e) Q w'
          end) w ->
  wp (try_except m h) Q w.
Proof. unfold wp, try_except. destruct (m w) as [[a|e] w']; auto. Qed.

Lemma wp_modify f (Q : Res unit -> World -> Prop) w :
  Q (Val tt) (f w) -> wp (modify f) Q w.
Proof. auto. Qed.

Lemma wp_gets {A} (f : World -> A) Q w : Q (Val (f w)) w -> wp (gets f) Q w.
Proof. auto. Qed.

Lemma wp_ask {A} (oracle : nat -> A) Q w :
  Q (Val (oracle (tick w))) (bump w) -> wp (ask oracle) Q w.
Proof. auto. Qed.

Lemma wp_video_get video_id Q w :
  match videos w !! video_id with
  | Some v => Q (Val (with_id video_id v)) w
  | None => Q (Exc DoesNotExist) w
  end ->
  wp (video_get video_id) Q w.
Proof. unfold wp, video_get. destruct (videos w !! video_id); auto. Qed.

Lemma wp_log_create row (Q : Res unit -> World -> Prop) w :
  Q (Val tt) (set_logs (fun l => l ++ [row]) w) ->
  Q (Exc (OtherException "FOREIGN KEY constraint failed")) w ->
  wp (log_create row) Q w.
Proof. unfold wp, log_create. destruct (videos w !! l_video row); auto. Qed.

Lemma wp_segmento_create video orden seg_data
    (Q : Res unit -> World -> Prop) w :
  (forall row,
      s_video row = v_id video ->
      s_orden row = orden ->
      s_relevancia_score row = Analysis.vs_relevancia seg_data ->
      Q (Val tt) (set_segmentos (fun l => l ++ [row]) w)) ->
  Q (Exc (OtherException "FOREIGN KEY constraint failed")) w ->
  wp (Tasks.segmento_create video orden seg_data) Q w.
Proof.
  unfold wp, Tasks.segmento_create. intros H1 H2.
  destruct (videos w !! v_id video); simpl; auto.
Qed.

Lemma wp_transcripcion_create row (Q : Res unit -> World -> Prop) w :
  (Transcription.has_transcripcion (t_video row) w = false ->
   Q (Val tt) (set_transcripciones (fun l => l ++ [row]) w)) ->
  (Transcription.has_transcripcion (t_video row) w = true ->
   forall m, Q (Exc (OtherException m)) w) ->
  wp (Transcription.transcripcion_create row) Q w.
Proof.
  unfold wp, Transcription.transcripcion_create. intros H1 H2.
  destruct (Transcription.has_transcripcion (t_video row) w); simpl; auto.
Qed.

Lemma wp_resumen_create row (Q : Res unit -> World -> Prop) w :
  (Analysis.has_resumen (r_video row) w = false ->
   Q (Val tt) (set_resumenes (fun l => l ++ [row]) w)) ->
  (Analysis.has_resumen (r_video row) w = true ->
   forall m, Q (Exc (OtherException m)) w) ->
  wp (Analysis.resumen_create row) Q w.
Proof.
  unfold wp, Analysis.resumen_create. intros H1 H2.
  destruct (Analysis.has_resumen (r_video row) w); simpl; auto.
Qed.

Lemma wp_video_transcripcion video_id (Q : Res Transcripcion -> World -> Prop) w :
  (forall t, t ∈ transcripciones w -> t_video t = video_id -> Q (Val t) w) ->
  (forall m, Q (Exc (OtherException m)) w) ->
  wp (Analysis.video_transcripcion video_id) Q w.
Proof.
  unfold wp, Analysis.video_transcripcion. intros H1 H2.
  destruct (List.find _ _) eqn:E; simpl; auto.
  apply List.find_some in E as [Hin Hv]. apply H1.
  - now apply list_elem_of_In.
  - now apply bool_decide_eq_true in Hv.
Qed.

(** One step of symbolic execution. *)
Ltac wp_step :=
  lazymatch goal with
  | |- wp (bind _ _) _ _ => apply wp_bind
  | |- wp (try_except _ _) _ _ => apply wp_try_except
  | |- wp (try_pass _) _ _ => unfold try_pass; apply wp_try_except
  | |- wp (ret _) _ _ => apply wp_ret
  | |- wp (raise _) _ _ => apply wp_raise
  | |- wp (modify _) _ _ => apply wp_modify
  | |- wp (gets _) _ _ => apply wp_gets
  | |- wp (ask _) _ _ => apply wp_ask
  | |- wp (video_get _) _ _ => apply wp_video_get
  | |- wp (video_save _) _ _ => unfold video_save; apply wp_modify
  | |- wp (segmento_save _) _ _ => unfold segmento_save; apply wp_modify
  | |- wp (logger_info _) _ _ => unfold logger_info; apply wp_modify
  | |- wp (logger_warning _) _ _ => unfold logger_warning; apply wp_modify
  | |- wp (logger_error _) _ _ => unfold logger_error; apply wp_modify
  | |- wp (log_create _) _ _ => apply wp_log_create
  | |- wp (Tasks.segmento_create _ _ _) _ _ => apply wp_segmento_create
  | |- wp (Transcription.transcripcion_create _) _ _ =>
      apply wp_transcripcion_create
  | |- wp (Transcription.transcripcion_update _) _ _ =>
      unfold Transcription.transcripcion_update; apply wp_modify
  | |- wp (Analysis.resumen_create _) _ _ => apply wp_resumen_create
  | |- wp (Analysis.resumen_update _) _ _ =>
      unfold Analysis.resumen_update; apply wp_modify
  | |- wp (Analysis.video_transcripcion _) _ _ => apply wp_video_transcripcion
  | |- wp (_log_progress _ _ _ _ _) _ _ => unfold _log_progress
  | |- wp (ask_or_raise _) _ _ => unfold ask_or_raise
  | |- wp (ask_unit _) _ _ => unfold ask_unit
  | |- wp (ffmpeg_run _ _) _ _ => unfold ffmpeg_run
  | |- wp (when _ _) _ _ => unfold when
  | |- wp (Tasks.mark_error _) _ _ => unfold Tasks.mark_error
  | |- wp (Services.thumbnail_init _ _) _ _ => unfold Services.thumbnail_init
  | |- wp (Services.downloader_init _ _) _ _ => unfold Services.downloader_init
  | |- wp (Services.extractor_init _ _) _ _ => unfold Services.extractor_init
  | |- wp (Services.segmentation_init _ _) _ _ =>
      unfold Services.segmentation_init
  | |- wp (Transcription.init _ _) _ _ => unfold Transcription.init
  | |- wp (Analysis.init _) _ _ => unfold Analysis.init
  | |- wp (if ?b then _ else _) _ _ => destruct b eqn:?
  | |- wp (match ?x with _ => _ end) _ _ => destruct x eqn:?
  | |- wp (let _ := _ in _) _ _ => cbv zeta
  | |- match ?x with _ => _ end => destruct x eqn:?
  | |- forall _, _ => intro
  end; cbv beta.

Ltac wp_steps := repeat wp_step.

(** [preserves I m]: whatever [m] returns or raises, it keeps [I]. *)
Definition preserves {A} (I : World -> Prop) (m : M A) : Prop :=
  forall w, I w -> I (snd (m w)).

Lemma preserves_wp {A} I (m : M A) w :
  preserves I m -> I w -> wp m (fun _ w' => I w') w.
Proof. unfold preserves, wp. auto. Qed.

Lemma preserves_ret {A} I (a : A) : preserves I (ret a).
Proof. intros w H. exact H. Qed.

Lemma preserves_raise {A} I e : preserves I (@raise A e).
Proof. intros w H. exact H. Qed.

Lemma preserves_bind {A B} I (m : M A) (k : A -> M B) :
  preserves I m -> (forall a, preserves I (k a)) -> preserves I (bind m k).
Proof.
  intros Hm Hk w H. unfold bind. specialize (Hm w H).
  destruct (m w) as [[a|e] w']; simpl in *; [now apply Hk | exact Hm].
Qed.

Lemma preserves_try_except {A} I (m : M A) h :
  preserves I m -> (forall e, preserves I (h e)) ->
  preserves I (try_except m h).
Proof.
  intros Hm Hh w H. unfold try_except. specialize (Hm w H).
  destruct (m w) as [[a|e] w']; simpl in *; [exact Hm | now apply Hh].
Qed.

Lemma preserves_modify I f :
  (forall w, I w -> I (f w)) -> preserves I (modify f).
Proof. intros Hf w H. now apply Hf. Qed.

Lemma preserves_gets {A} I (f : World -> A) : preserves I (gets f).
Proof. intros w H. exact H. Qed.

Lemma preserves_ask {A} I (oracle : nat -> A) :
  (forall w, I w -> I (bump w)) -> preserves I (ask oracle).
Proof. intros Hb w H. now apply Hb. Qed.

Lemma preserves_video_get I video_id : preserves I (video_get video_id).
Proof.
  intros w H. unfold video_get. now destruct (videos w !! video_id).
Qed.

Lemma preserves_log_create I row :
  (forall w, I w -> I (set_logs (fun l => l ++ [row]) w)) ->
  preserves I (log_create row).
Proof.
  intros Hf w H. unfold log_create.
  destruct (videos w !! l_video row); simpl; auto.
Qed.

Lemma preserves_segmento_create I video orden seg_data :
  (forall row w, I w -> I (set_segmentos (fun l => l ++ [row]) w)) ->
  preserves I (Tasks.segmento_create video orden seg_data).
Proof.
  intros Hf w H. unfold Tasks.segmento_create.
  destruct (videos w !! v_id video); simpl; auto.
Qed.

Lemma preserves_transcripcion_create I row :
  (forall w, Transcription.has_transcripcion (t_video row) w = false ->
             I w -> I (set_transcripciones (fun l => l ++ [row]) w)) ->
  preserves I (Transcription.transcripcion_create row).
Proof.
  intros Hf w H. unfold Transcription.transcripcion_create.
  destruct (Transcription.has_transcripcion _ w) eqn:E; simpl; auto.
Qed.

Lemma preserves_resumen_create I row :
  (forall w, Analysis.has_resumen (r_video row) w = false ->
             I w -> I (set_resumenes (fun l => l ++ [row]) w)) ->
  preserves I (Analysis.resumen_create row).
Proof.
  intros Hf w H. unfold Analysis.resumen_create.
  destruct (Analysis.has_resumen _ w) eqn:E; simpl; auto.
Qed.

Lemma preserves_video_transcripcion I video_id :
  preserves I (Analysis.video_transcripcion video_id).
Proof.
  intros w H. unfold Analysis.video_transcripcion.
  now destruct (List.find _ _).
Qed.

(** One step of a proof that a computation keeps an invariant: the
    number of goals grows with the size of the code, not with the
    number of its paths. *)
Ltac inv_step :=
  lazymatch goal with
  | |- preserves _ (bind _ _) => apply preserves_bind; [|intro]
  | |- preserves _ (try_except _ _) => apply preserves_try_except; [|intro]
  | |- preserves _ (try_pass _) =>
      unfold try_pass; apply preserves_try_except; [|intro]
  | |- preserves _ (ret _) => apply preserves_ret
  | |- preserves _ (raise _) => apply preserves_raise
  | |- preserves _ (modify _) => apply preserves_modify; intros ? ?
  | |- preserves _ (gets _) => apply preserves_gets
  | |- preserves _ (ask _) => apply preserves_ask; intros ? ?
  | |- preserves _ (video_get _) => apply preserves_video_get
  | |- preserves _ (video_save _) =>
      unfold video_save; apply preserves_modify; intros ? ?
  | |- preserves _ (segmento_save _) =>
      unfold segmento_save; apply preserves_modify; intros ? ?
  | |- preserves _ (logger_info _) =>
      unfold logger_info; apply preserves_modify; intros ? ?
  | |- preserves _ (logger_warning _) =>
      unfold logger_warning; apply preserves_modify; intros ? ?
  | |- preserves _ (logger_error _) =>
      unfold logger_error; apply preserves_modify; intros ? ?
  | |- preserves _ (log_create _) => apply preserves_log_create; intros ? ?
  | |- preserves _ (Tasks.segmento_create _ _ _) =>
      apply preserves_segmento_create; intros ? ? ?
  | |- preserves _ (Transcription.transcripcion_create _) =>
      apply preserves_transcripcion_create; intros ? ? ?
  | |- preserves _ (Transcription.transcripcion_update _) =>
      unfold Transcription.transcripcion_update; apply preserves_modify;
      intros ? ?
  | |- preserves _ (Analysis.resumen_create _) =>
      apply preserves_resumen_create; intros ? ? ?
  | |- preserves _ (Analysis.resumen_update _) =>
      unfold Analysis.resumen_update; apply preserves_modify; intros ? ?
  | |- preserves _ (Analysis.video_transcripcion _) =>
      apply preserves_video_transcripcion
  | |- preserves _ (_log_progress _ _ _ _ _) => unfold _log_progress
  | |- preserves _ (ask_or_raise _) => unfold ask_or_raise
  | |- preserves _ (ask_unit _) => unfold ask_unit
  | |- preserves _ (ffmpeg_run _ _) => unfold ffmpeg_run
  | |- preserves _ (Tasks.mark_error _) => unfold Tasks.mark_error
  | |- preserves _ (Services.thumbnail_init _ _) =>
      unfold Services.thumbnail_init
  | |- preserves _ (Services.downloader_init _ _) =>
      unfold Services.downloader_init
  | |- preserves _ (Services.extractor_init _ _) =>
      unfold Services.extractor_init
  | |- preserves _ (Services.segmentation_init _ _) =>
      unfold Services.segmentation_init
  | |- preserves _ (Transcription.init _ _) => unfold Transcription.init
  | |- preserves _ (Analysis.init _) => unfold Analysis.init
  | |- preserves _ (if ?b then _ else _) => destruct b
  | |- preserves _ (match ?x with _ => _ end) => destruct x
  | |- preserves _ (let _ := _ in _) => cbv zeta
  end; cbv beta.

Ltac inv_steps := repeat inv_step.

End Logic.

Import Logic.

(** * Retries: ceilings and delays *)

Module RetryFacts.

Import Celery Tasks Stages.

(** A result that is not the executor's [Retry] signal. *)
Definition no_retry {A} (r : Res A) : Prop :=
  match r with
  | Exc (Retry _ _) => False
  | _ => True
  end.

Lemma exn_of_no_retry {A} e : @no_retry A (Exc (exn_of e)).
Proof. now destruct e. Qed.

(** A [try] whose handlers never raise [Retry] never raises it. *)
Lemma try_no_retry {A} (m : M A) h w :
  (forall e w', wp (h e) (fun r _ => no_retry r) w') ->
  wp (try_except m h) (fun r _ => no_retry r) w.
Proof.
  intros Hh. apply wp_try_except. apply wp_any. intros [a|e] w'; [exact I|].
  apply Hh.
Qed.

Ltac handlers :=
  apply try_no_retry; intros [] ?; wp_steps; exact I.

Section Services.

Context (env : Env) (settings : Settings) (video : Video).

Lemma download_no_retry w :
  wp (Services.download env video) (fun r _ => no_retry r) w.
Proof. unfold Services.download. handlers. Qed.

Lemma extract_no_retry path w :
  wp (Services.extract env settings video path) (fun r _ => no_retry r) w.
Proof. unfold Services.extract. handlers. Qed.

Lemma generate_no_retry path w :
  wp (Services.generate env settings video path) (fun r _ => no_retry r) w.
Proof. unfold Services.generate. handlers. Qed.

Lemma transcribe_no_retry mode path w :
  wp (Transcription.transcribe env settings video mode path)
     (fun r _ => no_retry r) w.
Proof. unfold Transcription.transcribe. handlers. Qed.

Lemma analyze_no_retry w :
  wp (Analysis.analyze env settings video) (fun r _ => no_retry r) w.
Proof. unfold Analysis.analyze. handlers. Qed.

Lemma segment_video_no_retry path w :
  wp (Segmentation.segment_video env settings video path)
     (fun r _ => no_retry r) w.
Proof. unfold Segmentation.segment_video. handlers. Qed.

End Services.

(** What an attempt numbered [retries] may raise as [Retry], for a
    task declared with [max] retries and a countdown factor [base]. *)
Definition retry_post (max : nat) (base : Z) (retries : nat) {A}
    (r : Res A) : Prop :=
  match r with
  | Exc (Retry _ c) => (retries < max)%nat /\ c = base * (Z.of_nat retries + 1)
  | _ => True
  end.

Lemma retry_post_retry max base retries {A} e :
  match e with Retry _ _ => False | _ => True end ->
  @retry_post max base retries A
              (Exc (retry max retries e (base * (Z.of_nat retries + 1)))).
Proof.
  intros He. unfold retry.
  destruct (Nat.ltb_spec max (retries + 1)); simpl.
  - destruct e; simpl in *; tauto.
  - split; [lia | reflexivity].
Qed.

(** The handlers of a task, given that its body raised no [Retry]. *)
Ltac task_handlers :=
  intros [a|e] w' Hbody; [exact I|];
  destruct e; wp_steps;
  first [ exact I | contradiction | now apply retry_post_retry ].

Ltac body_leaf :=
  first [ exact I | apply exn_of_no_retry ].

Section Tasks.

Context (env : Env) (settings : Settings).

Lemma create_segmentos_no_retry video segs : forall i w,
  wp (create_segmentos video i segs) (fun r _ => no_retry r) w.
Proof.
  induction segs as [|seg rest IH]; intros i w; simpl.
  - wp_steps. exact I.
  - wp_steps; try exact I.
    eapply wp_mono; [apply IH|].
    intros [n|e] w' Hrest; [wp_steps; exact I | exact Hrest].
Qed.

(** The body of a task raises no [Retry]: the service is the only
    compound step. *)
Ltac task_body service_lemma :=
  wp_steps; try body_leaf;
  (eapply wp_mono; [apply service_lemma|]);
  (let H := fresh in intros [?|?] ? H; [wp_steps; try body_leaf | exact H]).

Lemma descargar_retry retries video_id w :
  wp (descargar_video_task env settings retries video_id)
     (fun r _ => retry_post 3 60 retries r) w.
Proof.
  unfold descargar_video_task. apply wp_try_except.
  eapply wp_mono with (Q := fun r _ => no_retry r); [|task_handlers].
  task_body download_no_retry.
Qed.

Lemma extraer_retry retries video_id path w :
  wp (extraer_audio_task env settings retries video_id path)
     (fun r _ => retry_post 3 60 retries r) w.
Proof.
  unfold extraer_audio_task. apply wp_try_except.
  eapply wp_mono with (Q := fun r _ => no_retry r); [|task_handlers].
  task_body extract_no_retry.
Qed.

Lemma miniatura_retry retries video_id path w :
  wp (generar_miniatura_task env settings retries video_id path)
     (fun r _ => retry_post 3 30 retries r) w.
Proof.
  unfold generar_miniatura_task. apply wp_try_except.
  eapply wp_mono with (Q := fun r _ => no_retry r); [|task_handlers].
  task_body generate_no_retry.
Qed.

Lemma transcribir_retry retries video_id path w :
  wp (transcribir_audio_task env settings retries video_id path)
     (fun r _ => retry_post 2 120 retries r) w.
Proof.
  unfold transcribir_audio_task. apply wp_try_except.
  eapply wp_mono with (Q := fun r _ => no_retry r); [|task_handlers].
  task_body transcribe_no_retry.
Qed.

Lemma analizar_retry retries video_id w :
  wp (analizar_video_task env settings retries video_id)
     (fun r _ => retry_post 2 180 retries r) w.
Proof.
  unfold analizar_video_task. apply wp_try_except.
  eapply wp_mono with (Q := fun r _ => no_retry r); [|task_handlers].
  task_body analyze_no_retry.
  eapply wp_mono; [apply create_segmentos_no_retry|].
  intros [?|?] ? Hcreate; [wp_steps; exact I | exact Hcreate].
Qed.

Lemma segmentar_retry retries video_id path w :
  wp (segmentar_video_task env settings retries video_id path)
     (fun r _ => retry_post 2 120 retries r) w.
Proof.
  unfold segmentar_video_task. apply wp_try_except.
  eapply wp_mono with (Q := fun r _ => no_retry r); [|task_handlers].
  task_body segment_video_no_retry.
Qed.

(** An attempt of a stage raises [Retry] only below the stage's
    [max_retries], and with the stage's countdown. *)
Lemma stage_attempt_retry s video_id path retries w :
  wp (stage_attempt env settings s video_id path retries)
     (fun r _ => retry_post (max_retries s) (base_delay s) retries r) w.
Proof.
  destruct s; simpl; apply wp_bind.
  - eapply wp_mono; [apply descargar_retry|].
    intros [a|e] w' H; [now wp_steps | exact H].
  - eapply wp_mono; [apply extraer_retry|].
    intros [a|e] w' H; [now wp_steps | exact H].
  - eapply wp_mono; [apply miniatura_retry|].
    intros [a|e] w' H; [now wp_steps | exact H].
  - eapply wp_mono; [apply transcribir_retry|].
    intros [a|e] w' H; [now wp_steps | exact H].
  - eapply wp_mono; [apply analizar_retry|].
    intros [a|e] w' H; [now wp_steps | exact H].
  - eapply wp_mono; [apply segmentar_retry|].
    intros [a|e] w' H; [now wp_steps | exact H].
Qed.

(** The worker runs a task to its end whenever the fuel covers the
    retries that are left. *)
Lemma worker_ends {A} (attempt : nat -> M A) max base :
  (forall retries w,
      wp (attempt retries) (fun r _ => retry_post max base retries r) w) ->
  forall fuel retries w,
    (max <= retries + fuel)%nat ->
    exists run,
      worker attempt fuel retries w = Some run
      /\ no_retry (run_result run)
      /\ (length (run_countdowns run) <= max - retries)%nat
      /\ run_countdowns run
         = (fun i => base * (Z.of_nat (retries + i) + 1))
             <$> seq 0 (length (run_countdowns run)).
Proof.
  intros Hattempt. induction fuel as [|fuel IH]; intros retries w Hfuel.
  - simpl. destruct (attempt retries w) as [r w'] eqn:E.
    pose proof (wp_run _ _ _ _ _ (Hattempt retries w) E) as Hpost.
    destruct r as [a|e]; [|destruct e]; simpl in Hpost;
      try solve [eexists; split; [reflexivity|]; simpl; repeat split;
                 first [exact I | lia]].
    destruct Hpost; lia.
  - simpl. destruct (attempt retries w) as [r w'] eqn:E.
    pose proof (wp_run _ _ _ _ _ (Hattempt retries w) E) as Hpost.
    destruct r as [a|e]; [|destruct e]; simpl in Hpost;
      try solve [eexists; split; [reflexivity|]; simpl; repeat split;
                 first [exact I | lia]].
    destruct Hpost as [Hlt ->].
    destruct (IH (S retries) w') as (run & -> & Hres & Hlen & Hcds); [lia|].
    eexists; split; [reflexivity|]. simpl. repeat split.
    + exact Hres.
    + lia.
    + rewrite Nat.add_0_r. f_equal.
      rewrite Hcds at 1. rewrite <- fmap_S_seq, <- list_fmap_compose.
      apply list_fmap_ext. intros; simpl. f_equal. lia.
Qed.

End Tasks.

(** A download that fails on every attempt. *)
Definition quiet_env : Env :=
  mkEnv (fun _ _ => true) (fun _ _ => 0) (fun _ _ => None)
        (fun _ _ => FfDone true) (fun _ _ => None)
        (fun _ _ => inr (OE_download "HTTP Error 503"))
        (fun _ _ => inr (OE_other "Connection error"))
        (fun _ _ => inr (OE_other "model not found"))
        (fun _ _ => inr (OE_other "Connection error"))
        (fun _ _ => inr (OE_other "Connection error"))
        (fun _ _ _ => inl "task-1").

Definition some_settings : Settings :=
  mkSettings "/media" "/tmp/videos" "sk-test" "api" "base" "whisper-1"
             "gpt-4o-mini" 3 10.

Definition one_video : World :=
  set_videos
    (fun m => <[1 := mkVideo 1 "Clase 1" (Some "https://example.org/v/1")
                              None E_pendiente None]> m)
    empty_world.

Lemma run_stage_ends env settings s video_id path w :
  exists run,
    run_stage env settings s video_id path w = Some run
    /\ no_retry (run_result run)
    /\ (length (run_countdowns run) <= max_retries s)%nat
    /\ run_countdowns run
       = (fun i => base_delay s * (Z.of_nat i + 1))
           <$> seq 0 (length (run_countdowns run)).
Proof.
  destruct (worker_ends (stage_attempt env settings s video_id path)
                        (max_retries s) (base_delay s)
                        (stage_attempt_retry env settings s video_id path)
                        (max_retries s) 0%nat w) as (run & E & H1 & H2 & H3);
    [lia|].
  exists run. rewrite Nat.sub_0_r in H2. auto.
Qed.

(** C1, as stated, fails: a download whose every attempt ends in a
    download error is executed four times, not three. *)
Lemma download_is_attempted_four_times :
  ~ (forall env settings s video_id path w run,
        run_stage env settings s video_id path w = Some run ->
        (attempts run <= 3)%nat).
Proof.
  intros H.
  destruct (run_stage quiet_env some_settings Download 1 "" one_video)
    as [run|] eqn:E; [|vm_compute in E; discriminate].
  specialize (H _ _ _ _ _ _ _ E).
  vm_compute in E. injection E as <-. vm_compute in H. lia.
Qed.

(** C1, amended: the task of every stage runs to an end; the download,
    audio extraction and thumbnail tasks ([max_retries=3]) are
    executed at most four times, the transcription, analysis and
    segmentation tasks ([max_retries=2]) at most three times; and the
    run ends with a value or an exception of the task, never with a
    further retry scheduled. *)
Theorem attempts_bounded_by_max_retries :
  forall env settings s video_id path w,
  exists run,
    run_stage env settings s video_id path w = Some run
    /\ (attempts run
        <= match s with
           | Download | AudioExtraction | Thumbnail => 4
           | TranscriptionStage | AnalysisStage | SegmentationStage => 3
           end)%nat
    /\ match run_result run with
       | Exc (Retry _ _) => False
       | _ => True
       end.
Proof.
  intros env settings s video_id path w.
  destruct (run_stage_ends env settings s video_id path w)
    as (run & E & Hres & Hlen & _).
  exists run. split; [exact E|]. split; [|exact Hres].
  unfold attempts. destruct s; simpl in Hlen; lia.
Qed.

(** C4: the countdown scheduled by the attempt number [N] (counted
    from 1) of a stage is the base delay of the stage times [N]; the
    base delays are 60, 60, 30, 120, 180 and 120 seconds. *)
Theorem countdown_is_base_delay_times_attempt :
  (forall env settings s video_id path w,
    exists run,
      run_stage env settings s video_id path w = Some run
      /\ run_countdowns run
         = (fun i => base_delay s * (Z.of_nat i + 1))
             <$> seq 0 (length (run_countdowns run)))
  /\ base_delay <$> [Download; AudioExtraction; Thumbnail;
                     TranscriptionStage; AnalysisStage; SegmentationStage]
     = [60; 60; 30; 120; 180; 120].
Proof.
  split; [|reflexivity].
  intros env settings s video_id path w.
  destruct (run_stage_ends env settings s video_id path w)
    as (run & E & _ & _ & Hcds).
  exists run. auto.
Qed.

(** The three retries of a failing download wait 60, 120 and 180
    seconds. *)
Example failing_download_countdowns :
  run_countdowns <$> run_stage quiet_env some_settings Download 1 "" one_video
  = Some [60; 120; 180].
Proof. vm_compute. reflexivity. Qed.

(** A transcription that fails on every attempt is executed three
    times, with waits of 120 and 240 seconds. *)
Example failing_transcription_countdowns :
  run_countdowns
    <$> run_stage quiet_env some_settings TranscriptionStage 1 "/a.mp3" one_video
  = Some [120; 240].
Proof. vm_compute. reflexivity. Qed.

End RetryFacts.

(** * The state field and the tasks *)

Module EstadoFacts.

Import Celery Tasks.

(** The stored state of every video is the same in [w'] as in [w]. *)
Definition same_estados (w w' : World) : Prop :=
  forall id, v_estado <$> (videos w' !! id) = v_estado <$> (videos w !! id).

Ltac frame_leaf :=
  simpl in *; try tauto; try congruence.

Section Thumbnail.

Context (env : Env) (settings : Settings).

(** [generate] writes the video row once, on success, and with the
    state that the instance was read with. *)
Lemma generate_frame video path w0 w :
  videos w = videos w0 ->
  v_estado <$> (videos w0 !! v_id video) = Some (v_estado video) ->
  wp (Services.generate env settings video path)
     (fun r w' =>
        match r with
        | Val _ => same_estados w0 w'
        | Exc _ => videos w' = videos w0
        end) w.
Proof.
  intros Hw Hv. unfold Services.generate.
  wp_steps; frame_leaf.
  all: intros id; simpl; rewrite Hw; destruct (decide (id = v_id video)) as [->|Hne].
  all: try (rewrite lookup_insert_eq, Hv; reflexivity).
  all: rewrite lookup_insert_ne by congruence; reflexivity.
Qed.

Lemma miniatura_frame retries video_id path w :
  wp (generar_miniatura_task env settings retries video_id path)
     (fun r w' =>
        same_estados w w'
        /\ match r with
           | Val _ => True
           | Exc _ => videos w' = videos w
           end) w.
Proof.
  unfold generar_miniatura_task. apply wp_try_except.
  eapply wp_mono
    with (Q := fun r w' =>
                 match r with
                 | Val _ => same_estados w w'
                 | Exc _ => videos w' = videos w
                 end).
  - wp_steps; frame_leaf.
    eapply wp_mono.
    + apply generate_frame with (w0 := w); simpl; [reflexivity|].
      rewrite Heqo. reflexivity.
    + intros [a|e] w' H; [wp_steps; simpl; auto | exact H].
  - intros [a|e] w' H; [split; [exact H | exact I]|].
    destruct e; wp_steps; simpl;
      (split; [intros id; simpl; now rewrite H | exact H]).
Qed.

End Thumbnail.

(** No task or service deletes a video. *)
Definition present (id : Z) (w : World) : Prop := is_Some (videos w !! id).

Ltac present_leaf :=
  unfold present in *; simpl in *;
  first [ assumption
        | apply lookup_insert_is_Some'; right; assumption ].

Section Present.

Context (env : Env) (settings : Settings) (video : Video) (id : Z).

Lemma download_present :
  preserves (present id) (Services.download env video).
Proof.
  unfold Services.download, Services._update_video_info.
  inv_steps; present_leaf.
Qed.

Lemma extract_present path :
  preserves (present id) (Services.extract env settings video path).
Proof. unfold Services.extract. inv_steps; present_leaf. Qed.

Lemma transcribe_present mode path :
  preserves (present id)
            (Transcription.transcribe env settings video mode path).
Proof.
  unfold Transcription.transcribe, Transcription._transcribe_with_api,
    Transcription._transcribe_with_local, Transcription._save_transcription.
  inv_steps; present_leaf.
Qed.

Lemma validate_loop_present segs : forall acc,
  preserves (present id) (Analysis.validate_loop video segs acc).
Proof.
  induction segs as [|seg rest IH]; intros acc; simpl.
  - inv_steps.
  - destruct (Analysis.validate_one video seg); inv_steps;
      first [ apply IH | present_leaf ].
Qed.

Lemma analyze_present :
  preserves (present id) (Analysis.analyze env settings video).
Proof.
  unfold Analysis.analyze, Analysis._get_transcription,
    Analysis._generate_executive_summary,
    Analysis._identify_important_segments, Analysis._validate_segments,
    Analysis._save_analysis.
  inv_steps; first [ apply validate_loop_present | present_leaf ].
Qed.

Lemma create_segmentos_present segs : forall i,
  preserves (present id) (create_segmentos video i segs).
Proof.
  induction segs as [|seg rest IH]; intros i; simpl.
  - inv_steps.
  - inv_steps; first [ apply IH | present_leaf ].
Qed.

Lemma process_all_present path rows : forall acc,
  preserves (present id)
            (Segmentation.process_all env settings video path acc rows).
Proof.
  induction rows as [|seg rest IH]; intros acc; simpl.
  - inv_steps.
  - apply preserves_bind; [|intro; apply IH].
    unfold Segmentation.process_segment, Segmentation._cut_segment,
      Segmentation._generate_segment_thumbnail,
      Segmentation._update_segment_files.
    inv_steps; present_leaf.
Qed.

Lemma segment_video_present path :
  preserves (present id)
            (Segmentation.segment_video env settings video path).
Proof.
  unfold Segmentation.segment_video.
  inv_steps; first [ apply process_all_present | present_leaf ].
Qed.

End Present.

(** What the five tasks other than the thumbnail task leave behind
    when they fail. *)
Definition error_post (video_id : Z) {A} (r : Res A) (w' : World) : Prop :=
  match r with
  | Val _ => True
  | Exc e =>
      e <> DoesNotExist ->
      v_estado <$> (videos w' !! video_id) = Some E_error
  end.

(** What the body of such a task guarantees to its handlers. *)
Definition body_post (video_id : Z) {A} (r : Res A) (w' : World) : Prop :=
  match r with
  | Val _ => True
  | Exc e => e = DoesNotExist \/ present video_id w'
  end.

Lemma mark_error_sets video_id w :
  present video_id w ->
  wp (mark_error video_id)
     (fun r w' =>
        r = Val tt /\ v_estado <$> (videos w' !! video_id) = Some E_error) w.
Proof.
  intros [v Hv]. unfold mark_error. wp_steps; try congruence.
  simpl. split; [reflexivity|]. now rewrite lookup_insert_eq.
Qed.

(** After [video_get] and [video_save], the rest of a task body keeps
    the video. *)
Lemma body_rest {A} video_id (m : M A) w :
  preserves (present video_id) m ->
  present video_id w ->
  wp m (fun r w' => body_post video_id r w') w.
Proof.
  intros Hm Hw. eapply wp_mono; [apply preserves_wp; eassumption|].
  intros [a|e] w' H; simpl; auto.
Qed.

Ltac error_handlers :=
  let H := fresh "Hbody" in
  intros [?|e] ? H; [exact I|];
  destruct H as [->|H];
  [ wp_steps; intros Hne; congruence
  | destruct e; wp_steps; unfold present in *; simpl in *;
    first [ intros _; now rewrite lookup_insert_eq
          | destruct H as [? H]; congruence
          | intros; congruence ] ].

(** The common opening of the five task bodies. *)
Lemma body_prefix {A} video_id msg estado (k : Video -> M A) w :
  (forall v, preserves (present video_id) (k v)) ->
  wp (logger_info msg ;;;
      video <- video_get video_id ;;
      video_save (with_estado estado video) ;;;
      k video)
     (body_post video_id) w.
Proof.
  intros Hk. apply wp_bind. unfold logger_info. apply wp_modify.
  apply wp_bind. apply wp_video_get. simpl.
  destruct (videos w !! video_id) as [v|] eqn:E; [|left; reflexivity].
  apply wp_bind. unfold video_save. apply wp_modify.
  apply body_rest; [apply Hk|].
  unfold present. simpl. rewrite lookup_insert_eq. eauto.
Qed.

Ltac error_body := cbv zeta; apply body_prefix; intro.

Section Failing.

Context (env : Env) (settings : Settings).

Lemma descargar_marks_error retries video_id w :
  wp (descargar_video_task env settings retries video_id)
     (error_post video_id) w.
Proof.
  unfold descargar_video_task. apply wp_try_except.
  eapply wp_mono with (Q := body_post video_id); [|error_handlers].
  error_body.
  inv_steps; first [ apply download_present | present_leaf ].
Qed.

Lemma extraer_marks_error retries video_id path w :
  wp (extraer_audio_task env settings retries video_id path)
     (error_post video_id) w.
Proof.
  unfold extraer_audio_task. apply wp_try_except.
  eapply wp_mono with (Q := body_post video_id); [|error_handlers].
  error_body.
  inv_steps; first [ apply extract_present | present_leaf ].
Qed.

Lemma transcribir_marks_error retries video_id path w :
  wp (transcribir_audio_task env settings retries video_id path)
     (error_post video_id) w.
Proof.
  unfold transcribir_audio_task. apply wp_try_except.
  eapply wp_mono with (Q := body_post video_id); [|error_handlers].
  error_body.
  inv_steps; first [ apply transcribe_present | present_leaf ].
Qed.

Lemma analizar_marks_error retries video_id w :
  wp (analizar_video_task env settings retries video_id)
     (error_post video_id) w.
Proof.
  unfold analizar_video_task. apply wp_try_except.
  eapply wp_mono with (Q := body_post video_id); [|error_handlers].
  error_body.
  inv_steps;
    first [ apply analyze_present | apply create_segmentos_present
          | present_leaf ].
Qed.

Lemma segmentar_marks_error retries video_id path w :
  wp (segmentar_video_task env settings retries video_id path)
     (error_post video_id) w.
Proof.
  unfold segmentar_video_task. apply wp_try_except.
  eapply wp_mono with (Q := body_post video_id); [|error_handlers].
  error_body.
  inv_steps; first [ apply segment_video_present | present_leaf ].
Qed.

End Failing.

(** C10: whatever the thumbnail task does, the stored state of every
    video is what it was, and when the task fails the video table is
    untouched; each of the other five tasks, when it fails on a stored
    video, leaves that video in the state [error]. *)
Theorem thumbnail_failure_keeps_estado :
  forall env settings retries video_id path w,
    (let (r, w') :=
       generar_miniatura_task env settings retries video_id path w in
     same_estados w w'
     /\ match r with
        | Val _ => True
        | Exc _ => videos w' = videos w
        end)
    /\ error_post video_id
         (fst (descargar_video_task env settings retries video_id w))
         (snd (descargar_video_task env settings retries video_id w))
    /\ error_post video_id
         (fst (extraer_audio_task env settings retries video_id path w))
         (snd (extraer_audio_task env settings retries video_id path w))
    /\ error_post video_id
         (fst (transcribir_audio_task env settings retries video_id path w))
         (snd (transcribir_audio_task env settings retries video_id path w))
    /\ error_post video_id
         (fst (analizar_video_task env settings retries video_id w))
         (snd (analizar_video_task env settings retries video_id w))
    /\ error_post video_id
         (fst (segmentar_video_task env settings retries video_id path w))
         (snd (segmentar_video_task env settings retries video_id path w)).
Proof.
  intros env settings retries video_id path w. split.
  - pose proof (miniatura_frame env settings retries video_id path w) as H.
    unfold wp in H.
    now destruct (generar_miniatura_task env settings retries video_id path w).
  - repeat split.
    + apply descargar_marks_error.
    + apply extraer_marks_error.
    + apply transcribir_marks_error.
    + apply analizar_marks_error.
    + apply segmentar_marks_error.
Qed.

End EstadoFacts.

(** * The size ceiling of the transcriber *)

Module TranscriptionFacts.

Import Transcription.

(** [file_size_mb > 25] is [st_size > 25 * 1024 * 1024]. *)
Lemma over_25MB st_size :
  Py.Qltb 25 (file_size_mb st_size) = true <-> 25 * MB < st_size.
Proof.
  unfold Py.Qltb, file_size_mb. rewrite negb_true_iff.
  rewrite <- not_true_iff_false, Qle_bool_iff.
  unfold Qle, Qdiv, Qmult, Qinv, inject_Z, MB. simpl. lia.
Qed.

Lemma not_over_25MB st_size :
  Py.Qltb 25 (file_size_mb st_size) = false <-> st_size <= 25 * MB.
Proof.
  rewrite <- not_true_iff_false, over_25MB. lia.
Qed.

Section Service.

Context (env : Env) (settings : Settings) (video : Video).

(** In API mode a file over the ceiling is refused before the remote
    API is reached. *)
Lemma api_refuses audio_path w :
  (forall t, 25 * MB < stat_size env t audio_path) ->
  wp (transcribe env settings video "api" audio_path)
     (fun r w' =>
        (exists msg, r = Exc (TranscriptionError msg)) /\ calls w' = calls w) w.
Proof.
  intros Hbig.
  assert (Hif : forall t,
             bool_decide ("api" = "api")
             && Py.Qltb 25 (file_size_mb (stat_size env t audio_path)) = true).
  { intros t. rewrite (proj2 (over_25MB _) (Hbig t)). reflexivity. }
  unfold transcribe.
  repeat (first [ rewrite Hif | wp_step ]); simpl; eauto.
Qed.

(** In local mode the size is read and not looked at: an existing file
    that the local model transcribes is accepted. *)
Lemma local_accepts audio_path w result :
  path_exists env (tick w) audio_path = true ->
  whisper_local env (S (S (tick w))) audio_path = inl result ->
  wp (transcribe env settings video "local" audio_path)
     (fun r w' =>
        r = Val (_process_transcription "local" result)
        /\ C_whisper_local audio_path ∈ calls w') w.
Proof.
  intros Hexists Hlocal.
  unfold transcribe, _transcribe_with_local, _save_transcription.
  repeat (first [ progress simpl | rewrite Hexists | rewrite Hlocal | wp_step ]);
    try discriminate; try congruence;
    simpl; (split; [reflexivity | set_solver]).
Qed.

End Service.

(** C7: for an audio file larger than 25MB, the transcriber in API mode
    fails with [TranscriptionError] and makes no outside call, while in
    local mode the same file, when it exists and the local model
    transcribes it, is accepted. *)
Theorem api_refuses_over_25MB_local_has_no_ceiling :
  forall env settings video audio_path w,
    (forall t, 25 * (1024 * 1024) < stat_size env t audio_path) ->
    (let (r, w') := transcribe env settings video "api" audio_path w in
     (exists msg, r = Exc (TranscriptionError msg)) /\ calls w' = calls w)
    /\ (forall result,
          path_exists env (tick w) audio_path = true ->
          whisper_local env (S (S (tick w))) audio_path = inl result ->
          fst (transcribe env settings video "local" audio_path w)
          = Val (_process_transcription "local" result)).
Proof.
  intros env settings video audio_path w Hbig. split.
  - pose proof (api_refuses env settings video audio_path w Hbig) as H.
    unfold wp in H.
    now destruct (transcribe env settings video "api" audio_path w).
  - intros result Hexists Hlocal.
    pose proof (local_accepts env settings video audio_path w result
                              Hexists Hlocal) as H.
    unfold wp in H. apply H.
Qed.

(** A 30MB recording that the local model transcribes. *)
Definition large_audio_env : Env :=
  mkEnv (fun _ _ => true) (fun _ _ => 30 * (1024 * 1024)) (fun _ _ => None)
        (fun _ _ => FfDone true) (fun _ _ => None)
        (fun _ _ => inr (OE_download "unused"))
        (fun _ _ => inl (mkWhisper "hola" "es" []))
        (fun _ _ => inl (mkWhisper " hola a todos " "es" []))
        (fun _ _ => inr (OE_other "unused"))
        (fun _ _ => inr (OE_other "unused"))
        (fun _ _ _ => inl "task-1").

Definition stored_video : Video :=
  mkVideo 1 "Clase 1" (Some "https://example.org/v/1") None E_transcribiendo
          None.

Lemma api_refuses_over_25MB_witness :
  (let (r, w') :=
     transcribe large_audio_env RetryFacts.some_settings stored_video "api"
                "/media/audio/audio_1.mp3" RetryFacts.one_video in
   (exists msg, r = Exc (TranscriptionError msg))
   /\ calls w' = calls RetryFacts.one_video)
  /\ (forall result,
        path_exists large_audio_env (tick RetryFacts.one_video)
                    "/media/audio/audio_1.mp3" = true ->
        whisper_local large_audio_env (S (S (tick RetryFacts.one_video)))
                      "/media/audio/audio_1.mp3" = inl result ->
        fst (transcribe large_audio_env RetryFacts.some_settings stored_video
                        "local" "/media/audio/audio_1.mp3" RetryFacts.one_video)
        = Val (_process_transcription "local" result)).
Proof.
  apply (api_refuses_over_25MB_local_has_no_ceiling
           large_audio_env RetryFacts.some_settings stored_video
           "/media/audio/audio_1.mp3" RetryFacts.one_video).
  intros t. vm_compute. reflexivity.
Defined.

(** The ceiling is strict: a file of exactly 25MB goes to the remote
    API. *)
Lemma api_accepts_up_to_25MB env settings video audio_path w :
  path_exists env (tick w) audio_path = true ->
  stat_size env (S (tick w)) audio_path <= 25 * MB ->
  C_whisper_api audio_path
    ∈ calls (snd (transcribe env settings video "api" audio_path w)).
Proof.
  intros Hexists Hsize. apply not_over_25MB in Hsize.
  change (wp (transcribe env settings video "api" audio_path)
             (fun _ w' => C_whisper_api audio_path ∈ calls w') w).
  unfold transcribe, _transcribe_with_api, _save_transcription.
  repeat (first [ progress simpl | rewrite Hexists | rewrite Hsize | wp_step ]);
    try discriminate; simpl; set_solver.
Qed.

End TranscriptionFacts.

(** * One transcript and one summary per video *)

Module UpsertFacts.

(** Rows of a table with a one-to-one key to [Video]. *)
Section Keyed.

Context {R : Type} (key : R -> Z).

Definition rows_of (video_id : Z) (rows : list R) : list R :=
  filter (fun r => key r = video_id) rows.

(** At most one row per video. *)
Definition one_per_video (rows : list R) : Prop := NoDup (key <$> rows).

Definition replace_row (row : R) (rows : list R) : list R :=
  (fun r => if decide (key r = key row) then row else r) <$> rows.

Lemma rows_of_none video_id rows :
  (forall r, r ∈ rows -> key r <> video_id) -> rows_of video_id rows = [].
Proof.
  unfold rows_of. induction rows as [|r rows IH]; intros H; [reflexivity|].
  rewrite filter_cons_False by (apply H; left).
  apply IH. intros r' Hin. apply H. now right.
Qed.

Lemma one_per_video_count rows video_id :
  one_per_video rows -> (length (rows_of video_id rows) <= 1)%nat.
Proof.
  unfold one_per_video. induction rows as [|r rows IH].
  - intros _. simpl. lia.
  - rewrite fmap_cons, NoDup_cons. intros [Hnotin Hnd].
    unfold rows_of. rewrite filter_cons.
    destruct (decide (key r = video_id)) as [Hk|Hk]; [|now apply IH].
    fold (rows_of video_id rows). rewrite rows_of_none; [simpl; lia|].
    intros r' Hin Hk'. apply Hnotin. rewrite Hk, <- Hk'.
    now apply list_elem_of_fmap_2.
Qed.

Lemma keys_replace_row row rows : key <$> replace_row row rows = key <$> rows.
Proof.
  unfold replace_row. rewrite <- list_fmap_compose.
  apply list_fmap_ext. intros i r _. simpl.
  destruct (decide (key r = key row)); congruence.
Qed.

Lemma replace_row_length row rows :
  length (replace_row row rows) = length rows.
Proof. unfold replace_row. apply length_fmap. Qed.

Lemma rows_of_replace_row row rows :
  one_per_video rows ->
  Exists (fun r => key r = key row) rows ->
  rows_of (key row) (replace_row row rows) = [row].
Proof.
  unfold one_per_video.
  induction rows as [|r rows IH]; intros Hnd Hex.
  - now apply Exists_nil in Hex.
  - rewrite fmap_cons in Hnd. apply NoDup_cons in Hnd as [Hnotin Hnd].
    unfold rows_of, replace_row. rewrite fmap_cons, filter_cons.
    fold (replace_row row rows). fold (rows_of (key row) (replace_row row rows)).
    destruct (decide (key r = key row)) as [Hk|Hk].
    + rewrite decide_True by reflexivity. f_equal.
      apply rows_of_none. intros r' Hin Hk'.
      apply Hnotin. rewrite Hk, <- Hk', <- keys_replace_row with (row := row).
      now apply list_elem_of_fmap_2.
    + rewrite decide_False by exact Hk.
      apply IH; [exact Hnd|].
      apply Exists_cons in Hex as [Hex|Hex]; [contradiction | exact Hex].
Qed.

Lemma rows_of_replace_row_other row rows video_id :
  video_id <> key row ->
  rows_of video_id (replace_row row rows) = rows_of video_id rows.
Proof.
  intros Hne. unfold rows_of, replace_row.
  induction rows as [|r rows IH]; [reflexivity|].
  rewrite fmap_cons, !filter_cons.
  destruct (decide (key r = key row)) as [Hk|Hk].
  - rewrite decide_False by congruence.
    rewrite (decide_False (P := key r = video_id)) by congruence. exact IH.
  - destruct (decide (key r = video_id)); rewrite IH; reflexivity.
Qed.

Lemma rows_of_append_new row rows :
  ~ Exists (fun r => key r = key row) rows ->
  rows_of (key row) (rows ++ [row]) = [row].
Proof.
  intros Hnone. unfold rows_of. rewrite filter_app.
  fold (rows_of (key row) rows). rewrite rows_of_none.
  - rewrite filter_cons_True by reflexivity. reflexivity.
  - intros r Hin Hk. apply Hnone, Exists_exists. eauto.
Qed.

Lemma rows_of_append_other row rows video_id :
  video_id <> key row ->
  rows_of video_id (rows ++ [row]) = rows_of video_id rows.
Proof.
  intros Hne. unfold rows_of. rewrite filter_app.
  rewrite filter_cons_False by congruence. apply app_nil_r.
Qed.

Lemma one_per_video_append row rows :
  one_per_video rows ->
  ~ Exists (fun r => key r = key row) rows ->
  one_per_video (rows ++ [row]).
Proof.
  unfold one_per_video. intros Hnd Hnone. rewrite fmap_app. simpl.
  apply NoDup_app. split; [exact Hnd|]. split.
  - intros k Hin Hk. apply list_elem_of_singleton in Hk as ->.
    apply list_elem_of_fmap in Hin as (r & Hr & Hin).
    apply Hnone, Exists_exists. eauto.
  - apply NoDup_singleton.
Qed.

Lemma one_per_video_replace row rows :
  one_per_video rows -> one_per_video (replace_row row rows).
Proof. unfold one_per_video. now rewrite keys_replace_row. Qed.

End Keyed.

Import Transcription Analysis Tasks Stages.

(** The invariant of the two one-to-one tables. *)
Definition unique_records (w : World) : Prop :=
  one_per_video t_video (transcripciones w)
  /\ one_per_video r_video (resumenes w).

Lemma has_transcripcion_false video_id w :
  has_transcripcion video_id w = false ->
  ~ Exists (fun t => t_video t = video_id) (transcripciones w).
Proof. unfold has_transcripcion. now rewrite bool_decide_eq_false. Qed.

Lemma has_transcripcion_true video_id w :
  has_transcripcion video_id w = true ->
  Exists (fun t => t_video t = video_id) (transcripciones w).
Proof. unfold has_transcripcion. now rewrite bool_decide_eq_true. Qed.

Lemma has_resumen_false video_id w :
  has_resumen video_id w = false ->
  ~ Exists (fun r => r_video r = video_id) (resumenes w).
Proof. unfold has_resumen. now rewrite bool_decide_eq_false. Qed.

Lemma has_resumen_true video_id w :
  has_resumen video_id w = true ->
  Exists (fun r => r_video r = video_id) (resumenes w).
Proof. unfold has_resumen. now rewrite bool_decide_eq_true. Qed.

Ltac unique_part :=
  simpl;
  lazymatch goal with
  | |- one_per_video ?key ((fun t => if decide (_ = _) then ?row else _) <$> ?l) =>
      exact (one_per_video_replace key row l ltac:(assumption))
  | |- one_per_video ?key (?l ++ [?row]) =>
      apply (one_per_video_append key row l); [assumption|];
      first [ apply has_transcripcion_false | apply has_resumen_false ];
      match goal with H : _ = false |- _ => exact H end
  | |- _ => assumption
  end.

Ltac unique_leaf :=
  lazymatch goal with
  | H : unique_records _ |- unique_records _ =>
      let Ht := fresh in let Hr := fresh in
      destruct H as [Ht Hr]; split; unique_part
  end.

Section Services.

Context (env : Env) (settings : Settings) (video : Video).

Lemma save_transcription_unique mode data :
  preserves unique_records (_save_transcription settings video mode data).
Proof. unfold _save_transcription. inv_steps; unique_leaf. Qed.

Lemma save_analysis_unique resumen_data :
  preserves unique_records (_save_analysis settings video resumen_data).
Proof. unfold _save_analysis. inv_steps; unique_leaf. Qed.

Lemma transcribe_unique mode path :
  preserves unique_records (transcribe env settings video mode path).
Proof.
  unfold transcribe, _transcribe_with_api, _transcribe_with_local.
  inv_steps; first [ apply save_transcription_unique | unique_leaf ].
Qed.

Lemma validate_loop_unique segs : forall acc,
  preserves unique_records (validate_loop video segs acc).
Proof.
  induction segs as [|seg rest IH]; intros acc; simpl.
  - inv_steps.
  - destruct (validate_one video seg); inv_steps;
      first [ apply IH | unique_leaf ].
Qed.

Lemma analyze_unique :
  preserves unique_records (analyze env settings video).
Proof.
  unfold analyze, _get_transcription, _generate_executive_summary,
    _identify_important_segments, _validate_segments.
  inv_steps;
    first [ apply save_analysis_unique | apply validate_loop_unique
          | unique_leaf ].
Qed.

Lemma create_segmentos_unique segs : forall i,
  preserves unique_records (create_segmentos video i segs).
Proof.
  induction segs as [|seg rest IH]; intros i; simpl.
  - inv_steps.
  - inv_steps; first [ apply IH | unique_leaf ].
Qed.

Lemma process_all_unique path rows : forall acc,
  preserves unique_records
            (Segmentation.process_all env settings video path acc rows).
Proof.
  induction rows as [|seg rest IH]; intros acc; simpl.
  - inv_steps.
  - apply preserves_bind; [|intro; apply IH].
    unfold Segmentation.process_segment, Segmentation._cut_segment,
      Segmentation._generate_segment_thumbnail,
      Segmentation._update_segment_files.
    inv_steps; unique_leaf.
Qed.

Lemma segment_video_unique path :
  preserves unique_records
            (Segmentation.segment_video env settings video path).
Proof.
  unfold Segmentation.segment_video.
  inv_steps; first [ apply process_all_unique | unique_leaf ].
Qed.

Lemma download_unique :
  preserves unique_records (Services.download env video).
Proof.
  unfold Services.download, Services._update_video_info.
  inv_steps; unique_leaf.
Qed.

Lemma extract_unique path :
  preserves unique_records (Services.extract env settings video path).
Proof. unfold Services.extract. inv_steps; unique_leaf. Qed.

Lemma generate_unique path :
  preserves unique_records (Services.generate env settings video path).
Proof. unfold Services.generate. inv_steps; unique_leaf. Qed.

End Services.

(** The rows that the two saving functions write. *)
Definition transcripcion_row (settings : Settings) (video : Video)
    (mode : string) (data : TranscriptionData) : Transcripcion :=
  mkTranscripcion
    (v_id video) (d_contenido_completo data) (d_idioma data)
    (d_precision_estimada data) (d_segmentos data)
    (if decide (mode = "local") then "whisper-" +:+ WHISPER_MODEL settings
     else if decide (mode = "api")
          then "whisper-api-" +:+ WHISPER_API_MODEL settings
          else "whisper-" +:+ mode).

Definition resumen_row (settings : Settings) (video : Video)
    (resumen_data : RawSummary) : ResumenEjecutivo :=
  mkResumen
    (v_id video) (rs_resumen_completo resumen_data)
    (bullets (rs_temas_principales resumen_data))
    (bullets (rs_conclusiones_clave resumen_data))
    (bullets (rs_puntos_importantes resumen_data))
    (Py.count_words (rs_resumen_completo resumen_data))
    (GPT_MODEL settings).

(** Create if absent, else update in place. *)
Definition upserted {R} (key : R -> Z) (row : R) (before after : list R)
  : Prop :=
  (Exists (fun r => key r = key row) before ->
   after = replace_row key row before)
  /\ (~ Exists (fun r => key r = key row) before -> after = before ++ [row]).

Lemma upserted_one {R} (key : R -> Z) row before after :
  one_per_video key before ->
  upserted key row before after ->
  rows_of key (key row) after = [row] /\ one_per_video key after.
Proof.
  intros Hone [Hupd Hnew].
  destruct (decide (Exists (fun r => key r = key row) before)) as [Hex|Hex].
  - rewrite (Hupd Hex). split.
    + now apply rows_of_replace_row.
    + now apply one_per_video_replace.
  - rewrite (Hnew Hex). split.
    + now apply rows_of_append_new.
    + now apply one_per_video_append.
Qed.

Lemma save_transcription_upserts settings video mode data w :
  wp (_save_transcription settings video mode data)
     (fun r w' =>
        r = Val tt
        /\ upserted t_video (transcripcion_row settings video mode data)
                    (transcripciones w) (transcripciones w')
        /\ resumenes w' = resumenes w) w.
Proof.
  unfold _save_transcription. wp_steps; simpl.
  - split; [reflexivity|]. split; [|reflexivity]. split; [reflexivity|].
    intros Hnone. exfalso. apply Hnone. now apply has_transcripcion_true.
  - split; [reflexivity|]. split; [|reflexivity]. split; [|reflexivity].
    intros Hex. exfalso. revert Hex. now apply has_transcripcion_false.
  - simpl in *. congruence.
Qed.

Lemma save_analysis_upserts settings video resumen_data w :
  wp (_save_analysis settings video resumen_data)
     (fun r w' =>
        r = Val tt
        /\ upserted r_video (resumen_row settings video resumen_data)
                    (resumenes w) (resumenes w')
        /\ transcripciones w' = transcripciones w) w.
Proof.
  unfold _save_analysis. wp_steps; simpl.
  - split; [reflexivity|]. split; [|reflexivity]. split; [reflexivity|].
    intros Hnone. exfalso. apply Hnone. now apply has_resumen_true.
  - split; [reflexivity|]. split; [|reflexivity]. split; [|reflexivity].
    intros Hex. exfalso. revert Hex. now apply has_resumen_false.
  - simpl in *. congruence.
Qed.

(** Running [m] and then [k], when [m] keeps an invariant that is all
    [k] needs. *)
Lemma wp_bind_inv {A B} (I : World -> Prop) (m : M A) (k : A -> M B) Q w :
  preserves I m ->
  I w ->
  (forall a w', I w' -> wp (k a) Q w') ->
  (forall e w', I w' -> Q (Exc e) w') ->
  wp (bind m k) Q w.
Proof.
  intros Hm Hw Hk He. apply wp_bind.
  eapply wp_mono; [apply preserves_wp; eassumption|].
  intros [a|e] w' H; auto.
Qed.

(** What a successful run of a service leaves in a one-to-one table. *)
Definition one_row_post {R A} (key : R -> Z) (table : World -> list R)
    (video_id : Z) (r : Res A) (w' : World) : Prop :=
  match r with
  | Val _ => length (rows_of key video_id (table w')) = 1%nat
  | Exc _ => True
  end.

Ltac through_prefix :=
  apply (wp_bind_inv unique_records);
  [ inv_steps; unique_leaf
  | assumption
  | intros ? ? ?
  | intros; exact I ].

Lemma transcribe_one_record env settings video mode path w :
  unique_records w ->
  wp (transcribe env settings video mode path)
     (one_row_post t_video transcripciones (v_id video)) w.
Proof.
  intros Hw. unfold transcribe. apply wp_try_except.
  eapply wp_mono with (Q := one_row_post t_video transcripciones (v_id video)).
  2:{ intros [a|e] w' H; [exact H|]. wp_steps; exact I. }
  do 6 through_prefix.
  apply (wp_bind_inv unique_records);
    [ unfold _transcribe_with_api, _transcribe_with_local;
      inv_steps; unique_leaf
    | assumption | intros ? ? ? | intros; exact I ].
  cbv zeta. apply wp_bind.
  eapply wp_mono; [apply save_transcription_upserts|].
  intros r w1 (-> & Hups & _).
  match goal with H : unique_records _ |- _ => destruct H as [Ht _] end.
  destruct (upserted_one _ _ _ _ Ht Hups) as [Hrows _].
  wp_steps; simpl; simpl in Hrows; now rewrite Hrows.
Qed.

Lemma analyze_one_record env settings video w :
  unique_records w ->
  wp (analyze env settings video)
     (one_row_post r_video resumenes (v_id video)) w.
Proof.
  intros Hw. unfold analyze. apply wp_try_except.
  eapply wp_mono with (Q := one_row_post r_video resumenes (v_id video)).
  2:{ intros [a|e] w' H; [exact H|]. wp_steps; exact I. }
  apply (wp_bind_inv unique_records);
    [ inv_steps; unique_leaf | assumption | intros ? ? ? | intros; exact I ].
  apply (wp_bind_inv unique_records);
    [ unfold _get_transcription; inv_steps; unique_leaf
    | assumption | intros ? ? ? | intros; exact I ].
  do 2 through_prefix.
  apply (wp_bind_inv unique_records);
    [ unfold _generate_executive_summary; inv_steps; unique_leaf
    | assumption | intros ? ? ? | intros; exact I ].
  apply (wp_bind_inv unique_records);
    [ unfold _identify_important_segments, _validate_segments; inv_steps;
      first [ apply validate_loop_unique | unique_leaf ]
    | assumption | intros ? ? ? | intros; exact I ].
  apply wp_bind.
  eapply wp_mono; [apply save_analysis_upserts|].
  intros r w1 (-> & Hups & _).
  match goal with H : unique_records _ |- _ => destruct H as [_ Hr] end.
  destruct (upserted_one _ _ _ _ Hr Hups) as [Hrows _].
  wp_steps; simpl; simpl in Hrows; now rewrite Hrows.
Qed.

(** Every attempt of every stage task keeps the invariant. *)
Lemma stage_attempt_unique env settings s video_id path retries :
  preserves unique_records (stage_attempt env settings s video_id path retries).
Proof.
  destruct s; simpl;
    unfold descargar_video_task, extraer_audio_task, generar_miniatura_task,
      transcribir_audio_task, analizar_video_task, segmentar_video_task;
    inv_steps;
    first [ apply download_unique | apply extract_unique
          | apply generate_unique | apply transcribe_unique
          | apply analyze_unique | apply create_segmentos_unique
          | apply segment_video_unique | unique_leaf ].
Qed.

(** C8: in a database with at most one transcript and one summary per
    video, every attempt of every stage task leaves at most one of each;
    a successful transcription (analysis) leaves exactly one transcript
    (summary) for its video; and saving creates the row when the video
    has none and otherwise replaces the existing row in place. *)
Theorem one_transcript_and_one_summary_per_video :
  forall env settings video w,
    unique_records w ->
    (forall s video_id path retries,
        unique_records
          (snd (stage_attempt env settings s video_id path retries w)))
    /\ (forall mode path,
          one_row_post t_video transcripciones (v_id video)
            (fst (transcribe env settings video mode path w))
            (snd (transcribe env settings video mode path w)))
    /\ one_row_post r_video resumenes (v_id video)
         (fst (analyze env settings video w))
         (snd (analyze env settings video w))
    /\ (forall mode data,
          upserted t_video (transcripcion_row settings video mode data)
            (transcripciones w)
            (transcripciones
               (snd (_save_transcription settings video mode data w))))
    /\ (forall resumen_data,
          upserted r_video (resumen_row settings video resumen_data)
            (resumenes w)
            (resumenes (snd (_save_analysis settings video resumen_data w)))).
Proof.
  intros env settings video w Hw. split; [|split; [|split; [|split]]].
  - intros s video_id path retries. now apply stage_attempt_unique.
  - intros mode path. now apply transcribe_one_record.
  - now apply analyze_one_record.
  - intros mode data. apply (save_transcription_upserts settings video mode data w).
  - intros resumen_data.
    apply (save_analysis_upserts settings video resumen_data w).
Qed.

(** A database in which video 1 already has a transcript and a summary. *)
Definition transcribed_world : World :=
  set_resumenes
    (fun _ => [mkResumen 1 "Resumen" "" "" "" 1 "gpt-4o-mini"])
    (set_transcripciones
       (fun _ => [mkTranscripcion 1 "hola a todos" "es" 95 [] "whisper-base"])
       RetryFacts.one_video).

Lemma one_transcript_and_one_summary_witness :
  unique_records transcribed_world
  /\ forall mode data,
      upserted t_video
        (transcripcion_row RetryFacts.some_settings
                           TranscriptionFacts.stored_video mode data)
        (transcripciones transcribed_world)
        (transcripciones
           (snd (_save_transcription RetryFacts.some_settings
                                     TranscriptionFacts.stored_video mode data
                                     transcribed_world))).
Proof.
  assert (Hunique : unique_records transcribed_world).
  { split; unfold one_per_video; simpl;
      (apply NoDup_cons; split; [apply not_elem_of_nil | apply NoDup_nil_2]). }
  split; [exact Hunique|].
  apply (one_transcript_and_one_summary_per_video
           TranscriptionFacts.large_audio_env RetryFacts.some_settings
           TranscriptionFacts.stored_video transcribed_world Hunique).
Defined.

(** Saving a second transcript for video 1 leaves one row, the new one. *)
Example second_transcript_replaces_first :
  transcripciones
    (snd (_save_transcription
            RetryFacts.some_settings TranscriptionFacts.stored_video "local"
            (mkData "segunda version" "es" 90 []) transcribed_world))
  = [mkTranscripcion 1 "segunda version" "es" 90 [] "whisper-base"].
Proof. vm_compute. reflexivity. Qed.

End UpsertFacts.

(** * The maintenance sweep *)

Module CleanerFacts.

Import FileCleaner.

(** A regular file whose modification time is before the cutoff. *)
Definition stale (cutoff_time : Q) (f : Entry) : bool :=
  is_file f && Py.Qltb (e_mtime f) cutoff_time.

Definition total_size (files : list Entry) : Z :=
  foldr Z.add 0 (e_size <$> files).

(** No call of the loop raises on [f]. *)
Definition answers (cutoff_time : Q) (f : Entry) : Prop :=
  forall msg, turn cutoff_time f <> Raises msg.

Lemma turn_answers cutoff_time f :
  answers cutoff_time f ->
  turn cutoff_time f
  = if stale cutoff_time f then Deleted (e_size f) else Kept.
Proof.
  unfold answers, turn, stale. intros H.
  destruct (e_is_file_error f); [now destruct (H s)|].
  destruct (is_file f); [|reflexivity].
  destruct (e_mtime_error f); [now destruct (H s)|].
  destruct (Py.Qltb (e_mtime f) cutoff_time); [|reflexivity].
  destruct (e_size_error f); [now destruct (H s)|].
  destruct (e_unlink_error f); [now destruct (H s)|].
  reflexivity.
Qed.

(** The loop, when nothing raises. *)
Lemma sweep_finishes cutoff_time entries : forall deleted_count freed_space,
  Forall (answers cutoff_time) entries ->
  exists lines,
    sweep cutoff_time entries deleted_count freed_space
    = (Finished
         (deleted_count
          + length (filter (fun f => stale cutoff_time f = true) entries))
         (freed_space
          + total_size (filter (fun f => stale cutoff_time f = true) entries)),
       filter (fun f => stale cutoff_time f <> true) entries,
       lines)
    /\ length lines
       = length (filter (fun f => stale cutoff_time f = true) entries).
Proof.
  induction entries as [|f rest IH]; intros deleted_count freed_space Hok.
  - exists []. simpl. split; [|reflexivity].
    now rewrite Nat.add_0_r, Z.add_0_r.
  - apply Forall_cons in Hok as [Hf Hrest]. simpl.
    rewrite (turn_answers _ _ Hf).
    destruct (stale cutoff_time f) eqn:Hstale.
    + destruct (IH (S deleted_count) (freed_space + e_size f) Hrest)
        as (lines & -> & Hlen).
      rewrite (filter_cons_False (fun g => stale cutoff_time g <> true))
        by (rewrite Hstale; intros H; now apply H).
      rewrite (filter_cons_True (fun g => stale cutoff_time g = true))
        by exact Hstale.
      eexists. split.
      * unfold total_size. simpl length. rewrite fmap_cons. simpl foldr.
        replace (deleted_count + S (length (filter (fun f0 => stale cutoff_time f0 = true) rest)))%nat
          with (S deleted_count + length (filter (fun f0 => stale cutoff_time f0 = true) rest))%nat
          by lia.
        rewrite Z.add_assoc. reflexivity.
      * simpl. now rewrite Hlen.
    + destruct (IH deleted_count freed_space Hrest) as (lines & -> & Hlen).
      rewrite (filter_cons_True (fun g => stale cutoff_time g <> true))
        by (rewrite Hstale; discriminate).
      rewrite (filter_cons_False (fun g => stale cutoff_time g = true))
        by (rewrite Hstale; discriminate).
      exists lines. split; [reflexivity | exact Hlen].
Qed.

(** The loop, up to the first entry on which a call raises. *)
Lemma sweep_raises cutoff_time before f after :
  forall deleted_count freed_space msg,
  Forall (answers cutoff_time) before ->
  turn cutoff_time f = Raises msg ->
  exists lines,
    sweep cutoff_time (before ++ f :: after) deleted_count freed_space
    = (Raised msg,
       filter (fun g => stale cutoff_time g <> true) before ++ f :: after,
       lines)
    /\ length lines
       = length (filter (fun g => stale cutoff_time g = true) before).
Proof.
  induction before as [|g rest IH]; intros deleted_count freed_space msg
    Hok Hraises.
  - exists []. simpl. rewrite Hraises. split; reflexivity.
  - apply Forall_cons in Hok as [Hg Hrest]. simpl.
    rewrite (turn_answers _ _ Hg).
    destruct (stale cutoff_time g) eqn:Hsg.
    + destruct (IH (S deleted_count) (freed_space + e_size g) msg
                   Hrest Hraises) as (lines & -> & Hlen).
      rewrite (filter_cons_False (fun g => stale cutoff_time g <> true))
        by (rewrite Hsg; intros H; now apply H).
      rewrite (filter_cons_True (fun g => stale cutoff_time g = true))
        by exact Hsg.
      eexists. split; [reflexivity|]. simpl. now rewrite Hlen.
    + destruct (IH deleted_count freed_space msg Hrest Hraises)
        as (lines & -> & Hlen).
      rewrite (filter_cons_True (fun g => stale cutoff_time g <> true))
        by (rewrite Hsg; discriminate).
      rewrite (filter_cons_False (fun g => stale cutoff_time g = true))
        by (rewrite Hsg; discriminate).
      exists lines. split; [reflexivity | exact Hlen].
Qed.

(** The cutoff of a sweep at time [now]. *)
Definition cutoff (lifetime_hours now : Q) : Q :=
  (now - lifetime_hours * 3600)%Q.

(** Two stale files; the second cannot be unlinked. *)
Definition busy_dir : list Entry :=
  [mkEntry "video_1.mp4" RegularFile 1000 1048576 None None None None;
   mkEntry "video_2.mp4" RegularFile 2000 2097152 None None None
           (Some "[Errno 13] Permission denied")].

(** C9, as stated, fails: when an [unlink] raises, files already
    removed stay removed, stale files remain, and the report counts
    nothing. *)
Lemma sweep_report_after_unlink_error :
  ~ (forall lifetime_hours now entries,
        let '(r, temp_dir', _) :=
          clean_old_files lifetime_hours now (Present entries None) in
        exists stats kept,
          r = Val stats
          /\ temp_dir' = Some kept
          /\ kept = filter (fun f => stale (cutoff lifetime_hours now) f <> true)
                           entries
          /\ deleted_count stats = (length entries - length kept)%nat).
Proof.
  intros H. specialize (H 24%Q 1000000%Q busy_dir).
  vm_compute in H. destruct H as (stats & kept & Hr & Hkept & Hfilter & Hcount).
  injection Hr as <-. injection Hkept as <-. simpl in Hcount. discriminate.
Qed.

(** C9, amended.  When the directory is listed and no call of the
    loop raises ([is_file], the two [stat], [unlink]), the sweep
    removes exactly the regular files whose modification time is
    before [now - lifetime_hours * 3600], and reports their number and
    their total size in MB rounded to two decimals.  When the
    directory does not exist it removes nothing and reports zeros.
    When a call raises on an entry the sweep stops there: the stale
    files before that entry are gone, the entry and what follows stay,
    and the report is 0 files, 0 MB and the text of the error; when
    [iterdir] raises nothing is removed and the report is the same
    kind.  When the test [exists()] itself raises, so does the
    sweep. *)
Theorem sweep_deletes_stale_files_and_reports :
  forall lifetime_hours now entries,
    let cutoff_time := cutoff lifetime_hours now in
    let stale_files :=
      filter (fun f => stale cutoff_time f = true) entries in
    (Forall (answers cutoff_time) entries ->
     exists lines,
       clean_old_files lifetime_hours now (Present entries None)
       = (Val (mkStats (length stale_files)
                       (Py.round2 (inject_Z (total_size stale_files)
                                   / inject_Z (1024 * 1024)))
                       None),
          Some (filter (fun f => stale cutoff_time f <> true) entries),
          lines))
    /\ clean_old_files lifetime_hours now Missing
       = (Val (mkStats 0 0 None), None, [])
    /\ (forall before f after msg,
          entries = before ++ f :: after ->
          Forall (answers cutoff_time) before ->
          turn cutoff_time f = Raises msg ->
          exists lines,
            clean_old_files lifetime_hours now (Present entries None)
            = (Val (mkStats 0 0 (Some msg)),
               Some (filter (fun g => stale cutoff_time g <> true) before
                     ++ f :: after),
               lines))
    /\ (forall msg,
          clean_old_files lifetime_hours now (Present entries (Some msg))
          = (Val (mkStats 0 0 (Some msg)), Some entries,
             [mkLine ERROR ("Error en limpieza de archivos: " +:+ msg)]))
    /\ (forall msg,
          clean_old_files lifetime_hours now (Unreadable msg)
          = (Exc (OtherException msg), None, [])).
Proof.
  intros lifetime_hours now entries cutoff_time stale_files.
  split; [|split; [reflexivity|split; [|split; reflexivity]]].
  - intros Hok. unfold clean_old_files. fold (cutoff lifetime_hours now).
    destruct (sweep_finishes (cutoff lifetime_hours now) entries 0%nat 0 Hok)
      as (lines & -> & _).
    eexists. reflexivity.
  - intros before f after msg -> Hok Hraises.
    unfold clean_old_files. fold (cutoff lifetime_hours now).
    destruct (sweep_raises (cutoff lifetime_hours now) before f after
                           0%nat 0 msg Hok Hraises) as (lines & -> & _).
    eexists. reflexivity.
Qed.

(** An old file, a recent file, a directory and an old socket. *)
Definition mixed_dir : list Entry :=
  [mkEntry "video_1.mp4" RegularFile 1000 1572864 None None None None;
   mkEntry "video_2.mp4" RegularFile 999000 2097152 None None None None;
   mkEntry "parts" Directory 1000 4096 None None None None;
   mkEntry "worker.sock" OtherKind 1000 0 None None None None].

Lemma sweep_deletes_stale_files_witness :
  Forall (answers (cutoff 24%Q 1000000%Q)) mixed_dir
  /\ exists lines,
      clean_old_files 24%Q 1000000%Q (Present mixed_dir None)
      = (Val (mkStats 1 (Py.round2 (inject_Z 1572864 / inject_Z (1024 * 1024)))
                      None),
         Some [mkEntry "video_2.mp4" RegularFile 999000 2097152
                       None None None None;
               mkEntry "parts" Directory 1000 4096 None None None None;
               mkEntry "worker.sock" OtherKind 1000 0 None None None None],
         lines).
Proof.
  assert (Hok : Forall (answers (cutoff 24%Q 1000000%Q)) mixed_dir).
  { unfold mixed_dir. repeat constructor; intros msg; vm_compute; discriminate. }
  split; [exact Hok|].
  apply (proj1 (sweep_deletes_stale_files_and_reports
                  24%Q 1000000%Q mixed_dir) Hok).
Defined.

(** The report of the sweep over [mixed_dir]: one file, 1.5 MB. *)
Example sweep_mixed_dir_report :
  exists stats,
    fst (fst (clean_old_files 24%Q 1000000%Q (Present mixed_dir None)))
    = Val stats
    /\ deleted_count stats = 1%nat /\ Qeq (freed_space_mb stats) 1.5.
Proof. eexists. split; [vm_compute; reflexivity|]. split; reflexivity. Qed.

(** A stale file whose size cannot be read, after a stale file that is
    removed: no [unlink] raises, and yet the report is the one of an
    error. *)
Example sweep_report_after_stat_error :
  fst (clean_old_files
         24%Q 1000000%Q
         (Present
            [mkEntry "video_1.mp4" RegularFile 1000 1048576 None None None None;
             mkEntry "video_2.mp4" RegularFile 2000 2097152 None None
                     (Some "[Errno 2] No such file or directory") None]
            None))
  = (Val (mkStats 0 0 (Some "[Errno 2] No such file or directory")),
     Some [mkEntry "video_2.mp4" RegularFile 2000 2097152 None None
                   (Some "[Errno 2] No such file or directory") None]).
Proof. vm_compute. reflexivity. Qed.

End CleanerFacts.

(** * Submitting a video for processing *)

Module SubmitFacts.

Import Views Tasks Stages.

(** The stored video [id], if any, is not pending. *)
Definition not_pendiente (id : Z) (w : World) : Prop :=
  forall v, videos w !! id = Some v -> v_estado v <> E_pendiente.

Lemma not_pendiente_insert id w (video : Video) :
  (v_id video = id -> v_estado video <> E_pendiente) ->
  not_pendiente id w ->
  not_pendiente id (set_videos (fun m => <[v_id video := video]> m) w).
Proof.
  intros Hv Hw v. simpl.
  destruct (decide (v_id video = id)) as [E|E].
  - rewrite E, lookup_insert_eq. intros [= <-]. auto.
  - rewrite lookup_insert_ne by exact E. apply Hw.
Qed.

Ltac pendiente_leaf :=
  lazymatch goal with
  | |- not_pendiente _ (set_videos _ _) =>
      apply not_pendiente_insert; [simpl; try discriminate; auto | assumption]
  | |- not_pendiente _ _ => assumption
  end.

Section Services.

Context (env : Env) (settings : Settings) (video : Video) (id : Z).

Lemma download_not_pendiente :
  preserves (not_pendiente id) (Services.download env video).
Proof.
  unfold Services.download, Services._update_video_info.
  inv_steps; pendiente_leaf.
Qed.

Lemma extract_not_pendiente path :
  preserves (not_pendiente id) (Services.extract env settings video path).
Proof. unfold Services.extract. inv_steps; pendiente_leaf. Qed.

Lemma generate_not_pendiente path :
  (v_id video = id -> v_estado video <> E_pendiente) ->
  preserves (not_pendiente id) (Services.generate env settings video path).
Proof. intros Hv. unfold Services.generate. inv_steps; pendiente_leaf. Qed.

Lemma transcribe_not_pendiente mode path :
  preserves (not_pendiente id)
            (Transcription.transcribe env settings video mode path).
Proof.
  unfold Transcription.transcribe, Transcription._transcribe_with_api,
    Transcription._transcribe_with_local, Transcription._save_transcription.
  inv_steps; pendiente_leaf.
Qed.

Lemma validate_loop_not_pendiente segs : forall acc,
  preserves (not_pendiente id) (Analysis.validate_loop video segs acc).
Proof.
  induction segs as [|seg rest IH]; intros acc; simpl.
  - inv_steps.
  - destruct (Analysis.validate_one video seg); inv_steps;
      first [ apply IH | pendiente_leaf ].
Qed.

Lemma analyze_not_pendiente :
  preserves (not_pendiente id) (Analysis.analyze env settings video).
Proof.
  unfold Analysis.analyze, Analysis._get_transcription,
    Analysis._generate_executive_summary,
    Analysis._identify_important_segments, Analysis._validate_segments,
    Analysis._save_analysis.
  inv_steps; first [ apply validate_loop_not_pendiente | pendiente_leaf ].
Qed.

Lemma create_segmentos_not_pendiente segs : forall i,
  preserves (not_pendiente id) (create_segmentos video i segs).
Proof.
  induction segs as [|seg rest IH]; intros i; simpl.
  - inv_steps.
  - inv_steps; first [ apply IH | pendiente_leaf ].
Qed.

Lemma process_all_not_pendiente path rows : forall acc,
  preserves (not_pendiente id)
            (Segmentation.process_all env settings video path acc rows).
Proof.
  induction rows as [|seg rest IH]; intros acc; simpl.
  - inv_steps.
  - apply preserves_bind; [|intro; apply IH].
    unfold Segmentation.process_segment, Segmentation._cut_segment,
      Segmentation._generate_segment_thumbnail,
      Segmentation._update_segment_files.
    inv_steps; pendiente_leaf.
Qed.

Lemma segment_video_not_pendiente path :
  preserves (not_pendiente id)
            (Segmentation.segment_video env settings video path).
Proof.
  unfold Segmentation.segment_video.
  inv_steps; first [ apply process_all_not_pendiente | pendiente_leaf ].
Qed.

End Services.

(** The body of a task, from the instance that [video_get] returned. *)
Ltac task_rest :=
  inv_steps;
  first [ apply download_not_pendiente | apply extract_not_pendiente
        | apply transcribe_not_pendiente | apply analyze_not_pendiente
        | apply create_segmentos_not_pendiente
        | apply segment_video_not_pendiente
        | pendiente_leaf ].

Ltac task_not_pendiente rest :=
  apply preserves_try_except;
  [ let w := fresh "w" in let Hw := fresh "Hw" in
    intros w Hw;
    lazymatch goal with
    | |- ?I (snd (?m w)) => change (wp m (fun _ w' => I w') w)
    end;
    apply wp_bind; unfold logger_info; apply wp_modify;
    apply wp_bind; apply wp_video_get; simpl;
    lazymatch goal with
    | |- match ?x with _ => _ end =>
        let v := fresh "v" in let Ev := fresh "Ev" in
        destruct x as [v|] eqn:Ev; [|exact Hw];
        apply preserves_wp; [|exact Hw]; rest v Ev Hw
    end
  | let e := fresh "e" in intros e; destruct e; inv_steps; pendiente_leaf ].

Section Tasks.

Context (env : Env) (settings : Settings) (id : Z).

Lemma descargar_not_pendiente retries video_id :
  preserves (not_pendiente id)
            (descargar_video_task env settings retries video_id).
Proof.
  unfold descargar_video_task.
  task_not_pendiente ltac:(fun v Ev Hw => task_rest).
Qed.

Lemma extraer_not_pendiente retries video_id path :
  preserves (not_pendiente id)
            (extraer_audio_task env settings retries video_id path).
Proof.
  unfold extraer_audio_task.
  task_not_pendiente ltac:(fun v Ev Hw => task_rest).
Qed.

Lemma miniatura_not_pendiente retries video_id path :
  preserves (not_pendiente id)
            (generar_miniatura_task env settings retries video_id path).
Proof.
  unfold generar_miniatura_task.
  task_not_pendiente
    ltac:(fun v Ev Hw =>
            inv_steps;
            first [ apply generate_not_pendiente; simpl; intros <-;
                    now apply Hw
                  | pendiente_leaf ]).
Qed.

Lemma transcribir_not_pendiente retries video_id path :
  preserves (not_pendiente id)
            (transcribir_audio_task env settings retries video_id path).
Proof.
  unfold transcribir_audio_task.
  task_not_pendiente ltac:(fun v Ev Hw => task_rest).
Qed.

Lemma analizar_not_pendiente retries video_id :
  preserves (not_pendiente id)
            (analizar_video_task env settings retries video_id).
Proof.
  unfold analizar_video_task.
  task_not_pendiente ltac:(fun v Ev Hw => task_rest).
Qed.

Lemma segmentar_not_pendiente retries video_id path :
  preserves (not_pendiente id)
            (segmentar_video_task env settings retries video_id path).
Proof.
  unfold segmentar_video_task.
  task_not_pendiente ltac:(fun v Ev Hw => task_rest).
Qed.

End Tasks.

(** No attempt of a stage task puts a video back to [pendiente]. *)
Lemma stage_attempt_not_pendiente env settings s video_id path retries id :
  preserves (not_pendiente id)
            (stage_attempt env settings s video_id path retries).
Proof.
  destruct s; simpl; (apply preserves_bind; [|intro; apply preserves_ret]).
  - apply descargar_not_pendiente.
  - apply extraer_not_pendiente.
  - apply miniatura_not_pendiente.
  - apply transcribir_not_pendiente.
  - apply analizar_not_pendiente.
  - apply segmentar_not_pendiente.
Qed.

Section View.

Context (env : Env) (in_queryset : Video -> bool).

(** When [procesar] answers 202. *)
Definition accepted (r : Res Response) : Prop :=
  match r with
  | Val (HTTP_202_ACCEPTED _ _ _ _) => True
  | _ => False
  end.

(** The preconditions that [procesar] checks, and the broker taking the
    task. *)
Definition submittable (pk : Z) (w : World) : Prop :=
  exists v task_id,
    videos w !! pk = Some v
    /\ in_queryset (with_id pk v) = true
    /\ v_estado v = E_pendiente
    /\ Py.truthy_str (v_url_original v) = true
    /\ broker env (tick w) "procesar_video_completo_task" pk = inl task_id.

Lemma procesar_accepted_iff pk w :
  accepted (fst (procesar env in_queryset pk w)) <-> submittable pk w.
Proof.
  unfold submittable, accepted.
  cbv beta iota delta
      [procesar get_object delay bind gets try_except ask_or_raise ask modify
       ret raise video_save logger_error].
  simpl.
  destruct (videos w !! pk) as [v|] eqn:Ev; simpl.
  2:{ split; [tauto|]. intros (v & t & [=] & _). }
  destruct (in_queryset (with_id pk v)) eqn:Eq; simpl.
  2:{ split; [tauto|]. intros (v' & t & [= <-] & Hq & _). congruence. }
  destruct (decide (v_estado v = E_pendiente)) as [Ee|Ee].
  2:{ rewrite bool_decide_eq_false_2 by exact Ee. simpl.
      split; [tauto|]. intros (v' & t & [= <-] & _ & He & _). congruence. }
  rewrite bool_decide_eq_true_2 by exact Ee. simpl.
  destruct (Py.truthy_str (v_url_original v)) eqn:Eu; simpl.
  2:{ split; [tauto|]. intros (v' & t & [= <-] & _ & _ & Hu & _). congruence. }
  destruct (broker env (tick w) "procesar_video_completo_task" pk)
    as [task_id|err] eqn:Eb; simpl.
  - split; [|tauto]. intros _. exists v, task_id. auto.
  - split; [tauto|]. intros (v' & t & _ & _ & _ & _ & [=]).
Qed.

(** An accepted submission stores the state [procesando] and queues the
    pipeline once. *)
Lemma procesar_accepted_effect pk w :
  submittable pk w ->
  let w' := snd (procesar env in_queryset pk w) in
  v_estado <$> (videos w' !! pk) = Some E_procesando
  /\ calls w' = calls w ++ [C_delay "procesar_video_completo_task" pk].
Proof.
  intros (v & task_id & Ev & Hq & He & Hu & Hb).
  cbv beta iota delta
      [procesar get_object delay bind gets try_except ask_or_raise ask modify
       ret raise video_save logger_error].
  simpl.
  rewrite Ev. simpl. rewrite Hq. simpl.
  rewrite bool_decide_eq_true_2 by exact He. simpl.
  rewrite Hu. simpl. rewrite Hb. simpl.
  rewrite lookup_insert_eq. auto.
Qed.

(** A video that is not pending is refused with 400, and nothing is
    written or queued. *)
Lemma procesar_refuses_not_pendiente pk w v :
  videos w !! pk = Some v ->
  in_queryset (with_id pk v) = true ->
  v_estado v <> E_pendiente ->
  procesar env in_queryset pk w
  = (Val (HTTP_400_BAD_REQUEST
            ("El video está en estado " +:+ Py.dquote
             +:+ estado_str (v_estado v) +:+ Py.dquote
             +:+ " y no puede ser procesado")), w).
Proof.
  intros Ev Hq He.
  cbv beta iota delta [procesar get_object bind gets ret].
  simpl. rewrite Ev, Hq. simpl.
  rewrite bool_decide_eq_false_2 by exact He. reflexivity.
Qed.

End View.

(** A finished video whose URL is still there, and a broker that takes
    every task. *)
Definition finished_world : World :=
  set_videos
    (fun m => <[1 := mkVideo 1 "Clase 1" (Some "https://example.org/v/1")
                              (Some 3600) E_completado None]> m)
    empty_world.

(** C2, as stated, fails: submitting again after the run has completed
    is refused. *)
Lemma resubmission_after_completion_is_refused :
  ~ (forall env in_queryset pk w v,
        videos w !! pk = Some v ->
        in_queryset (with_id pk v) = true ->
        v_estado v = E_completado \/ v_estado v = E_error ->
        Py.truthy_str (v_url_original v) = true ->
        (exists task_id,
            broker env (tick w) "procesar_video_completo_task" pk
            = inl task_id) ->
        accepted (fst (procesar env in_queryset pk w))).
Proof.
  intros H.
  specialize (H RetryFacts.quiet_env (fun _ => true) 1 finished_world
                (mkVideo 1 "Clase 1" (Some "https://example.org/v/1")
                         (Some 3600) E_completado None)).
  vm_compute in H. apply H; auto. eexists. reflexivity.
Qed.

(** C2, amended: [procesar] answers 202 exactly when the video exists
    for the user, its state is [pendiente], it has a URL and the broker
    takes the task; it then stores the state [procesando]; no attempt of
    a stage task makes a video pending again; and a video that is not
    pending (a run is active, or has completed, or has ended in error)
    is refused with 400 and nothing changes. *)
Theorem procesar_accepts_only_pendiente :
  forall env in_queryset pk w,
    (accepted (fst (procesar env in_queryset pk w))
     <-> submittable env in_queryset pk w)
    /\ (submittable env in_queryset pk w ->
        v_estado <$> (videos (snd (procesar env in_queryset pk w)) !! pk)
        = Some E_procesando)
    /\ (forall settings s video_id path retries,
          not_pendiente pk w ->
          not_pendiente
            pk (snd (stage_attempt env settings s video_id path retries w)))
    /\ (forall v,
          videos w !! pk = Some v ->
          in_queryset (with_id pk v) = true ->
          v_estado v <> E_pendiente ->
          procesar env in_queryset pk w
          = (Val (HTTP_400_BAD_REQUEST
                    ("El video está en estado " +:+ Py.dquote
                     +:+ estado_str (v_estado v) +:+ Py.dquote
                     +:+ " y no puede ser procesado")), w)).
Proof.
  intros env in_queryset pk w. split; [|split; [|split]].
  - apply procesar_accepted_iff.
  - intros H. now apply procesar_accepted_effect.
  - intros settings s video_id path retries.
    apply stage_attempt_not_pendiente.
  - apply procesar_refuses_not_pendiente.
Qed.

(** A pending video is accepted once; the second submission finds it in
    the state [procesando] and is refused. *)
Example second_submission_is_refused :
  let w1 := snd (procesar RetryFacts.quiet_env (fun _ => true) 1
                          RetryFacts.one_video) in
  accepted (fst (procesar RetryFacts.quiet_env (fun _ => true) 1
                          RetryFacts.one_video))
  /\ fst (procesar RetryFacts.quiet_env (fun _ => true) 1 w1)
     = Val (HTTP_400_BAD_REQUEST
              ("El video está en estado " +:+ Py.dquote +:+ "procesando"
               +:+ Py.dquote +:+ " y no puede ser procesado")).
Proof. vm_compute. split; [exact I | reflexivity]. Qed.

End SubmitFacts.

(** * Segmentation: order, names, midpoints and failures *)

Module SegmentationFacts.

Import Segmentation.

(** ** [order_by('orden')] *)

Definition orden_le (a b : Segmento) : Prop := s_orden a <= s_orden b.

Lemma insert_by_orden_perm s l : Permutation (insert_by_orden s l) (s :: l).
Proof.
  induction l as [|r l IH]; simpl; [reflexivity|].
  destruct (s_orden r <? s_orden s); [|reflexivity].
  rewrite IH. apply perm_swap.
Qed.

Lemma order_by_orden_perm l : Permutation (order_by_orden l) l.
Proof.
  induction l as [|s l IH]; simpl; [reflexivity|].
  unfold order_by_orden in *. simpl. rewrite insert_by_orden_perm.
  now constructor.
Qed.

Lemma insert_by_orden_sorted s l :
  StronglySorted orden_le l -> StronglySorted orden_le (insert_by_orden s l).
Proof.
  induction 1 as [|r l Hl IH Hr]; simpl.
  - repeat constructor.
  - destruct (s_orden r <? s_orden s) eqn:E.
    + apply Z.ltb_lt in E. constructor; [exact IH|].
      rewrite insert_by_orden_perm. constructor; [|exact Hr].
      unfold orden_le. lia.
    + apply Z.ltb_ge in E. constructor; [now constructor|].
      constructor; [exact E|].
      eapply Forall_impl; [exact Hr|]. unfold orden_le. simpl. lia.
Qed.

Lemma order_by_orden_sorted l : StronglySorted orden_le (order_by_orden l).
Proof.
  induction l as [|s l IH]; [constructor|].
  unfold order_by_orden in *. simpl. now apply insert_by_orden_sorted.
Qed.

(** ** What one run writes where *)

Fixpoint starts_with (p s : string) : bool :=
  match p, s with
  | EmptyString, _ => true
  | String a p', String b s' => Ascii.eqb a b && starts_with p' s'
  | String _ _, EmptyString => false
  end.

(** The line that the loop of [segment_video] logs for a failed
    segment. *)
Definition failure_line (l : LogLine) : bool :=
  bool_decide (ll_level l = ERROR)
  && starts_with "Error procesando segmento " (ll_text l).

Definition count_lines (P : LogLine -> bool) (lines : list LogLine) : nat :=
  length (filter (fun l => P l = true) lines).

(** Failed-segment lines, and all lines of level ERROR, in the worker
    log. *)
Definition segment_failures (w : World) : nat :=
  count_lines failure_line (applog w).

Definition error_lines (w : World) : nat :=
  count_lines (fun l => bool_decide (ll_level l = ERROR)) (applog w).

(** Entries with outcome [error] in the audit trail. *)
Definition error_entries (w : World) : nat :=
  length (filter (fun l => l_estado l = L_error) (logs w)).

Lemma count_lines_snoc P lines l :
  count_lines P (lines ++ [l])
  = (count_lines P lines + if P l then 1 else 0)%nat.
Proof.
  unfold count_lines. rewrite filter_app, length_app. f_equal.
  rewrite filter_cons. destruct (P l); simpl; reflexivity.
Qed.

(** A step that makes the outside calls [cs], leaves the audit trail
    alone and logs no failed-segment line. *)
Definition quiet (cs : list Call) (w w' : World) : Prop :=
  logs w' = logs w
  /\ calls w' = calls w ++ cs
  /\ segment_failures w' = segment_failures w.

Lemma quiet_trans cs1 cs2 w w1 w2 :
  quiet cs1 w w1 -> quiet cs2 w1 w2 -> quiet (cs1 ++ cs2) w w2.
Proof.
  intros (L1 & C1 & F1) (L2 & C2 & F2). repeat split; try congruence.
  rewrite C2, C1. now rewrite app_assoc.
Qed.

Ltac eval_lines :=
  repeat match goal with
         | |- context [failure_line ?l] =>
             let b := eval vm_compute in (failure_line l) in
             change (failure_line l) with b
         end;
  cbv iota.

Ltac quiet_leaf :=
  unfold quiet, segment_failures; simpl;
  rewrite ?count_lines_snoc; eval_lines; rewrite ?app_nil_r;
  repeat split; first [ reflexivity | lia ].

Section Service.

Context (env : Env) (settings : Settings) (video : Video) (video_path : string).

(** The two FFmpeg commands of a row, as C6 words them: the clip is
    named from [(video.id, orden)], the frame is taken at the midpoint
    [timestamp_inicio_seg + duracion_seg / 2]. *)
Definition clip_command (s : Segmento) : FfmpegCmd :=
  FfCut video_path (s_timestamp_inicio_seg s) (s_duracion_seg s)
        ((MEDIA_ROOT settings +:+ "/segmentos") +:+ "/"
         +:+ "segmento_" +:+ pretty (v_id video) +:+ "_"
         +:+ pretty (s_orden s) +:+ ".mp4").

Definition midpoint_frame_command (s : Segmento) : FfmpegCmd :=
  FfFrame video_path
          (inject_Z (s_timestamp_inicio_seg s)
           + inject_Z (s_duracion_seg s) / 2)%Q
          ((MEDIA_ROOT settings +:+ "/miniaturas_segmentos") +:+ "/"
           +:+ "thumb_seg_" +:+ pretty (v_id video) +:+ "_"
           +:+ pretty (s_orden s) +:+ ".jpg").

Definition cut_call (s : Segmento) : Call := C_ffmpeg (clip_command s).

Definition frame_call (s : Segmento) : Call :=
  C_ffmpeg (midpoint_frame_command s).

(** [cut_ok t s]: FFmpeg, asked at tick [t] for the clip of [s],
    returns and leaves the clip in place. *)
Definition cut_ok (t : nat) (s : Segmento) : Prop :=
  ffmpeg env t (clip_command s) = FfDone true.

Lemma cut_segment_spec segmento w :
  wp (_cut_segment env settings video video_path segmento)
     (fun r w' =>
        quiet [cut_call segmento] w w'
        /\ tick w' = S (tick w)
        /\ match r with
           | Val p =>
               p = mkPath (segments_dir settings)
                          (output_filename (v_id video) (s_orden segmento))
               /\ cut_ok (tick w) segmento
           | Exc e => ~ cut_ok (tick w) segmento
           end) w.
Proof.
  unfold _cut_segment, cut_call, cut_ok, clip_command, path_str.
  wp_steps; simpl.
  all: split; [quiet_leaf|]; split; [reflexivity|].
  all: try (split; [reflexivity|]).
  all: unfold segments_dir, output_filename in *;
    cbn [tick set_applog p_dir p_name] in *.
  all: first [ assumption | congruence ].
Qed.

Lemma generate_segment_thumbnail_spec segmento w :
  wp (_generate_segment_thumbnail env settings video video_path segmento)
     (fun r w' =>
        quiet [frame_call segmento] w w'
        /\ tick w' = S (tick w)
        /\ exists o, r = Val o) w.
Proof.
  unfold _generate_segment_thumbnail, frame_call, midpoint_frame_command,
    path_str.
  wp_steps; simpl.
  all: split; [quiet_leaf | eauto].
Qed.

Lemma update_segment_files_spec segmento p thumb w :
  wp (_update_segment_files env segmento p thumb)
     (fun r w' => quiet [] w w' /\ (tick w < tick w')%nat) w.
Proof.
  unfold _update_segment_files. wp_steps; simpl.
  all: split; [quiet_leaf | lia].
Qed.

(** One turn of the loop, started at tick [tick w]: when the cut
    fails, the cut is the only call, a failed-segment line is logged
    and the list is as before; when the cut succeeds, the frame at the
    midpoint is asked for next, and either a result is appended or a
    failed-segment line is logged. *)
Definition turn_post (resultados : list Resultado) (segmento : Segmento)
    (w : World) (r : Res (list Resultado)) (w' : World) : Prop :=
  logs w' = logs w
  /\ ((~ cut_ok (tick w) segmento
       /\ r = Val resultados
       /\ calls w' = calls w ++ [cut_call segmento]
       /\ tick w' = S (tick w)
       /\ segment_failures w' = S (segment_failures w))
      \/ (cut_ok (tick w) segmento
          /\ calls w' = calls w ++ [cut_call segmento; frame_call segmento]
          /\ (tick w + 3 <= tick w')%nat
          /\ ((exists res,
                 r = Val (resultados ++ [res])
                 /\ res_segmento_id res = s_id segmento
                 /\ res_video_path res
                    = segments_dir settings +:+ "/"
                      +:+ output_filename (v_id video) (s_orden segmento)
                 /\ segment_failures w' = segment_failures w)
              \/ (r = Val resultados
                  /\ segment_failures w' = S (segment_failures w))))).

Lemma failure_line_logged w msg :
  segment_failures
    (set_applog
       (fun l => l ++ [mkLine ERROR ("Error procesando segmento " +:+ msg)]) w)
  = S (segment_failures w).
Proof.
  unfold segment_failures. simpl. rewrite count_lines_snoc.
  eval_lines. lia.
Qed.

Lemma info_line_logged w msg :
  segment_failures (set_applog (fun l => l ++ [mkLine INFO msg]) w)
  = segment_failures w.
Proof.
  unfold segment_failures. simpl. rewrite count_lines_snoc.
  eval_lines. lia.
Qed.

Lemma process_segment_spec resultados segmento w :
  wp (process_segment env settings video video_path resultados segmento)
     (turn_post resultados segmento w) w.
Proof.
  unfold process_segment. apply wp_try_except. apply wp_bind.
  eapply wp_mono; [apply cut_segment_spec|].
  intros [p|e] w1 ((L1 & C1 & F1) & T1 & Hr).
  2:{ wp_steps. split; [simpl; exact L1|]. left.
      split; [exact Hr|]. split; [reflexivity|].
      split; [simpl; exact C1|]. split; [simpl; exact T1|].
      rewrite failure_line_logged. now rewrite F1. }
  destruct Hr as [-> Hcut]. apply wp_bind.
  eapply wp_mono; [apply generate_segment_thumbnail_spec|].
  intros r2 w2 ((L2 & C2 & F2) & T2 & [o ->]). apply wp_bind.
  assert (C12 : calls w2 = calls w ++ [cut_call segmento; frame_call segmento]).
  { rewrite C2, C1, <- app_assoc. reflexivity. }
  eapply wp_mono; [apply update_segment_files_spec|].
  intros [[]|e] w3 ((L3 & C3 & F3) & T3); rewrite app_nil_r in C3.
  - wp_steps. split; [simpl; congruence|]. right.
    split; [exact Hcut|]. split; [simpl; congruence|].
    split; [simpl; lia|]. left. eexists.
    split; [reflexivity|]. simpl. repeat split.
    rewrite info_line_logged. congruence.
  - wp_steps. split; [simpl; congruence|]. right.
    split; [exact Hcut|]. split; [simpl; congruence|].
    split; [simpl; lia|]. right. split; [reflexivity|].
    rewrite failure_line_logged. congruence.
Qed.

(** The outside calls of a loop over [rows] that starts at tick [t],
    in order.  Each row is cut into its clip.  When FFmpeg does not
    leave the clip, the loop goes on to the next row at the next tick;
    when it does, the frame at the midpoint of the row is asked for
    right after the cut, and the next row comes after the clip has been
    stored. *)
Inductive segment_calls : nat -> list Segmento -> list Call -> Prop :=
| calls_done t : segment_calls t [] []
| calls_cut_failed t s rows cs :
    ffmpeg env t
      (FfCut video_path (s_timestamp_inicio_seg s) (s_duracion_seg s)
             ((MEDIA_ROOT settings +:+ "/segmentos") +:+ "/"
              +:+ "segmento_" +:+ pretty (v_id video) +:+ "_"
              +:+ pretty (s_orden s) +:+ ".mp4"))
    <> FfDone true ->
    segment_calls (S t) rows cs ->
    segment_calls t (s :: rows)
      (C_ffmpeg
         (FfCut video_path (s_timestamp_inicio_seg s) (s_duracion_seg s)
                ((MEDIA_ROOT settings +:+ "/segmentos") +:+ "/"
                 +:+ "segmento_" +:+ pretty (v_id video) +:+ "_"
                 +:+ pretty (s_orden s) +:+ ".mp4"))
       :: cs)
| calls_cut_frame t t' s rows cs :
    ffmpeg env t
      (FfCut video_path (s_timestamp_inicio_seg s) (s_duracion_seg s)
             ((MEDIA_ROOT settings +:+ "/segmentos") +:+ "/"
              +:+ "segmento_" +:+ pretty (v_id video) +:+ "_"
              +:+ pretty (s_orden s) +:+ ".mp4"))
    = FfDone true ->
    (t + 3 <= t')%nat ->
    segment_calls t' rows cs ->
    segment_calls t (s :: rows)
      (C_ffmpeg
         (FfCut video_path (s_timestamp_inicio_seg s) (s_duracion_seg s)
                ((MEDIA_ROOT settings +:+ "/segmentos") +:+ "/"
                 +:+ "segmento_" +:+ pretty (v_id video) +:+ "_"
                 +:+ pretty (s_orden s) +:+ ".mp4"))
       :: C_ffmpeg
            (FfFrame video_path
                     (inject_Z (s_timestamp_inicio_seg s)
                      + inject_Z (s_duracion_seg s) / 2)%Q
                     ((MEDIA_ROOT settings +:+ "/miniaturas_segmentos") +:+ "/"
                      +:+ "thumb_seg_" +:+ pretty (v_id video) +:+ "_"
                      +:+ pretty (s_orden s) +:+ ".jpg"))
       :: cs).

Lemma process_all_spec rows : forall resultados w,
  wp (process_all env settings video video_path resultados rows)
     (fun r w' =>
        logs w' = logs w
        /\ exists rs cs,
            r = Val rs
            /\ calls w' = calls w ++ cs
            /\ segment_calls (tick w) rows cs
            /\ (segment_failures w <= segment_failures w')%nat
            /\ (length rs + segment_failures w'
                = length resultados + segment_failures w + length rows)%nat) w.
Proof.
  induction rows as [|segmento rest IH]; intros resultados w; simpl.
  - wp_steps. split; [reflexivity|]. exists resultados, [].
    rewrite app_nil_r. repeat split; [constructor | lia | lia].
  - apply wp_bind.
    eapply wp_mono; [apply process_segment_spec|].
    intros r w1 [L1 Hturn].
    assert (Hnext : exists acc cs1,
               r = Val acc
               /\ calls w1 = calls w ++ cs1
               /\ (forall cs, segment_calls (tick w1) rest cs ->
                              segment_calls (tick w) (segmento :: rest)
                                            (cs1 ++ cs))
               /\ (segment_failures w <= segment_failures w1)%nat
               /\ (length acc + segment_failures w1
                   = S (length resultados + segment_failures w))%nat).
    { destruct Hturn as [(Hcut & -> & C & T & F)
                        | (Hcut & C & T & [(res & -> & _ & _ & F) | (-> & F)])].
      - eexists _, _. split; [reflexivity|]. split; [exact C|].
        split; [|lia]. intros cs Hcs. rewrite T in Hcs.
        apply calls_cut_failed; assumption.
      - eexists _, _. split; [reflexivity|]. split; [exact C|].
        split; [|rewrite length_app; simpl; lia]. intros cs Hcs.
        eapply calls_cut_frame; eassumption.
      - eexists _, _. split; [reflexivity|]. split; [exact C|].
        split; [|lia]. intros cs Hcs.
        eapply calls_cut_frame; eassumption. }
    destruct Hnext as (acc & cs1 & -> & C1 & Hcs1 & Hle & Hcount).
    eapply wp_mono; [apply IH|].
    intros r2 w2 (L2 & rs & cs & -> & C2 & Hcalls & Hmono & Hlen).
    split; [congruence|]. exists rs, (cs1 ++ cs).
    split; [reflexivity|]. split; [rewrite C2, C1; now rewrite app_assoc|].
    split; [|split; lia]. now apply Hcs1.
Qed.

Lemma error_entries_snoc w row :
  l_estado row <> L_error ->
  error_entries (set_logs (fun l => l ++ [row]) w) = error_entries w.
Proof.
  intros H. unfold error_entries. simpl.
  rewrite filter_app, filter_cons_False by exact H.
  now rewrite app_nil_r.
Qed.

(** What a run of [segment_video] over an existing video file leaves;
    the loop starts after the one question of the run about the video
    file. *)
Definition run_post (rows : list Segmento) (w : World)
    (r : Res (list Resultado)) (w' : World) : Prop :=
  exists rs cs,
    r = Val rs
    /\ calls w' = calls w ++ cs
    /\ segment_calls (S (tick w)) rows cs
    /\ (segment_failures w <= segment_failures w')%nat
    /\ (length rs + segment_failures w'
        = segment_failures w + length rows)%nat
    /\ error_entries w' = error_entries w.

Ltac run_leaf :=
  unfold run_post; simpl;
  eexists _, _;
  repeat split;
  first [ reflexivity
        | symmetry; apply app_nil_r
        | constructor
        | unfold segment_failures; simpl; rewrite ?count_lines_snoc;
          eval_lines; simpl; lia
        | unfold error_entries; simpl;
          rewrite ?filter_app, ?filter_cons_False by discriminate;
          rewrite ?app_nil_r; reflexivity ].

Lemma segment_video_spec rows w :
  path_exists env (tick w) video_path = true ->
  order_by_orden (segmentos_of (v_id video) w) = rows ->
  wp (segment_video env settings video video_path) (run_post rows w) w.
Proof.
  intros Hexists Hrows. unfold segment_video. apply wp_try_except.
  repeat
    (first
       [ rewrite Hexists
       | progress cbn [tick set_logs set_applog]
       | lazymatch goal with
         | |- context [segmentos_of ?i ?w0] =>
             lazymatch w0 with
             | w => fail
             | _ => change (segmentos_of i w0) with (segmentos_of i w);
                    rewrite Hrows
             end
         end
       | wp_step ]).
  all: try discriminate.
  all: try run_leaf.
  all: eapply wp_mono; [apply process_all_spec|];
    intros r w1 (L1 & rs & cs & -> & C1 & Hcalls & Hmono & Hlen);
    wp_steps; unfold run_post; simpl; exists rs, cs;
    (split; [reflexivity|]);
    (split; [exact C1|]);
    (split; [exact Hcalls|]);
    (split;
     [ unfold segment_failures in *; simpl in *;
       rewrite ?count_lines_snoc in *; eval_lines; simpl in *; lia |]);
    (split;
     [ unfold segment_failures in *; simpl in *;
       rewrite ?count_lines_snoc in *; eval_lines; simpl in *; lia
     | unfold error_entries in *; simpl in *; rewrite L1; simpl;
       rewrite ?filter_app, ?filter_cons_False by discriminate;
       rewrite ?app_nil_r; reflexivity ]).
Qed.

End Service.

(** C6: over an existing video file, the rows of the video are taken in
    ascending [orden].  In that order each row is cut into the clip
    [segmento_<video.id>_<orden>.mp4]; whenever FFmpeg leaves the clip
    in place, the next call asks for the frame at
    [timestamp_inicio_seg + duracion_seg / 2], to be written to
    [thumb_seg_<video.id>_<orden>.jpg]; when FFmpeg does not leave the
    clip, the run goes on to the next row.  The run makes no other
    call to FFmpeg. *)
Theorem segments_cut_in_order_with_midpoint_thumbnails :
  forall env settings video video_path w,
    path_exists env (tick w) video_path = true ->
    let rows := order_by_orden (segmentos_of (v_id video) w) in
    StronglySorted (fun a b => s_orden a <= s_orden b) rows
    /\ Permutation rows (segmentos_of (v_id video) w)
    /\ (exists cs,
          calls (snd (segment_video env settings video video_path w))
          = calls w ++ cs
          /\ segment_calls env settings video video_path (S (tick w)) rows cs).
Proof.
  intros env settings video video_path w Hexists rows.
  split; [apply order_by_orden_sorted|].
  split; [apply order_by_orden_perm|].
  pose proof (segment_video_spec env settings video video_path rows w
                                 Hexists eq_refl) as H.
  unfold wp, run_post in H.
  destruct H as (rs & cs & _ & C & Hcalls & _). eauto.
Qed.

(** C3, amended: over an existing video file with K rows, the run
    returns a list of K - j results, where j is the number of rows whose
    processing raised; it writes one line "Error procesando segmento
    ..." per such row to the worker log and no entry with outcome
    [error] to the audit trail; and it returns normally, also when
    every row failed. *)
Theorem segmentation_skips_failed_segments :
  forall env settings video video_path w,
    path_exists env (tick w) video_path = true ->
    let K := length (segmentos_of (v_id video) w) in
    let (r, w') := segment_video env settings video video_path w in
    exists rs,
      r = Val rs
      /\ (length rs <= K)%nat
      /\ segment_failures w' = (segment_failures w + (K - length rs))%nat
      /\ error_entries w' = error_entries w.
Proof.
  intros env settings video video_path w Hexists K.
  pose proof (segment_video_spec env settings video video_path _ w
                                 Hexists eq_refl) as H.
  unfold wp, run_post in H.
  destruct (segment_video env settings video video_path w) as [r w'].
  simpl in H. destruct H as (rs & cs & -> & _ & _ & Hmono & Hlen & Herr).
  rewrite (Permutation_length (order_by_orden_perm _)) in Hlen.
  subst K. exists rs. split; [reflexivity|].
  split; [lia|]. split; [lia | exact Herr].
Qed.

(** Video 1 with two rows; FFmpeg fails on the clip of the second. *)
Definition two_segments : World :=
  set_segmentos
    (fun _ =>
       [mkSegmento 11 1 "Cierre" "" 900 1200 300 2 (Py.Finite 7) "conclusion"
                   None None;
        mkSegmento 10 1 "Inicio" "" 0 300 300 1 (Py.Finite 9) "introduccion"
                   None None])
    RetryFacts.one_video.

Definition second_cut_fails : Env :=
  mkEnv (fun _ _ => true) (fun _ _ => 0) (fun _ _ => None)
        (fun _ cmd =>
           match cmd with
           | FfCut _ 900 _ _ =>
               FfRaises (OE_ffmpeg (Decodes "Invalid data found"))
           | _ => FfDone true
           end)
        (fun _ _ => None)
        (fun _ _ => inr (OE_download "unused"))
        (fun _ _ => inr (OE_other "unused"))
        (fun _ _ => inr (OE_other "unused"))
        (fun _ _ => inr (OE_other "unused"))
        (fun _ _ => inr (OE_other "unused"))
        (fun _ _ _ => inl "task-1").

(** The run over [two_segments]: one result, no [error] entry in the
    audit trail, two lines of level ERROR in the worker log. *)
Lemma two_segments_counts :
  length (segmentos_of 1 two_segments) = 2%nat
  /\ let (r, w') :=
       segment_video second_cut_fails RetryFacts.some_settings
                     TranscriptionFacts.stored_video
                     "/media/videos/video_1.mp4" two_segments in
     (exists res, r = Val [res])
     /\ error_entries w' = error_entries two_segments
     /\ error_lines w' = (error_lines two_segments + 2)%nat.
Proof. vm_compute. repeat split. eexists. reflexivity. Qed.

(** C3, as stated, fails: with two rows of which one fails, the audit
    trail receives no [error] entry, and the worker log receives two
    lines of level ERROR; neither count is j = 1. *)
Lemma failed_segment_is_not_in_the_audit_trail :
  ~ (forall env settings video video_path w,
        path_exists env (tick w) video_path = true ->
        let K := length (segmentos_of (v_id video) w) in
        let (r, w') := segment_video env settings video video_path w in
        exists rs,
          r = Val rs
          /\ (error_entries w' = (error_entries w + (K - length rs))%nat
              \/ error_lines w' = (error_lines w + (K - length rs))%nat)).
Proof.
  intros H.
  specialize (H second_cut_fails RetryFacts.some_settings
                TranscriptionFacts.stored_video "/media/videos/video_1.mp4"
                two_segments eq_refl).
  cbv zeta in H. destruct two_segments_counts as [HK Hrun].
  change (v_id TranscriptionFacts.stored_video) with 1 in H.
  rewrite HK in H.
  destruct (segment_video second_cut_fails RetryFacts.some_settings
                          TranscriptionFacts.stored_video
                          "/media/videos/video_1.mp4" two_segments)
    as [r w'].
  destruct Hrun as ([res ->] & He & Hl).
  destruct H as (rs & [= <-] & [E|E]); simpl length in E; lia.
Qed.

Lemma segmentation_skips_failed_segments_witness :
  let (r, w') :=
    segment_video second_cut_fails RetryFacts.some_settings
                  TranscriptionFacts.stored_video "/media/videos/video_1.mp4"
                  two_segments in
  exists rs,
    r = Val rs
    /\ (length rs <= 2)%nat
    /\ segment_failures w' = (segment_failures two_segments + (2 - length rs))%nat
    /\ error_entries w' = error_entries two_segments.
Proof.
  apply (segmentation_skips_failed_segments
           second_cut_fails RetryFacts.some_settings
           TranscriptionFacts.stored_video "/media/videos/video_1.mp4"
           two_segments).
  vm_compute. reflexivity.
Defined.

Lemma segments_cut_in_order_witness :
  path_exists second_cut_fails (tick two_segments) "/media/videos/video_1.mp4"
  = true
  /\ exists cs,
      calls (snd (segment_video second_cut_fails RetryFacts.some_settings
                                TranscriptionFacts.stored_video
                                "/media/videos/video_1.mp4" two_segments))
      = calls two_segments ++ cs
      /\ segment_calls second_cut_fails RetryFacts.some_settings
                       TranscriptionFacts.stored_video
                       "/media/videos/video_1.mp4"
                       (S (tick two_segments))
                       (order_by_orden (segmentos_of 1 two_segments)) cs.
Proof.
  split; [reflexivity|].
  apply (segments_cut_in_order_with_midpoint_thumbnails
           second_cut_fails RetryFacts.some_settings
           TranscriptionFacts.stored_video "/media/videos/video_1.mp4"
           two_segments).
  vm_compute. reflexivity.
Defined.

(** The run over [two_segments]: the row with [orden] 1 comes first and
    yields the only result; its clip and thumbnail are named from
    [(1, 1)], and the thumbnail is taken at second 150. *)
Example two_segments_run :
  let (r, w') :=
    segment_video second_cut_fails RetryFacts.some_settings
                  TranscriptionFacts.stored_video "/media/videos/video_1.mp4"
                  two_segments in
  r = Val [mkResultado 10 "Inicio" "/media/segmentos/segmento_1_1.mp4"
                       "/media/miniaturas_segmentos/thumb_seg_1_1.jpg" 300]
  /\ calls w'
     = [C_ffmpeg (FfCut "/media/videos/video_1.mp4" 0 300
                        "/media/segmentos/segmento_1_1.mp4");
        C_ffmpeg (FfFrame "/media/videos/video_1.mp4" (0 + 300 / 2)%Q
                          "/media/miniaturas_segmentos/thumb_seg_1_1.jpg");
        C_ffmpeg (FfCut "/media/videos/video_1.mp4" 900 300
                        "/media/segmentos/segmento_1_2.mp4")].
Proof. vm_compute. split; reflexivity. Qed.

End SegmentationFacts.

(** * Analysis: the segments that are recorded *)

Module AnalysisFacts.

Import Analysis Tasks.

(** A relevance between 1 and 10. *)
Definition in_range (r : Py.PyFloat) : Prop :=
  exists q, r = Py.Finite q /\ (1 <= q)%Q /\ (q <= 10)%Q.

(** [a] is at least as relevant as [b]. *)
Definition at_least (a b : Py.PyFloat) : Prop :=
  match a, b with
  | Py.Finite x, Py.Finite y => (y <= x)%Q
  | _, _ => False
  end.

Lemma Qltb_true a b : Py.Qltb a b = true <-> (a < b)%Q.
Proof.
  unfold Py.Qltb. rewrite negb_true_iff, <- not_true_iff_false, Qle_bool_iff.
  split; [apply Qnot_le_lt | apply Qlt_not_le].
Qed.

Lemma Qltb_false a b : Py.Qltb a b = false <-> (b <= a)%Q.
Proof.
  unfold Py.Qltb. rewrite negb_false_iff. apply Qle_bool_iff.
Qed.

(** Whatever the model answered, also [nan] or an infinity, the clamp
    gives a number between 1 and 10. *)
Lemma clamp_in_range r : in_range (clamp_relevancia r).
Proof.
  unfold clamp_relevancia, Py.min, Py.max, in_range.
  destruct r as [x| | |]; simpl.
  - destruct (Py.Qltb x 10) eqn:E1; simpl.
    + destruct (Py.Qltb 1 x) eqn:E2.
      * exists x. apply Qltb_true in E1, E2.
        repeat split; now apply Qlt_le_weak.
      * exists 1%Q. repeat split; [apply Qle_refl | discriminate].
    + exists 10%Q. repeat split; discriminate.
  - exists 10%Q. repeat split; discriminate.
  - exists 1%Q. repeat split; [apply Qle_refl | discriminate].
  - exists 10%Q. repeat split; discriminate.
Qed.

Lemma validate_one_in_range video seg v :
  validate_one video seg = Keep v -> in_range (vs_relevancia v).
Proof.
  unfold validate_one.
  destruct (negb (raw_has_keys seg)); [discriminate|].
  destruct (raw_timestamp_inicio seg) as [inicio| |]; simpl; try discriminate.
  destruct (raw_timestamp_fin seg) as [fin| |]; simpl; try discriminate.
  destruct ((inicio <? 0) || (fin <=? inicio)); [discriminate|].
  destruct (raw_relevancia seg) as [relevancia| |]; simpl; try discriminate.
  destruct (raw_titulo seg) as [titulo| |]; simpl; try discriminate.
  destruct (raw_descripcion seg) as [descripcion| |]; simpl; try discriminate.
  intros [= <-]. simpl. apply clamp_in_range.
Qed.

(** ** The sort *)

Definition ranked (a b : ValidSegment) : Prop :=
  at_least (vs_relevancia a) (vs_relevancia b).

Lemma insert_by_relevancia_perm x l :
  Permutation (insert_by_relevancia x l) (x :: l).
Proof.
  induction l as [|y l IH]; simpl; [reflexivity|].
  destruct (Py.lt (vs_relevancia x) (vs_relevancia y)); [|reflexivity].
  rewrite IH. apply perm_swap.
Qed.

Lemma sort_by_relevancia_perm l : Permutation (sort_by_relevancia l) l.
Proof.
  induction l as [|x l IH]; [reflexivity|].
  unfold sort_by_relevancia in *. simpl. rewrite insert_by_relevancia_perm.
  now constructor.
Qed.

Lemma ranked_trans a b c :
  ranked a b -> ranked b c -> ranked a c.
Proof.
  unfold ranked, at_least.
  destruct (vs_relevancia a), (vs_relevancia b), (vs_relevancia c);
    try tauto.
  intros H1 H2. eapply Qle_trans; eassumption.
Qed.

Lemma insert_by_relevancia_sorted x l :
  in_range (vs_relevancia x) ->
  Forall (fun v => in_range (vs_relevancia v)) l ->
  StronglySorted ranked l ->
  StronglySorted ranked (insert_by_relevancia x l).
Proof.
  intros (qx & Hx & _) Hl Hs. induction Hs as [|y l Hs IH Hy]; simpl.
  - repeat constructor.
  - apply Forall_cons in Hl as [(qy & Hyq & _) Hl].
    destruct (Py.lt (vs_relevancia x) (vs_relevancia y)) eqn:E.
    + constructor; [now apply IH|].
      rewrite insert_by_relevancia_perm. constructor; [|exact Hy].
      unfold ranked, at_least. rewrite Hx, Hyq in *. simpl in E.
      apply Qltb_true in E. now apply Qlt_le_weak.
    + assert (Hxy : ranked x y).
      { unfold ranked, at_least. rewrite Hx, Hyq in *. simpl in E.
        now apply Qltb_false in E. }
      constructor; [now constructor|].
      constructor; [exact Hxy|].
      eapply Forall_impl; [exact Hy|]. intros z Hz.
      eapply ranked_trans; eassumption.
Qed.

Lemma sort_by_relevancia_sorted l :
  Forall (fun v => in_range (vs_relevancia v)) l ->
  StronglySorted ranked (sort_by_relevancia l).
Proof.
  induction l as [|x l IH]; intros Hl; [constructor|].
  apply Forall_cons in Hl as [Hx Hl].
  unfold sort_by_relevancia in *. simpl.
  apply insert_by_relevancia_sorted; [exact Hx | | now apply IH].
  fold (sort_by_relevancia l). now rewrite sort_by_relevancia_perm.
Qed.

(** Sorted by descending relevance, every relevance in range, and at
    most [max_segments] of them. *)
Definition selected (max_segments : Z) (l : list ValidSegment) : Prop :=
  Forall (fun v => in_range (vs_relevancia v)) l
  /\ StronglySorted ranked l
  /\ (length l <= Z.to_nat max_segments)%nat.

Lemma StronglySorted_take {A} (R : A -> A -> Prop) n l :
  StronglySorted R l -> StronglySorted R (take n l).
Proof.
  intros Hs. revert n. induction Hs as [|x l Hs IH Hx]; intros [|n]; simpl;
    try constructor; auto.
  apply Forall_take. exact Hx.
Qed.

Lemma selected_slice max_segments l :
  0 <= max_segments ->
  Forall (fun v => in_range (vs_relevancia v)) l ->
  selected max_segments (Py.slice_to max_segments (sort_by_relevancia l)).
Proof.
  intros Hmax Hl. unfold Py.slice_to.
  rewrite (proj2 (Z.leb_le 0 max_segments) Hmax).
  split; [|split].
  - apply Forall_take. now rewrite sort_by_relevancia_perm.
  - apply StronglySorted_take. now apply sort_by_relevancia_sorted.
  - rewrite length_take. lia.
Qed.

Lemma selected_nil max_segments : selected max_segments [].
Proof. repeat split; [constructor | constructor | simpl; lia]. Qed.

Definition all_in_range (l : list ValidSegment) : Prop :=
  Forall (fun v => in_range (vs_relevancia v)) l.

Ltac returned :=
  repeat match goal with
         | H : Val _ = Val _ |- _ => injection H as <-
         | H : Exc _ = Val _ |- _ => discriminate H
         end.

Section Service.

Context (env : Env) (settings : Settings) (video : Video).

Hypothesis max_segments_not_negative : 0 <= ANALYSIS_MAX_SEGMENTS settings.

Lemma validate_loop_in_range segments : forall validados w,
  all_in_range validados ->
  wp (validate_loop video segments validados)
     (fun r _ => forall l, r = Val l -> all_in_range l) w.
Proof.
  induction segments as [|seg rest IH]; intros validados w Hv; simpl.
  - wp_steps. returned. exact Hv.
  - destruct (validate_one video seg) as [v| |msg|e] eqn:E.
    + apply IH. apply Forall_app. split; [exact Hv|].
      repeat constructor. eapply validate_one_in_range; eassumption.
    + now apply IH.
    + wp_steps. now apply IH.
    + wp_steps. returned.
Qed.

Lemma validate_segments_selected segments w :
  wp (_validate_segments settings video segments)
     (fun r _ =>
        forall l, r = Val l -> selected (ANALYSIS_MAX_SEGMENTS settings) l) w.
Proof.
  unfold _validate_segments. apply wp_bind.
  eapply wp_mono; [apply (validate_loop_in_range segments []); constructor|].
  intros [l|e] w' H; simpl.
  - wp_steps. returned.
    apply selected_slice; [assumption | now apply H].
  - intros; returned.
Qed.

(** Every failure of the identification ends in an empty list, so it
    always returns. *)
Lemma identify_selected transcription w :
  wp (_identify_important_segments env settings video transcription)
     (fun r _ =>
        exists l, r = Val l /\ selected (ANALYSIS_MAX_SEGMENTS settings) l) w.
Proof.
  unfold _identify_important_segments. wp_steps.
  all: try solve [eexists; split; [reflexivity | apply selected_nil]].
  eapply wp_mono; [apply validate_segments_selected|].
  intros [?|?] ? Hsel; simpl; wp_steps.
  - eexists; split; [reflexivity | now apply Hsel].
  - eexists; split; [reflexivity | apply selected_nil].
Qed.

Lemma wp_skip {A B} (m : M A) (k : A -> M B) Q w :
  (forall a w', wp (k a) Q w') ->
  (forall e w', Q (Exc e) w') ->
  wp (bind m k) Q w.
Proof.
  intros Hk He. apply wp_bind. apply wp_any. intros [a|e] w'; auto.
Qed.

(** What [analyze] returns as segments went through the validation. *)
Lemma analyze_selected w :
  wp (analyze env settings video)
     (fun r _ =>
        forall resumen l,
          r = Val (resumen, l) ->
          selected (ANALYSIS_MAX_SEGMENTS settings) l) w.
Proof.
  unfold analyze. apply wp_try_except.
  assert (Hraise : forall e w',
             wp (let error_msg := "Error al analizar video: " +:+ str e in
                 _log_progress video "analisis_ia" L_error error_msg
                               (Some (str e)) ;;;
                 logger_error error_msg ;;;
                 @raise (RawSummary * list ValidSegment)
                        (AnalysisError error_msg))
                (fun r _ =>
                   forall resumen l,
                     r = Val (resumen, l) ->
                     selected (ANALYSIS_MAX_SEGMENTS settings) l) w').
  { intros e w'. wp_steps; returned. }
  do 5 (apply wp_skip; [intros ? ?|intros; apply Hraise]).
  apply wp_bind. eapply wp_mono; [apply identify_selected|].
  intros ? ? (segs & -> & Hsel); simpl.
  do 3 (apply wp_skip; [intros ? ?|intros; apply Hraise]).
  wp_steps. returned. subst. exact Hsel.
Qed.

Lemma validate_loop_keeps I segments : forall validados,
  (forall line w, I w -> I (set_applog (fun l => l ++ [line]) w)) ->
  preserves I (validate_loop video segments validados).
Proof.
  induction segments as [|seg rest IH]; intros validados Hlog; simpl.
  - inv_steps.
  - destruct (validate_one video seg); [now apply IH | now apply IH | |].
    + inv_steps; [now apply Hlog | now apply IH].
    + inv_steps.
Qed.

(** [analyze] writes no segment. *)
Lemma analyze_keeps_segmentos rows :
  preserves (fun w => segmentos w = rows) (analyze env settings video).
Proof.
  unfold analyze, _get_transcription, _generate_executive_summary,
    _identify_important_segments, _validate_segments, _save_analysis.
  inv_steps; try assumption.
  apply validate_loop_keeps. intros line w E. exact E.
Qed.

End Service.

(** ** The rows that the task creates *)

(** [rows] are the rows created for [segs], numbered from [i]. *)
Fixpoint created (video_id i : Z) (segs : list ValidSegment)
    (rows : list Segmento) : Prop :=
  match segs, rows with
  | [], [] => True
  | seg :: segs', row :: rows' =>
      s_video row = video_id
      /\ s_orden row = i
      /\ s_relevancia_score row = vs_relevancia seg
      /\ created video_id (i + 1) segs' rows'
  | _, _ => False
  end.

Lemma create_segmentos_spec video segs : forall i w,
  wp (create_segmentos video i segs)
     (fun r w' =>
        exists rows,
          segmentos w' = segmentos w ++ rows
          /\ created (v_id video) i (take (length rows) segs) rows
          /\ forall n, r = Val n -> n = length rows) w.
Proof.
  induction segs as [|seg rest IH]; intros i w; simpl.
  - wp_steps. exists []. rewrite app_nil_r. repeat split.
    intros; returned. reflexivity.
  - apply wp_bind. apply wp_segmento_create.
    + intros row Hvideo Horden Hscore. apply wp_bind.
      eapply wp_mono; [apply IH|].
      intros r w' (rows & E & Hrows & Hn). simpl in E.
      assert (Hall : segmentos w' = segmentos w ++ row :: rows
                     /\ created (v_id video) i
                                (take (length (row :: rows)) (seg :: rest))
                                (row :: rows)).
      { split; [now rewrite E, <- app_assoc | simpl; auto]. }
      destruct Hall as [E' Hall].
      destruct r as [n|e]; wp_steps; exists (row :: rows);
        (split; [exact E'|]; split; [exact Hall|]); intros; returned.
      simpl. f_equal. now apply Hn.
    + exists []. rewrite app_nil_r. repeat split. intros; returned.
Qed.

Lemma created_length video_id segs : forall i rows,
  created video_id i segs rows -> length rows = length segs.
Proof.
  induction segs as [|seg segs IH]; intros i [|row rows]; simpl; try tauto.
  intros (_ & _ & _ & H). f_equal. eapply IH; eassumption.
Qed.

Lemma created_scores video_id segs : forall i rows,
  created video_id i segs rows ->
  s_relevancia_score <$> rows = vs_relevancia <$> segs.
Proof.
  induction segs as [|seg segs IH]; intros i [|row rows]; simpl; try tauto.
  intros (_ & _ & -> & H). f_equal. eapply IH; eassumption.
Qed.

Lemma created_orden video_id segs : forall i rows k row,
  created video_id i segs rows ->
  rows !! k = Some row ->
  s_orden row = i + Z.of_nat k /\ s_video row = video_id.
Proof.
  induction segs as [|seg segs IH]; intros i [|r rows] k row; simpl;
    try tauto; try discriminate.
  intros (Hv & Ho & _ & H). destruct k as [|k]; simpl.
  - intros [= <-]. split; [lia | exact Hv].
  - intros Hk. destruct (IH _ _ _ _ H Hk) as [E1 E2]. split; [lia | exact E2].
Qed.

Lemma StronglySorted_fmap {A B} (f : A -> B) (R : B -> B -> Prop) l :
  StronglySorted (fun a b => R (f a) (f b)) l ->
  StronglySorted R (f <$> l).
Proof.
  induction 1 as [|x l Hs IH Hx]; simpl; constructor; [exact IH|].
  apply Forall_fmap. exact Hx.
Qed.

(** What the task adds to the table of segments. *)
Definition recorded (max_segments video_id : Z) (new : list Segmento)
  : Prop :=
  (length new <= Z.to_nat max_segments)%nat
  /\ Forall in_range (s_relevancia_score <$> new)
  /\ StronglySorted at_least (s_relevancia_score <$> new)
  /\ forall k row,
      new !! k = Some row ->
      s_orden row = Z.of_nat k + 1 /\ s_video row = video_id.

Lemma created_recorded max_segments video_id segs rows :
  selected max_segments segs ->
  created video_id 1 (take (length rows) segs) rows ->
  recorded max_segments video_id rows.
Proof.
  intros (Hrange & Hsorted & Hlen) Hrows.
  pose proof (created_length _ _ _ _ Hrows) as Hl.
  pose proof (created_scores _ _ _ _ Hrows) as Hs.
  rewrite length_take in Hl.
  split; [lia|]. rewrite Hs. split; [|split].
  - apply Forall_fmap. apply Forall_take. exact Hrange.
  - apply StronglySorted_fmap. apply StronglySorted_take. exact Hsorted.
  - intros k row Hk. destruct (created_orden _ _ _ _ _ _ Hrows Hk).
    split; [lia | assumption].
Qed.

Lemma recorded_nil max_segments video_id : recorded max_segments video_id [].
Proof.
  split; [simpl; lia|]. split; [constructor|]. split; [constructor|].
  intros k row. rewrite lookup_nil. discriminate.
Qed.

Section Task.

Context (env : Env) (settings : Settings).

Hypothesis max_segments_not_negative : 0 <= ANALYSIS_MAX_SEGMENTS settings.

Definition task_post (video_id : Z) (w : World) (r : Res AnalizarResult)
    (w' : World) : Prop :=
  exists new,
    segmentos w' = segmentos w ++ new
    /\ recorded (ANALYSIS_MAX_SEGMENTS settings) video_id new
    /\ forall result,
        r = Val result -> ar_segmentos_identificados result = length new.

Lemma analizar_records retries video_id w :
  wp (analizar_video_task env settings retries video_id)
     (task_post video_id w) w.
Proof.
  unfold analizar_video_task. apply wp_try_except.
  set (Q := fun (r : Res AnalizarResult) w' =>
              match r with
              | Val a => task_post video_id w (Val a) w'
              | Exc e => _
              end).
  assert (Hfail : forall new e w',
             segmentos w' = segmentos w ++ new ->
             recorded (ANALYSIS_MAX_SEGMENTS settings) video_id new ->
             Q (Exc e) w').
  { intros new e w' E Hnew. unfold Q.
    destruct e; wp_steps; simpl; exists new;
      (split; [exact E|]; split; [exact Hnew|]); intros; returned. }
  assert (Hsame : forall e w', segmentos w' = segmentos w -> Q (Exc e) w').
  { intros e w' E. apply (Hfail []); [now rewrite app_nil_r|].
    apply recorded_nil. }
  apply UpsertFacts.wp_bind_inv with (I := fun w' => segmentos w' = segmentos w);
    [inv_steps; assumption | reflexivity | | exact Hsame].
  intros _ w1 E1.
  apply wp_bind. apply wp_video_get.
  destruct (videos w1 !! video_id) as [v|]; [|now apply Hsame].
  cbv zeta.
  apply UpsertFacts.wp_bind_inv with (I := fun w' => segmentos w' = segmentos w);
    [inv_steps; assumption | exact E1 | | exact Hsame].
  intros _ w2 E2.
  apply UpsertFacts.wp_bind_inv with (I := fun w' => segmentos w' = segmentos w);
    [inv_steps; assumption | exact E2 | | exact Hsame].
  intros _ w3 E3.
  apply wp_bind.
  eapply wp_mono;
    [apply wp_and;
     [apply (analyze_selected env settings _ max_segments_not_negative)
     |apply preserves_wp;
      [apply (analyze_keeps_segmentos env settings _ (segmentos w))
      |exact E3]]|].
  intros [[resumen segs]|e] w4 [Hsel E4]; simpl; [|now apply Hsame].
  specialize (Hsel resumen segs eq_refl).
  apply wp_bind. eapply wp_mono; [apply create_segmentos_spec|].
  intros r w5 (rows & E5 & Hrows & Hn). rewrite E4 in E5. simpl in Hrows.
  assert (Hrec : recorded (ANALYSIS_MAX_SEGMENTS settings) video_id rows).
  { eapply created_recorded; eassumption. }
  destruct r as [n|e]; [|now apply (Hfail rows)].
  wp_steps. simpl. exists rows. split; [exact E5|]. split; [exact Hrec|].
  intros; returned. simpl. now apply Hn.
Qed.

End Task.

(** C5, amended: what a run of the analysis task adds to the table of
    segments is at most [ANALYSIS_MAX_SEGMENTS] rows, each with a
    relevance between 1 and 10, in descending order of relevance, the
    row at position [k] (from 0) with [orden = k + 1]; a run that
    returns reports their number.  No minimum is enforced. *)
Theorem analysis_records_at_most_max_segments_by_relevance
    env settings retries video_id w :
  0 <= ANALYSIS_MAX_SEGMENTS settings ->
  exists new,
    segmentos (snd (analizar_video_task env settings retries video_id w))
    = segmentos w ++ new
    /\ (length new <= Z.to_nat (ANALYSIS_MAX_SEGMENTS settings))%nat
    /\ Forall in_range (s_relevancia_score <$> new)
    /\ StronglySorted at_least (s_relevancia_score <$> new)
    /\ (forall k row,
          new !! k = Some row ->
          s_orden row = Z.of_nat k + 1 /\ s_video row = video_id)
    /\ (forall result,
          fst (analizar_video_task env settings retries video_id w)
          = Val result ->
          ar_segmentos_identificados result = length new).
Proof.
  intros Hmax.
  pose proof (analizar_records env settings Hmax retries video_id w) as H.
  unfold wp, task_post, recorded in H.
  destruct H as (new & E & (H1 & H2 & H3 & H4) & H5).
  exists new. auto 10.
Qed.

(** A lecture with a transcript, and a language model that answers
    with one segment where the prompt asked for 3 to 10. *)
Definition lecture : World :=
  set_transcripciones
    (fun _ =>
       [mkTranscripcion 1 "hola a todos" "es" 95
                        [mkTimedText 0 5 "hola a todos" []] "whisper-1"])
    RetryFacts.one_video.

Definition one_segment_answer : Env :=
  mkEnv (fun _ _ => true) (fun _ _ => 0) (fun _ _ => None)
        (fun _ _ => FfDone true) (fun _ _ => None)
        (fun _ _ => inr (OE_download "unused"))
        (fun _ _ => inr (OE_other "unused"))
        (fun _ _ => inr (OE_other "unused"))
        (fun _ _ => inl (mkRawSummary "Un saludo." ["saludo"] [] []))
        (fun _ _ =>
           inl [mkRaw true (Conv_ok "Saludo") (Conv_ok "El saludo inicial")
                      (Conv_ok 0) (Conv_ok 5) "introduccion"
                      (Conv_ok (Py.Finite 12))])
        (fun _ _ _ => inl "task-1").

Lemma lecture_run :
  let (r, w') :=
    analizar_video_task one_segment_answer RetryFacts.some_settings 0 1
                        lecture in
  r = Val (mkAnalizar 1 1 true)
  /\ segmentos w'
     = [mkSegmento 1 1 "Saludo" "El saludo inicial" 0 5 5 1 (Py.Finite 10)
                   "introduccion" None None].
Proof. vm_compute. split; reflexivity. Qed.

(** C5, as stated, fails: with [ANALYSIS_MIN_SEGMENTS = 3] the run
    records the single segment of the answer. *)
Lemma analysis_records_fewer_than_min_segments :
  ~ (forall env settings retries video_id w,
        0 <= ANALYSIS_MIN_SEGMENTS settings <= ANALYSIS_MAX_SEGMENTS settings ->
        exists new,
          segmentos (snd (analizar_video_task env settings retries video_id w))
          = segmentos w ++ new
          /\ (Z.to_nat (ANALYSIS_MIN_SEGMENTS settings) <= length new
              <= Z.to_nat (ANALYSIS_MAX_SEGMENTS settings))%nat
          /\ Forall in_range (s_relevancia_score <$> new)
          /\ StronglySorted at_least (s_relevancia_score <$> new)
          /\ (forall k row,
                new !! k = Some row -> s_orden row = Z.of_nat k + 1)).
Proof.
  intros H.
  destruct (H one_segment_answer RetryFacts.some_settings 0%nat 1 lecture)
    as (new & E & [Hmin _] & _); [simpl; lia|].
  pose proof lecture_run as Hrun.
  destruct (analizar_video_task _ _ _ _ _) as [r w'].
  destruct Hrun as [_ Hrows]. simpl in E. rewrite Hrows in E.
  change (segmentos lecture) with (@nil Segmento) in E. simpl in E.
  subst new. simpl in Hmin. lia.
Qed.

Lemma analysis_records_at_most_max_segments_witness :
  0 <= ANALYSIS_MAX_SEGMENTS RetryFacts.some_settings
  /\ exists new,
      segmentos (snd (analizar_video_task one_segment_answer
                                          RetryFacts.some_settings 0 1 lecture))
      = segmentos lecture ++ new
      /\ (length new
          <= Z.to_nat (ANALYSIS_MAX_SEGMENTS RetryFacts.some_settings))%nat
      /\ Forall in_range (s_relevancia_score <$> new)
      /\ StronglySorted at_least (s_relevancia_score <$> new)
      /\ (forall k row,
            new !! k = Some row ->
            s_orden row = Z.of_nat k + 1 /\ s_video row = 1)
      /\ (forall result,
            fst (analizar_video_task one_segment_answer
                                     RetryFacts.some_settings 0 1 lecture)
            = Val result ->
            ar_segmentos_identificados result = length new).
Proof.
  assert (Hmax : 0 <= ANALYSIS_MAX_SEGMENTS RetryFacts.some_settings)
    by (simpl; lia).
  split; [exact Hmax|].
  apply (analysis_records_at_most_max_segments_by_relevance
           one_segment_answer RetryFacts.some_settings 0%nat 1 lecture Hmax).
Defined.

End AnalysisFacts.

(** * What the services raise, and when they give up early *)

Module ServiceFacts.

Import Analysis Transcription Segmentation Tasks Stages.

(** The result is a value or an exception of the class [own]. *)
Definition raises_only {A} (own : string -> Exn) (r : Res A) : Prop :=
  match r with
  | Val _ => True
  | Exc e => exists msg, e = own msg
  end.

(** The result is a value, an exception of the class [own], or an
    exception of a class that the service does not name. *)
Definition raises_own_or_other {A} (own : string -> Exn) (r : Res A) : Prop :=
  match r with
  | Val _ => True
  | Exc e => (exists msg, e = own msg) \/ (exists msg, e = OtherException msg)
  end.

(** No [ffmpeg.Error] comes with an error output that is not UTF-8. *)
Definition stderr_decodes (env : Env) : Prop :=
  forall t msg,
    (forall cmd, ffmpeg env t cmd <> FfRaises (OE_ffmpeg (Undecodable msg)))
    /\ (forall p, storage_save env t p <> Some (OE_ffmpeg (Undecodable msg))).

Ltac own_error :=
  apply wp_try_except; apply wp_any; intros [?|[]] ?;
  [exact I | wp_steps; simpl; eauto ..].

Lemma undecodable stderr msg :
  stderr_text stderr = inr msg -> stderr = Undecodable msg.
Proof. destruct stderr; simpl; congruence. Qed.

Lemma exn_of_ffmpeg e stderr :
  exn_of e = FfmpegError stderr -> e = OE_ffmpeg stderr.
Proof. destruct e; simpl; congruence. Qed.

(** When the error output decodes, the path through [decode()] that
    raises is not taken. *)
Ltac decoded Hdec :=
  simpl; try exact I; try (eexists; reflexivity);
  repeat match goal with
         | H : stderr_text _ = inr _ |- _ => apply undecodable in H; subst
         | H : exn_of _ = FfmpegError _ |- _ => apply exn_of_ffmpeg in H; subst
         end;
  try (exfalso;
       match goal with
       | H : ffmpeg _ ?t ?cmd = FfRaises (OE_ffmpeg (Undecodable ?msg)) |- _ =>
           exact (proj1 (Hdec t msg) cmd H)
       | H : storage_save _ ?t ?p = Some (OE_ffmpeg (Undecodable ?msg)) |- _ =>
           exact (proj2 (Hdec t msg) p H)
       end).

(** X1: [download], [transcribe], [analyze] and [segment_video] turn
    whatever fails inside them into their own exception class.
    [extract] and [generate] do so when the error output of FFmpeg
    decodes; when it does not, the [decode()] in their handler raises,
    and that exception is what leaves them. *)
Theorem services_raise_only_their_own_error
    env settings video mode path w :
  raises_only VideoDownloadError (fst (Services.download env video w))
  /\ raises_own_or_other AudioExtractionError
       (fst (Services.extract env settings video path w))
  /\ raises_own_or_other ThumbnailGenerationError
       (fst (Services.generate env settings video path w))
  /\ raises_only TranscriptionError
       (fst (transcribe env settings video mode path w))
  /\ raises_only AnalysisError (fst (analyze env settings video w))
  /\ raises_only SegmentationError
       (fst (segment_video env settings video path w))
  /\ (stderr_decodes env ->
      raises_only AudioExtractionError
        (fst (Services.extract env settings video path w))
      /\ raises_only ThumbnailGenerationError
           (fst (Services.generate env settings video path w))).
Proof.
  split; [|split; [|split; [|split; [|split; [|split]]]]].
  - change (wp (Services.download env video)
               (fun r _ => raises_only VideoDownloadError r) w).
    unfold Services.download. own_error.
  - change (wp (Services.extract env settings video path)
               (fun r _ => raises_own_or_other AudioExtractionError r) w).
    unfold Services.extract. own_error.
  - change (wp (Services.generate env settings video path)
               (fun r _ => raises_own_or_other ThumbnailGenerationError r) w).
    unfold Services.generate. own_error.
  - change (wp (transcribe env settings video mode path)
               (fun r _ => raises_only TranscriptionError r) w).
    unfold transcribe. own_error.
  - change (wp (analyze env settings video)
               (fun r _ => raises_only AnalysisError r) w).
    unfold analyze. own_error.
  - change (wp (segment_video env settings video path)
               (fun r _ => raises_only SegmentationError r) w).
    unfold segment_video. own_error.
  - intros Hdec. split.
    + change (wp (Services.extract env settings video path)
                 (fun r _ => raises_only AudioExtractionError r) w).
      unfold Services.extract. wp_steps. all: decoded Hdec.
    + change (wp (Services.generate env settings video path)
                 (fun r _ => raises_only ThumbnailGenerationError r) w).
      unfold Services.generate. wp_steps. all: decoded Hdec.
Qed.

Lemma services_raise_only_their_own_error_witness :
  stderr_decodes RetryFacts.quiet_env
  /\ raises_only AudioExtractionError
       (fst (Services.extract RetryFacts.quiet_env RetryFacts.some_settings
                              TranscriptionFacts.stored_video
                              "/media/videos/video_1.mp4"
                              RetryFacts.one_video))
  /\ raises_only ThumbnailGenerationError
       (fst (Services.generate RetryFacts.quiet_env RetryFacts.some_settings
                               TranscriptionFacts.stored_video
                               "/media/videos/video_1.mp4"
                               RetryFacts.one_video)).
Proof.
  assert (H : stderr_decodes RetryFacts.quiet_env).
  { intros t msg. split; intros; discriminate. }
  split; [exact H|].
  destruct (services_raise_only_their_own_error
              RetryFacts.quiet_env RetryFacts.some_settings
              TranscriptionFacts.stored_video "api"
              "/media/videos/video_1.mp4" RetryFacts.one_video)
    as (_ & _ & _ & _ & _ & _ & Hdecodes).
  exact (Hdecodes H).
Defined.

(** An FFmpeg whose error output is not UTF-8. *)
Definition garbled_stderr : Env :=
  mkEnv (fun _ _ => true) (fun _ _ => 0) (fun _ _ => None)
        (fun _ _ =>
           FfRaises
             (OE_ffmpeg
                (Undecodable
                   "'utf-8' codec can't decode byte 0xff in position 0: invalid start byte")))
        (fun _ _ => None)
        (fun _ _ => inr (OE_download "unused"))
        (fun _ _ => inr (OE_other "unused"))
        (fun _ _ => inr (OE_other "unused"))
        (fun _ _ => inr (OE_other "unused"))
        (fun _ _ => inr (OE_other "unused"))
        (fun _ _ _ => inl "task-1").

(** With it, what leaves [extract] and [generate] is the error of
    [decode()], not [AudioExtractionError] or
    [ThumbnailGenerationError]. *)
Example decode_error_leaves_the_service :
  fst (Services.extract garbled_stderr RetryFacts.some_settings
                        TranscriptionFacts.stored_video
                        "/media/videos/video_1.mp4" RetryFacts.one_video)
  = Exc (OtherException
           "'utf-8' codec can't decode byte 0xff in position 0: invalid start byte")
  /\ fst (Services.generate garbled_stderr RetryFacts.some_settings
                            TranscriptionFacts.stored_video
                            "/media/videos/video_1.mp4" RetryFacts.one_video)
     = Exc (OtherException
              "'utf-8' codec can't decode byte 0xff in position 0: invalid start byte").
Proof. vm_compute. split; reflexivity. Qed.

(** The tables and the record of outside calls are the same. *)
Definition same_data (w w' : World) : Prop :=
  videos w' = videos w
  /\ transcripciones w' = transcripciones w
  /\ resumenes w' = resumenes w
  /\ segmentos w' = segmentos w
  /\ logs w' = logs w
  /\ calls w' = calls w
  /\ tick w' = tick w.

(** X2: for an id that has no row, an attempt of any stage raises
    [Video.DoesNotExist] at once: nothing is asked outside, nothing is
    written but the worker's log, and no retry is scheduled. *)
Theorem missing_video_raises_DoesNotExist
    env settings s video_id path retries w :
  videos w !! video_id = None ->
  fst (stage_attempt env settings s video_id path retries w)
  = Exc DoesNotExist
  /\ same_data w (snd (stage_attempt env settings s video_id path retries w)).
Proof.
  intros Hnone.
  destruct s; unfold stage_attempt, descargar_video_task, extraer_audio_task,
    generar_miniatura_task, transcribir_audio_task, analizar_video_task,
    segmentar_video_task;
    unfold try_except, bind, logger_info, logger_error, modify, video_get,
      raise; simpl; rewrite Hnone; simpl;
    repeat split; reflexivity.
Qed.

Lemma missing_video_witness :
  videos RetryFacts.one_video !! 7 = None
  /\ fst (stage_attempt RetryFacts.quiet_env RetryFacts.some_settings
                        AnalysisStage 7 "" 0 RetryFacts.one_video)
     = Exc DoesNotExist
  /\ same_data RetryFacts.one_video
       (snd (stage_attempt RetryFacts.quiet_env RetryFacts.some_settings
                           AnalysisStage 7 "" 0 RetryFacts.one_video)).
Proof.
  assert (H : videos RetryFacts.one_video !! 7 = None) by reflexivity.
  split; [exact H|].
  apply (missing_video_raises_DoesNotExist
           RetryFacts.quiet_env RetryFacts.some_settings AnalysisStage 7 ""
           0%nat RetryFacts.one_video H).
Defined.

(** What a run adds to the record of outside calls. *)
Definition no_new_call (w w' : World) : Prop :=
  calls w' = calls w /\ tick w' = tick w.

(** X3: a video without URL is not downloaded: [download] raises
    [VideoDownloadError], with the message of the inner error wrapped
    by the handler of unexpected errors, and yt-dlp is not asked. *)
Theorem download_without_url_is_refused env video w :
  Py.truthy_str (v_url_original video) = false ->
  fst (Services.download env video w)
  = Exc (VideoDownloadError
           "Error inesperado en descarga: No se proporcionó URL de video")
  /\ no_new_call w (snd (Services.download env video w)).
Proof.
  intros Hurl.
  change (wp (Services.download env video)
             (fun r w' =>
                r = Exc (VideoDownloadError
                           "Error inesperado en descarga: No se proporcionó URL de video")
                /\ no_new_call w w') w).
  unfold Services.download.
  repeat (first [ rewrite Hurl | wp_step ]); simpl;
    unfold no_new_call; repeat split; reflexivity.
Qed.

Lemma download_without_url_witness :
  Py.truthy_str (v_url_original (mkVideo 1 "Clase 1" None None E_pendiente None))
  = false
  /\ fst (Services.download RetryFacts.quiet_env
                            (mkVideo 1 "Clase 1" None None E_pendiente None)
                            RetryFacts.one_video)
     = Exc (VideoDownloadError
              "Error inesperado en descarga: No se proporcionó URL de video")
  /\ no_new_call RetryFacts.one_video
       (snd (Services.download RetryFacts.quiet_env
                               (mkVideo 1 "Clase 1" None None E_pendiente None)
                               RetryFacts.one_video)).
Proof.
  split; [reflexivity|].
  apply (download_without_url_is_refused
           RetryFacts.quiet_env
           (mkVideo 1 "Clase 1" None None E_pendiente None)
           RetryFacts.one_video).
  reflexivity.
Defined.

(** X4: a video without transcript is not analysed: [analyze] raises
    [AnalysisError], the language model is not called, and no summary
    or segment is written. *)
Theorem analyze_without_transcript_is_refused env settings video w :
  has_transcripcion (v_id video) w = false ->
  fst (analyze env settings video w)
  = Exc (AnalysisError
           "Error al analizar video: El video no tiene transcripción")
  /\ no_new_call w (snd (analyze env settings video w))
  /\ resumenes (snd (analyze env settings video w)) = resumenes w
  /\ segmentos (snd (analyze env settings video w)) = segmentos w.
Proof.
  intros Hnone. apply UpsertFacts.has_transcripcion_false in Hnone.
  assert (Hno : forall t, t ∈ transcripciones w -> t_video t <> v_id video).
  { intros t Hin Ht. apply Hnone. apply Exists_exists. eauto. }
  change (wp (analyze env settings video)
             (fun r w' =>
                r = Exc (AnalysisError
                           "Error al analizar video: El video no tiene transcripción")
                /\ no_new_call w w'
                /\ resumenes w' = resumenes w
                /\ segmentos w' = segmentos w) w).
  unfold analyze, _get_transcription.
  wp_steps; simpl in *;
    try match goal with
        | Hin : ?t ∈ transcripciones w, Ht : t_video ?t = _ |- _ =>
            exfalso; exact (Hno t Hin Ht)
        end;
    try discriminate;
    unfold no_new_call; repeat split; reflexivity.
Qed.

Lemma analyze_without_transcript_witness :
  has_transcripcion (v_id TranscriptionFacts.stored_video) RetryFacts.one_video
  = false
  /\ fst (analyze RetryFacts.quiet_env RetryFacts.some_settings
                  TranscriptionFacts.stored_video RetryFacts.one_video)
     = Exc (AnalysisError
              "Error al analizar video: El video no tiene transcripción")
  /\ no_new_call RetryFacts.one_video
       (snd (analyze RetryFacts.quiet_env RetryFacts.some_settings
                     TranscriptionFacts.stored_video RetryFacts.one_video))
  /\ resumenes (snd (analyze RetryFacts.quiet_env RetryFacts.some_settings
                             TranscriptionFacts.stored_video
                             RetryFacts.one_video))
     = resumenes RetryFacts.one_video
  /\ segmentos (snd (analyze RetryFacts.quiet_env RetryFacts.some_settings
                             TranscriptionFacts.stored_video
                             RetryFacts.one_video))
     = segmentos RetryFacts.one_video.
Proof.
  split; [reflexivity|].
  apply (analyze_without_transcript_is_refused
           RetryFacts.quiet_env RetryFacts.some_settings
           TranscriptionFacts.stored_video RetryFacts.one_video).
  reflexivity.
Defined.

(** X5: the identification of segments never raises: whatever fails
    in it (no transcript, no timestamps, the call to the language
    model, the validation) is logged and an empty list is returned, so
    the analysis goes on with the summary alone.  When the language
    model cannot be reached the list is empty. *)
Theorem identification_never_raises env settings video transcription w :
  exists l,
    fst (_identify_important_segments env settings video transcription w)
    = Val l
    /\ ((forall t prompt, exists e, gpt_segments env t prompt = inr e) ->
        l = []).
Proof.
  change (wp (_identify_important_segments env settings video transcription)
             (fun r _ =>
                exists l,
                  r = Val l
                  /\ ((forall t prompt,
                          exists e, gpt_segments env t prompt = inr e) ->
                      l = [])) w).
  unfold _identify_important_segments. wp_steps.
  all: try solve [eexists; split; [reflexivity | intros _; reflexivity]].
  apply wp_any. intros [?|?] ?; wp_steps.
  all: eexists; split; [reflexivity|]; intros Hfail.
  all: match goal with
       | E : gpt_segments _ ?t ?p = inl _ |- _ =>
           destruct (Hfail t p) as [? Hinr]; congruence
       | _ => reflexivity
       end.
Qed.

(** X6: in API mode an audio file of at most 25MB, the limit
    included, is sent to the remote API: one call, with the path of
    the file, and none to the local model. *)
Theorem api_is_called_up_to_25MB env settings video audio_path w :
  path_exists env (tick w) audio_path = true ->
  stat_size env (S (tick w)) audio_path <= 25 * MB ->
  calls (snd (transcribe env settings video "api" audio_path w))
  = calls w ++ [C_whisper_api audio_path].
Proof.
  intros Hexists Hsize. apply TranscriptionFacts.not_over_25MB in Hsize.
  change (wp (transcribe env settings video "api" audio_path)
             (fun _ w' => calls w' = calls w ++ [C_whisper_api audio_path]) w).
  unfold transcribe, _transcribe_with_api, _save_transcription.
  repeat (first [ progress simpl | rewrite Hexists | rewrite Hsize | wp_step ]);
    try discriminate; reflexivity.
Qed.

Definition audio_of_25MB : Env :=
  mkEnv (fun _ _ => true) (fun _ _ => 25 * (1024 * 1024)) (fun _ _ => None)
        (fun _ _ => FfDone true) (fun _ _ => None)
        (fun _ _ => inr (OE_download "unused"))
        (fun _ _ => inl (mkWhisper "hola" "es" []))
        (fun _ _ => inr (OE_other "unused"))
        (fun _ _ => inr (OE_other "unused"))
        (fun _ _ => inr (OE_other "unused"))
        (fun _ _ _ => inl "task-1").

Lemma api_is_called_up_to_25MB_witness :
  path_exists audio_of_25MB (tick RetryFacts.one_video)
              "/media/audio/audio_1.mp3" = true
  /\ stat_size audio_of_25MB (S (tick RetryFacts.one_video))
               "/media/audio/audio_1.mp3" <= 25 * MB
  /\ calls (snd (transcribe audio_of_25MB RetryFacts.some_settings
                            TranscriptionFacts.stored_video "api"
                            "/media/audio/audio_1.mp3" RetryFacts.one_video))
     = calls RetryFacts.one_video ++ [C_whisper_api "/media/audio/audio_1.mp3"].
Proof.
  assert (H1 : path_exists audio_of_25MB (tick RetryFacts.one_video)
                           "/media/audio/audio_1.mp3" = true) by reflexivity.
  assert (H2 : stat_size audio_of_25MB (S (tick RetryFacts.one_video))
                         "/media/audio/audio_1.mp3" <= 25 * MB)
    by (vm_compute; discriminate).
  split; [exact H1|]. split; [exact H2|].
  apply (api_is_called_up_to_25MB
           audio_of_25MB RetryFacts.some_settings
           TranscriptionFacts.stored_video "/media/audio/audio_1.mp3"
           RetryFacts.one_video H1 H2).
Defined.

(** Rounding to the nearest integer stays between integer bounds. *)
Lemma round_half_even_bounds (q : Q) (a b : Z) :
  (inject_Z a <= q)%Q -> (q <= inject_Z b)%Q ->
  a <= Py.round_half_even q <= b.
Proof.
  destruct q as [n d]. unfold Qle, inject_Z, Py.round_half_even. simpl.
  rewrite !Z.mul_1_r. intros Ha Hb.
  pose proof (Z.div_mod n (Z.pos d) ltac:(lia)) as Hdm.
  pose proof (Z.mod_pos_bound n (Z.pos d) ltac:(lia)) as Hr.
  set (f := n / Z.pos d) in *. set (r := n mod Z.pos d) in *.
  assert (Hf : a <= f) by nia.
  assert (Hf' : f <= b) by nia.
  assert (Hup : 0 < r -> f + 1 <= b) by nia.
  destruct (2 * r ?= Z.pos d) eqn:E.
  - apply Z.compare_eq in E. destruct (Z.even f); lia.
  - lia.
  - apply Z.compare_gt_iff in E. lia.
Qed.

(** X7: the estimated precision of a transcript is a percentage,
    whatever log-probabilities the model reports. *)
Theorem precision_is_a_percentage mode result :
  (0 <= _calculate_precision mode result)%Q
  /\ (_calculate_precision mode result <= 100)%Q.
Proof.
  unfold _calculate_precision.
  destruct (wr_segments result) as [|seg segs]; [split; discriminate|].
  destruct (decide (mode = "api")); [split; discriminate|].
  cbv zeta. set (x := ((1 + _) * 100)%Q).
  assert (H0 : (0 <= Qmin 100 (Qmax 0 x))%Q).
  { apply Q.min_glb; [discriminate | apply Q.le_max_l]. }
  assert (H100 : (Qmin 100 (Qmax 0 x) <= 100)%Q) by apply Q.le_min_l.
  set (y := Qmin 100 (Qmax 0 x)) in *.
  destruct (round_half_even_bounds (y * 100) 0 10000) as [Hlo Hhi].
  - change (inject_Z 0) with (0 * 100)%Q.
    apply Qmult_le_compat_r; [exact H0 | discriminate].
  - change (inject_Z 10000) with (100 * 100)%Q.
    apply Qmult_le_compat_r; [exact H100 | discriminate].
  - unfold Py.round2, Qle. simpl. split; lia.
Qed.

End ServiceFacts.

(** * The segments that the validation keeps *)

Module ValidationFacts.

Import Analysis.

(** [len(s[:n]) <= n] *)
Lemma str_take_length s : forall n, (Py.len (Py.str_take n s) <= n)%nat.
Proof.
  induction s as [|c s IH]; intros n; simpl; [lia|].
  destruct (Py.is_continuation c) eqn:Hc.
  - simpl. rewrite Hc. apply IH.
  - destruct n as [|n]; simpl; [lia|].
    rewrite Hc. specialize (IH n). lia.
Qed.

(** [validate_one] keeps a segment only on this path. *)
Lemma validate_one_keep video seg v :
  validate_one video seg = Keep v ->
  exists inicio fin relevancia titulo descripcion,
    raw_timestamp_inicio seg = Conv_ok inicio
    /\ raw_timestamp_fin seg = Conv_ok fin
    /\ raw_relevancia seg = Conv_ok relevancia
    /\ raw_titulo seg = Conv_ok titulo
    /\ raw_descripcion seg = Conv_ok descripcion
    /\ raw_has_keys seg = true
    /\ 0 <= inicio < fin
    /\ v = let fin :=
             if Py.truthy_int (v_duracion_segundos video)
                && (default 0 (v_duracion_segundos video) <? fin)
             then default 0 (v_duracion_segundos video)
             else fin in
           mkValid (Py.str_take 255 titulo) (Py.str_take 500 descripcion)
                   inicio fin (fin - inicio) (clamp_relevancia relevancia)
                   (if bool_decide (raw_tipo seg ∈ tipos_validos)
                    then raw_tipo seg else "otro").
Proof.
  unfold validate_one.
  destruct (raw_has_keys seg); simpl; [|discriminate].
  destruct (raw_timestamp_inicio seg) as [inicio| |]; simpl; try discriminate.
  destruct (raw_timestamp_fin seg) as [fin| |]; simpl; try discriminate.
  destruct ((inicio <? 0) || (fin <=? inicio)) eqn:E; [discriminate|].
  destruct (raw_relevancia seg) as [relevancia| |]; simpl; try discriminate.
  destruct (raw_titulo seg) as [titulo| |]; simpl; try discriminate.
  destruct (raw_descripcion seg) as [descripcion| |]; simpl; try discriminate.
  intros [= <-]. exists inicio, fin, relevancia, titulo, descripcion.
  apply orb_false_iff in E as [E1 E2].
  apply Z.ltb_ge in E1. apply Z.leb_gt in E2.
  repeat split; try reflexivity; lia.
Qed.

(** X8: a segment that the validation keeps starts at 0 or later, has
    [duracion = fin - inicio], a type among the valid ones, a title of
    at most 255 and a description of at most 500 characters, and ends
    no later than the video when its duration is known; its duration
    is positive when it starts before the end of the video or the
    duration of the video is unknown. *)
Theorem kept_segment_is_well_formed video seg v :
  validate_one video seg = Keep v ->
  0 <= vs_timestamp_inicio v
  /\ vs_duracion v = vs_timestamp_fin v - vs_timestamp_inicio v
  /\ vs_tipo v ∈ tipos_validos
  /\ (Py.len (vs_titulo v) <= 255)%nat
  /\ (Py.len (vs_descripcion v) <= 500)%nat
  /\ (forall d,
        v_duracion_segundos video = Some d -> d <> 0 ->
        vs_timestamp_fin v <= d)
  /\ (match v_duracion_segundos video with
      | Some d => d = 0 \/ vs_timestamp_inicio v < d
      | None => True
      end ->
      0 < vs_duracion v).
Proof.
  intros H. apply validate_one_keep in H
    as (inicio & fin & relevancia & titulo & descripcion
        & _ & _ & _ & _ & _ & _ & Hrange & Hv).
  subst v. cbv zeta.
  cbn [vs_timestamp_inicio vs_timestamp_fin vs_duracion vs_tipo vs_titulo
       vs_descripcion].
  split; [lia|]. split; [reflexivity|]. split.
  { destruct (bool_decide (raw_tipo seg ∈ tipos_validos)) eqn:E.
    - now apply bool_decide_eq_true in E.
    - unfold tipos_validos. repeat constructor. }
  split; [apply str_take_length|]. split; [apply str_take_length|].
  destruct (v_duracion_segundos video) as [d|]; cbn [Py.truthy_int default from_option id]; unfold id.
  - split.
    + intros d' [= <-] Hd. apply Z.eqb_neq in Hd. rewrite Hd.
      cbn [negb andb].
      destruct (d <? fin) eqn:E; cbv iota; [lia|]. apply Z.ltb_ge in E. lia.
    + intros [-> | Hlt]; [cbn; lia|].
      destruct (negb (d =? 0) && (d <? fin)); cbv iota; lia.
  - split; [discriminate|]. intros _. cbn [andb]. lia.
Qed.

Lemma kept_segment_witness :
  validate_one (mkVideo 1 "Clase 1" None (Some 3600) E_analizando None)
               (mkRaw true (Conv_ok "Cierre") (Conv_ok "") (Conv_ok 3000)
                      (Conv_ok 4000) "resumen" (Conv_ok (Py.Finite 8)))
  = Keep (mkValid "Cierre" "" 3000 3600 600 (Py.Finite 8) "otro")
  /\ 0 <= 3000
  /\ 600 = 3600 - 3000
  /\ "otro" ∈ tipos_validos
  /\ (Py.len "Cierre" <= 255)%nat
  /\ (Py.len "" <= 500)%nat
  /\ (forall d, Some 3600 = Some d -> d <> 0 -> 3600 <= d)
  /\ (3600 = 0 \/ 3000 < 3600 -> 0 < 600).
Proof.
  assert (H : validate_one
                (mkVideo 1 "Clase 1" None (Some 3600) E_analizando None)
                (mkRaw true (Conv_ok "Cierre") (Conv_ok "") (Conv_ok 3000)
                       (Conv_ok 4000) "resumen" (Conv_ok (Py.Finite 8)))
              = Keep (mkValid "Cierre" "" 3000 3600 600 (Py.Finite 8) "otro"))
    by (vm_compute; reflexivity).
  split; [exact H|].
  exact (kept_segment_is_well_formed _ _ _ H).
Defined.

(** X9: a segment that the language model places at or after the end
    of the video passes the validation: its end is moved back to the
    duration of the video after the test [fin <= inicio], so it is
    kept with a duration that is zero or negative. *)
Theorem segment_after_the_end_is_kept
    video d seg inicio fin relevancia titulo descripcion :
  v_duracion_segundos video = Some d ->
  0 < d <= inicio ->
  inicio < fin ->
  raw_has_keys seg = true ->
  raw_timestamp_inicio seg = Conv_ok inicio ->
  raw_timestamp_fin seg = Conv_ok fin ->
  raw_relevancia seg = Conv_ok relevancia ->
  raw_titulo seg = Conv_ok titulo ->
  raw_descripcion seg = Conv_ok descripcion ->
  exists v,
    validate_one video seg = Keep v
    /\ vs_timestamp_inicio v = inicio
    /\ vs_timestamp_fin v = d
    /\ vs_duracion v = d - inicio
    /\ vs_duracion v <= 0.
Proof.
  intros Hd Hpos Hlt Hkeys Hi Hf Hr Ht Hdesc.
  unfold validate_one. rewrite Hkeys, Hi, Hf, Hr, Ht, Hdesc, Hd. simpl.
  replace (inicio <? 0) with false by (symmetry; apply Z.ltb_ge; lia).
  replace (fin <=? inicio) with false by (symmetry; apply Z.leb_gt; lia).
  replace (d =? 0) with false by (symmetry; apply Z.eqb_neq; lia).
  replace (d <? fin) with true by (symmetry; apply Z.ltb_lt; lia).
  simpl. eexists. split; [reflexivity|]. simpl. repeat split; lia.
Qed.

Lemma segment_after_the_end_witness :
  exists v,
    validate_one (mkVideo 1 "Clase 1" None (Some 3600) E_analizando None)
                 (mkRaw true (Conv_ok "Extra") (Conv_ok "") (Conv_ok 4000)
                        (Conv_ok 5000) "otro" (Conv_ok (Py.Finite 8)))
    = Keep v
    /\ vs_timestamp_inicio v = 4000
    /\ vs_timestamp_fin v = 3600
    /\ vs_duracion v = 3600 - 4000
    /\ vs_duracion v <= 0.
Proof.
  apply (segment_after_the_end_is_kept
           (mkVideo 1 "Clase 1" None (Some 3600) E_analizando None) 3600
           (mkRaw true (Conv_ok "Extra") (Conv_ok "") (Conv_ok 4000)
                  (Conv_ok 5000) "otro" (Conv_ok (Py.Finite 8)))
           4000 5000 (Py.Finite 8) "Extra" "");
    first [ reflexivity | lia ].
Defined.

Section Service.

Context (settings : Settings) (video : Video).

(** Every element of [l] is what [validate_one] kept of an element of
    [segments]. *)
Definition kept_from (segments : list RawSegment) (l : list ValidSegment)
  : Prop :=
  Forall (fun v => exists seg, seg ∈ segments /\ validate_one video seg = Keep v)
         l.

Lemma kept_from_weaken segments segments' l :
  (forall seg, seg ∈ segments -> seg ∈ segments') ->
  kept_from segments l -> kept_from segments' l.
Proof.
  intros Hsub Hk. eapply Forall_impl; [exact Hk|].
  intros v (seg & Hin & Hv). eauto.
Qed.

Lemma validate_loop_kept segments : forall done validados w,
  kept_from done validados ->
  (length validados <= length done)%nat ->
  wp (validate_loop video segments validados)
     (fun r _ =>
        forall l,
          r = Val l ->
          kept_from (done ++ segments) l
          /\ (length l <= length (done ++ segments))%nat) w.
Proof.
  induction segments as [|seg rest IH]; intros done validados w Hk Hlen; simpl.
  - wp_steps. AnalysisFacts.returned. rewrite app_nil_r. auto.
  - assert (Hnext : forall validados',
               kept_from (done ++ [seg]) validados' ->
               (length validados' <= length (done ++ [seg]))%nat ->
               forall w',
                 wp (validate_loop video rest validados')
                    (fun r _ =>
                       forall l,
                         r = Val l ->
                         kept_from (done ++ seg :: rest) l
                         /\ (length l <= length (done ++ seg :: rest))%nat) w').
    { intros validados' Hk' Hlen' w'.
      replace (done ++ seg :: rest) with ((done ++ [seg]) ++ rest)
        by now rewrite <- app_assoc.
      now apply IH. }
    assert (Hold : kept_from (done ++ [seg]) validados).
    { eapply kept_from_weaken; [|exact Hk]. set_solver. }
    assert (Hlen' : (length validados <= length (done ++ [seg]))%nat).
    { rewrite length_app. simpl. lia. }
    destruct (validate_one video seg) as [v| |msg|e] eqn:E.
    + apply Hnext.
      * apply Forall_app. split; [exact Hold|].
        repeat constructor. exists seg. split; [set_solver | exact E].
      * rewrite !length_app. simpl. lia.
    + now apply Hnext.
    + wp_steps. now apply Hnext.
    + wp_steps. AnalysisFacts.returned.
Qed.

(** X10: what [_validate_segments] returns are segments that the
    validation kept from the answer of the language model, each taken
    at most once: no segment is made up, and the list is not longer
    than the answer. *)
Theorem validated_segments_come_from_the_answer segments w l :
  fst (_validate_segments settings video segments w) = Val l ->
  kept_from segments l /\ (length l <= length segments)%nat.
Proof.
  revert l.
  change (wp (_validate_segments settings video segments)
             (fun r _ =>
                forall l,
                  r = Val l ->
                  kept_from segments l /\ (length l <= length segments)%nat)
             w).
  unfold _validate_segments. apply wp_bind.
  eapply wp_mono;
    [apply (validate_loop_kept segments [] []); [constructor | simpl; lia]|].
  intros [validados|e] w' H; simpl; [|intros; AnalysisFacts.returned].
  wp_steps. AnalysisFacts.returned.
  destruct (H validados eq_refl) as [Hk Hlen]. simpl in Hk, Hlen.
  pose proof (AnalysisFacts.sort_by_relevancia_perm validados) as Hperm.
  unfold Py.slice_to.
  destruct (0 <=? ANALYSIS_MAX_SEGMENTS settings).
  all: split;
    [ apply Forall_take; unfold kept_from in Hk; now rewrite Hperm
    | rewrite length_take, (Permutation_length Hperm); lia ].
Qed.

End Service.

Lemma validated_segments_witness :
  let video := mkVideo 1 "Clase 1" None (Some 3600) E_analizando None in
  let segments :=
    [mkRaw true (Conv_ok "Cierre") (Conv_ok "") (Conv_ok 3000) (Conv_ok 4000)
           "resumen" (Conv_ok (Py.Finite 8));
     mkRaw true (Conv_ok "Roto") (Conv_ok "") (Conv_ok 50) (Conv_ok 40)
           "otro" (Conv_ok (Py.Finite 9))] in
  let kept := [mkValid "Cierre" "" 3000 3600 600 (Py.Finite 8) "otro"] in
  fst (_validate_segments RetryFacts.some_settings video segments
                          RetryFacts.one_video)
  = Val kept
  /\ kept_from video segments kept
  /\ (length kept <= length segments)%nat.
Proof.
  intros video segments kept.
  assert (H : fst (_validate_segments RetryFacts.some_settings video segments
                                      RetryFacts.one_video)
              = Val kept) by (vm_compute; reflexivity).
  split; [exact H|].
  exact (validated_segments_come_from_the_answer
           RetryFacts.some_settings video segments RetryFacts.one_video kept H).
Defined.

End ValidationFacts.

(** * Who may see and submit a video *)

Module PermissionFacts.

Import Permissions.

Lemma other_rol (rol : string) :
  rol <> "docente" -> rol <> "admin" -> rol ∉ ["docente"; "admin"].
Proof.
  intros H1 H2 Hin.
  inversion Hin as [|? ? ? Hin']; subst; [contradiction|].
  inversion Hin' as [|? ? ? Hin'']; subst; [contradiction|].
  inversion Hin''.
Qed.

(** X11: the permission for teachers and administrators is the union
    of the two single-role permissions; an anonymous user and a user
    with any other role (a student) are refused. *)
Theorem docente_or_admin_is_the_union user :
  IsDocenteOrAdmin user = IsDocente user || IsAdmin user
  /\ IsDocenteOrAdmin AnonymousUser = false
  /\ (forall id rol,
        rol <> "docente" -> rol <> "admin" ->
        IsDocenteOrAdmin (Usuario id rol) = false).
Proof.
  split; [|split].
  - destruct user as [|id rol]; [reflexivity|].
    unfold IsDocenteOrAdmin, IsDocente, IsAdmin. simpl.
    destruct (decide (rol = "docente")) as [->|H1]; [reflexivity|].
    destruct (decide (rol = "admin")) as [->|H2]; [reflexivity|].
    rewrite !bool_decide_eq_false_2; [reflexivity | assumption.. |].
    now apply other_rol.
  - reflexivity.
  - intros id rol H1 H2. unfold IsDocenteOrAdmin. simpl.
    apply bool_decide_eq_false_2. now apply other_rol.
Qed.

(** X12: the rows that [get_queryset] gives to a stored user are
    exactly the rows of the table on which [IsOwnerOrAdmin] grants
    the user the object permission: the list and the detail views
    agree on who may see a video. *)
Theorem queryset_agrees_with_object_permission
    (usuario : Video -> Z) id rol table :
  exists rows,
    get_queryset usuario (Usuario id rol) table = Some rows
    /\ forall v,
        v ∈ rows
        <-> v ∈ table
            /\ IsOwnerOrAdmin (Usuario id rol) (Owned (usuario v)) = Some true.
Proof.
  unfold get_queryset, IsOwnerOrAdmin.
  destruct (bool_decide (rol = "admin")).
  - exists table. split; [reflexivity|]. intros v. tauto.
  - eexists. split; [reflexivity|]. intros v.
    rewrite list_elem_of_filter. split.
    + intros [Hv Hin]. split; [exact Hin|].
      now rewrite bool_decide_eq_true_2.
    + intros [Hin [= Hv]]. apply bool_decide_eq_true in Hv. auto.
Qed.

End PermissionFacts.

(** * The end of the pipeline, and asking for a new analysis *)

Module FinalizarFacts.

Import Finalizar.

(** X14: on a stored video the last task of the pipeline always
    succeeds: it sets the state [completado] on that row and adds one
    entry [finalizacion / completado] to the audit trail, and touches
    no other table; on a missing video it raises [DoesNotExist] and
    writes nothing. *)
Theorem finalizar_completes_the_video video_id w :
  match videos w !! video_id with
  | Some v =>
      fst (finalizar_procesamiento_task video_id w) = Val tt
      /\ videos (snd (finalizar_procesamiento_task video_id w))
         = <[video_id := with_estado E_completado (with_id video_id v)]>
             (videos w)
      /\ logs (snd (finalizar_procesamiento_task video_id w))
         = logs w ++ [mkLog video_id "finalizacion" L_completado
                            "Procesamiento completado exitosamente" None]
  | None =>
      fst (finalizar_procesamiento_task video_id w) = Exc DoesNotExist
      /\ videos (snd (finalizar_procesamiento_task video_id w)) = videos w
      /\ logs (snd (finalizar_procesamiento_task video_id w)) = logs w
  end
  /\ transcripciones (snd (finalizar_procesamiento_task video_id w))
     = transcripciones w
  /\ resumenes (snd (finalizar_procesamiento_task video_id w)) = resumenes w
  /\ segmentos (snd (finalizar_procesamiento_task video_id w)) = segmentos w
  /\ calls (snd (finalizar_procesamiento_task video_id w)) = calls w.
Proof.
  unfold finalizar_procesamiento_task, try_except, bind, logger_info,
    logger_error, modify, video_get, video_save, log_create, raise.
  simpl. destruct (videos w !! video_id) as [v|] eqn:Hv; simpl.
  - rewrite lookup_insert_eq. simpl. repeat split; reflexivity.
  - repeat split; reflexivity.
Qed.

End FinalizarFacts.

Module ReanalizarFacts.

Import Reanalizar.

Section View.

Context (env : Env) (in_queryset : Video -> bool).

(** X15: [reanalizar] never writes to the database.  For a video that
    the user may see it looks only at the transcript, not at the state
    of the video: without transcript the answer is 400 and nothing is
    queued; with a transcript the analysis task is queued, whatever the
    state of the video, and the answer is 202 with the id of the task
    (500 when the broker refuses). *)
Theorem reanalizar_only_needs_a_transcript pk w :
  let r := fst (reanalizar env in_queryset pk w) in
  let w' := snd (reanalizar env in_queryset pk w) in
  (videos w' = videos w
   /\ transcripciones w' = transcripciones w
   /\ resumenes w' = resumenes w
   /\ segmentos w' = segmentos w
   /\ logs w' = logs w)
  /\ forall v,
      videos w !! pk = Some v ->
      in_queryset (with_id pk v) = true ->
      if Transcription.has_transcripcion pk w then
        match broker env (tick w) "analizar_video_task" pk with
        | inl task_id =>
            r = Val (HTTP_202_ACCEPTED "Re-análisis iniciado" pk task_id)
            /\ calls w' = calls w ++ [C_delay "analizar_video_task" pk]
        | inr e =>
            r = Val (HTTP_500_INTERNAL_SERVER_ERROR
                       ("Error al iniciar re-análisis: " +:+ str (exn_of e)))
            /\ calls w' = calls w
        end
      else
        r = Val (HTTP_400_BAD_REQUEST
                   "El video no tiene transcripción. Transcríbalo primero.")
        /\ calls w' = calls w /\ tick w' = tick w.
Proof.
  cbv zeta.
  unfold reanalizar, Views.get_object, delay, ask_or_raise.
  unfold try_except, bind, gets, ask, modify, ret, raise, logger_error.
  simpl.
  destruct (videos w !! pk) as [v|] eqn:Hv; simpl.
  - destruct (in_queryset (with_id pk v)) eqn:Hin; simpl.
    + destruct (Transcription.has_transcripcion pk w) eqn:Hhas; simpl.
      * destruct (broker env (tick w) "analizar_video_task" pk) eqn:Hb; simpl.
        -- split; [repeat split; reflexivity|].
           intros v' [= <-] _. split; reflexivity.
        -- split; [repeat split; reflexivity|].
           intros v' [= <-] _. split; reflexivity.
      * split; [repeat split; reflexivity|].
        intros v' [= <-] _. repeat split; reflexivity.
    + split; [repeat split; reflexivity|].
      intros v' [= <-] Hin'. congruence.
  - split; [repeat split; reflexivity|]. intros v' H. discriminate.
Qed.

End View.

End ReanalizarFacts.

(** * What a failure leaves behind *)

Module FailureFacts.

Import FileCleaner.

(** X16: when a stale file cannot be removed the sweep stops there:
    the stale files before it are gone, that file and everything after
    it stay, and the report says 0 files and 0 MB with the text of the
    error, however many files were removed. *)
Theorem sweep_stops_at_the_first_unlink_error
    lifetime_hours now before f after msg :
  Forall (CleanerFacts.answers (CleanerFacts.cutoff lifetime_hours now))
         before ->
  CleanerFacts.stale (CleanerFacts.cutoff lifetime_hours now) f = true ->
  e_is_file_error f = None ->
  e_mtime_error f = None ->
  e_size_error f = None ->
  e_unlink_error f = Some msg ->
  exists lines,
    clean_old_files lifetime_hours now (Present (before ++ f :: after) None)
    = (Val (mkStats 0 0 (Some msg)),
       Some (filter (fun g =>
                       CleanerFacts.stale
                         (CleanerFacts.cutoff lifetime_hours now) g <> true)
                    before
             ++ f :: after),
       lines).
Proof.
  intros Hok Hstale Hfile Hmtime Hsize Herr. unfold clean_old_files.
  fold (CleanerFacts.cutoff lifetime_hours now).
  assert (Hraises : turn (CleanerFacts.cutoff lifetime_hours now) f
                    = Raises msg).
  { unfold CleanerFacts.stale in Hstale.
    apply andb_true_iff in Hstale as [Hf Hold].
    unfold turn. now rewrite Hfile, Hf, Hmtime, Hold, Hsize, Herr. }
  destruct (CleanerFacts.sweep_raises
              (CleanerFacts.cutoff lifetime_hours now)
              before f after 0%nat 0 msg Hok Hraises)
    as (lines & -> & _).
  eexists. reflexivity.
Qed.

Lemma sweep_stops_witness :
  exists lines,
    clean_old_files 24%Q 1000000%Q
      (Present
         ([mkEntry "video_1.mp4" RegularFile 1000 1048576 None None None None]
          ++ mkEntry "video_2.mp4" RegularFile 2000 2097152 None None None
                     (Some "[Errno 13] Permission denied")
          :: [mkEntry "video_3.mp4" RegularFile 3000 1048576
                      None None None None])
         None)
    = (Val (mkStats 0 0 (Some "[Errno 13] Permission denied")),
       Some (filter (fun g =>
                       CleanerFacts.stale
                         (CleanerFacts.cutoff 24%Q 1000000%Q) g <> true)
                    [mkEntry "video_1.mp4" RegularFile 1000 1048576
                             None None None None]
             ++ mkEntry "video_2.mp4" RegularFile 2000 2097152 None None None
                        (Some "[Errno 13] Permission denied")
             :: [mkEntry "video_3.mp4" RegularFile 3000 1048576
                         None None None None]),
       lines).
Proof.
  apply (sweep_stops_at_the_first_unlink_error
           24%Q 1000000%Q
           [mkEntry "video_1.mp4" RegularFile 1000 1048576 None None None None]
           (mkEntry "video_2.mp4" RegularFile 2000 2097152 None None None
                    (Some "[Errno 13] Permission denied"))
           [mkEntry "video_3.mp4" RegularFile 3000 1048576 None None None None]
           "[Errno 13] Permission denied").
  - repeat constructor. intros msg. vm_compute. discriminate.
  - vm_compute. reflexivity.
  - reflexivity.
  - reflexivity.
  - reflexivity.
  - reflexivity.
Defined.

(** X17: when the broker refuses the task, [procesar] answers 500 and
    the video stays [pendiente], so it can be submitted again; nothing
    is recorded as queued. *)
Theorem procesar_keeps_pendiente_when_the_broker_fails
    env in_queryset pk w v e :
  videos w !! pk = Some v ->
  in_queryset (with_id pk v) = true ->
  v_estado v = E_pendiente ->
  Py.truthy_str (v_url_original v) = true ->
  broker env (tick w) "procesar_video_completo_task" pk = inr e ->
  fst (Views.procesar env in_queryset pk w)
  = Val (Views.HTTP_500_INTERNAL_SERVER_ERROR
           ("Error al iniciar procesamiento: " +:+ str (exn_of e)))
  /\ videos (snd (Views.procesar env in_queryset pk w)) = videos w
  /\ calls (snd (Views.procesar env in_queryset pk w)) = calls w.
Proof.
  intros Hv Hin Hestado Hurl Hbroker.
  unfold Views.procesar, Views.get_object, Views.delay, ask_or_raise.
  unfold try_except, bind, gets, ask, modify, ret, raise, logger_error.
  simpl. rewrite Hv, Hin. simpl. rewrite Hestado, Hurl. simpl.
  rewrite Hbroker. simpl. repeat split; reflexivity.
Qed.

Definition broker_down : Env :=
  mkEnv (fun _ _ => true) (fun _ _ => 0) (fun _ _ => None)
        (fun _ _ => FfDone true) (fun _ _ => None)
        (fun _ _ => inr (OE_download "unused"))
        (fun _ _ => inr (OE_other "unused"))
        (fun _ _ => inr (OE_other "unused"))
        (fun _ _ => inr (OE_other "unused"))
        (fun _ _ => inr (OE_other "unused"))
        (fun _ _ _ => inr (OE_other "Error 111 connecting to redis")).

Lemma procesar_keeps_pendiente_witness :
  fst (Views.procesar broker_down (fun _ => true) 1 RetryFacts.one_video)
  = Val (Views.HTTP_500_INTERNAL_SERVER_ERROR
           ("Error al iniciar procesamiento: "
            +:+ str (exn_of (OE_other "Error 111 connecting to redis"))))
  /\ videos (snd (Views.procesar broker_down (fun _ => true) 1
                                 RetryFacts.one_video))
     = videos RetryFacts.one_video
  /\ calls (snd (Views.procesar broker_down (fun _ => true) 1
                                RetryFacts.one_video))
     = calls RetryFacts.one_video.
Proof.
  apply (procesar_keeps_pendiente_when_the_broker_fails
           broker_down (fun _ => true) 1 RetryFacts.one_video
           (mkVideo 1 "Clase 1" (Some "https://example.org/v/1") None
                    E_pendiente None)
           (OE_other "Error 111 connecting to redis"));
    reflexivity.
Defined.

End FailureFacts.

(** * Several thumbnails of one video *)

Module ThumbnailFacts.

Import Thumbnails.

Section Service.

Context (env : Env) (settings : Settings) (video : Video) (video_path : string).

(** The frame that is asked for at turn [i]. *)
Definition frame_call (interval i : Z) : Call :=
  C_ffmpeg
    (FfFrame video_path (inject_Z (interval * i))
             (Services.thumbnail_dir settings +:+ "/thumb_"
              +:+ pretty (v_id video) +:+ "_" +:+ pretty i +:+ ".jpg")).

Lemma generate_one_spec interval thumbnails i w :
  wp (generate_one env settings video video_path interval thumbnails i)
     (fun r w' =>
        calls w' = calls w ++ [frame_call interval i]
        /\ exists l,
            r = Val l
            /\ (length thumbnails <= length l <= S (length thumbnails))%nat) w.
Proof.
  unfold generate_one, frame_call. wp_steps; simpl.
  all: split; [reflexivity|]; eexists; split; [reflexivity|].
  all: rewrite ?length_app; simpl; lia.
Qed.

Lemma generate_loop_spec interval range : forall thumbnails w,
  wp (generate_loop env settings video video_path interval thumbnails range)
     (fun r w' =>
        calls w' = calls w ++ (frame_call interval <$> range)
        /\ exists l,
            r = Val l
            /\ (length l <= length thumbnails + length range)%nat) w.
Proof.
  induction range as [|i rest IH]; intros thumbnails w; simpl.
  - wp_steps. split; [now rewrite app_nil_r|].
    eexists. split; [reflexivity | lia].
  - apply wp_bind. eapply wp_mono; [apply generate_one_spec|].
    intros r w1 (Hcalls & l & -> & Hl). simpl.
    eapply wp_mono; [apply IH|].
    intros r' w2 (Hcalls' & l' & -> & Hl'). split.
    + rewrite Hcalls', Hcalls, <- app_assoc. reflexivity.
    + eexists. split; [reflexivity | lia].
Qed.

Lemma range_from_1_bounds count i :
  i ∈ range_from_1 count -> 1 <= i <= count.
Proof.
  unfold range_from_1. intros H.
  apply list_elem_of_fmap in H as (k & -> & Hk).
  apply elem_of_seq in Hk. lia.
Qed.

(** X18: for a video of duration [d > 0] and [count >= 0],
    [generate_multiple] never raises: it asks FFmpeg for exactly
    [count] frames, one per turn, at the multiples of
    [d // (count + 1)], all of them inside the video, and returns at
    most [count] paths. *)
Theorem generate_multiple_asks_for_count_frames d count w :
  v_duracion_segundos video = Some d ->
  0 < d ->
  0 <= count ->
  let interval := d / (count + 1) in
  (exists l,
      fst (generate_multiple env settings video video_path count w) = Val l
      /\ (length l <= Z.to_nat count)%nat)
  /\ calls (snd (generate_multiple env settings video video_path count w))
     = calls w ++ (frame_call interval <$> range_from_1 count)
  /\ length (range_from_1 count) = Z.to_nat count
  /\ forall i, i ∈ range_from_1 count -> 0 <= interval * i < d.
Proof.
  intros Hd Hpos Hcount interval.
  assert (Hlen : length (range_from_1 count) = Z.to_nat count).
  { unfold range_from_1. now rewrite length_fmap, length_seq. }
  pose proof (generate_loop_spec interval (range_from_1 count) [] w) as H.
  unfold wp in H. destruct H as (Hcalls & l & Hl & Hle).
  unfold generate_multiple. rewrite Hd. simpl.
  replace (d =? 0) with false by (symmetry; apply Z.eqb_neq; lia).
  replace (count + 1 =? 0) with false by (symmetry; apply Z.eqb_neq; lia).
  simpl. fold interval.
  split; [exists l; split; [exact Hl | simpl in Hle; lia]|].
  split; [exact Hcalls|]. split; [exact Hlen|].
  intros i Hi. apply range_from_1_bounds in Hi.
  pose proof (Z.mul_div_le d (count + 1) ltac:(lia)) as Hdiv.
  assert (0 <= interval) by (apply Z.div_pos; lia).
  fold interval in Hdiv. split; [nia|].
  destruct (decide (interval = 0)) as [->|Hnz]; nia.
Qed.

End Service.

Lemma generate_multiple_witness :
  let video := mkVideo 1 "Clase 1" None (Some 3600) E_procesando None in
  (exists l,
      fst (generate_multiple RetryFacts.quiet_env RetryFacts.some_settings
                             video "/tmp/videos/video_1.mp4" 5
                             RetryFacts.one_video) = Val l
      /\ (length l <= Z.to_nat 5)%nat)
  /\ calls (snd (generate_multiple RetryFacts.quiet_env
                                   RetryFacts.some_settings video
                                   "/tmp/videos/video_1.mp4" 5
                                   RetryFacts.one_video))
     = calls RetryFacts.one_video
       ++ (frame_call RetryFacts.some_settings video
                      "/tmp/videos/video_1.mp4" (3600 / (5 + 1))
             <$> range_from_1 5)
  /\ length (range_from_1 5) = Z.to_nat 5
  /\ forall i, i ∈ range_from_1 5 -> 0 <= 3600 / (5 + 1) * i < 3600.
Proof.
  intros video.
  apply (generate_multiple_asks_for_count_frames
           RetryFacts.quiet_env RetryFacts.some_settings video
           "/tmp/videos/video_1.mp4" 3600 5 RetryFacts.one_video);
    [reflexivity | lia | lia].
Defined.

End ThumbnailFacts.

(** * Reading a saved summary back *)

Module SummaryFacts.

Import Analysis Summary.

(** [sep in s] *)
Fixpoint contains (sep : Ascii.ascii) (s : string) : bool :=
  match s with
  | EmptyString => false
  | String c s' => Ascii.eqb c sep || contains sep s'
  end.

Lemma split_one sep s : contains sep s = false -> split sep s = [s].
Proof.
  induction s as [|c s IH]; simpl; [reflexivity|].
  intros H. apply orb_false_iff in H as [Hc Hs].
  rewrite Hc, (IH Hs). reflexivity.
Qed.

Lemma split_app sep s rest :
  contains sep s = false ->
  split sep (s +:+ String sep rest) = s :: split sep rest.
Proof.
  induction s as [|c s IH]; simpl.
  - intros _. now rewrite Ascii.eqb_refl.
  - intros H. apply orb_false_iff in H as [Hc Hs].
    rewrite Hc, (IH Hs). reflexivity.
Qed.

(** Splitting what [join] made gives the pieces back, when there is
    at least one piece and no piece contains the separator. *)
Lemma split_join sep items :
  items <> [] ->
  Forall (fun item => contains sep item = false) items ->
  split sep (Py.join (String sep EmptyString) items) = items.
Proof.
  unfold Py.join. induction items as [|item rest IH]; [congruence|].
  intros _ Hall. apply Forall_cons in Hall as [Hitem Hrest].
  destruct rest as [|item' rest'].
  - simpl. now apply split_one.
  - change (String.concat (String sep "") (item :: item' :: rest'))
      with (item +:+ String sep (String.concat (String sep "") (item' :: rest'))).
    rewrite split_app by exact Hitem. f_equal.
    apply IH; [discriminate | exact Hrest].
Qed.

(** What [get_existing_summary] gives for a list that [_save_analysis]
    stored: the items with their bullets, or one empty string for an
    empty list. *)
Definition read_back (items : list string) : list string :=
  match items with
  | [] => [EmptyString]
  | _ => (fun item => "• " +:+ item) <$> items
  end.

Definition one_line (item : string) : Prop :=
  contains newline_char item = false.

Lemma split_bullets items :
  Forall one_line items ->
  split newline_char (bullets items) = read_back items.
Proof.
  intros Hall. destruct items as [|item rest]; [reflexivity|].
  unfold bullets, read_back.
  change Py.newline with (String newline_char EmptyString).
  apply split_join; [discriminate|].
  apply Forall_fmap. eapply Forall_impl; [exact Hall|].
  intros s Hs. unfold one_line in Hs. simpl. exact Hs.
Qed.

Lemma find_replaced (row : ResumenEjecutivo) before :
  Exists (fun r => r_video r = r_video row) before ->
  List.find (fun r => bool_decide (r_video r = r_video row))
            (UpsertFacts.replace_row r_video row before)
  = Some row.
Proof.
  unfold UpsertFacts.replace_row.
  induction before as [|r rest IH]; intros Hex; [now apply Exists_nil in Hex|].
  simpl. destruct (decide (r_video r = r_video row)) as [E|E].
  - now rewrite bool_decide_eq_true_2.
  - rewrite bool_decide_eq_false_2 by exact E.
    apply IH. apply Exists_cons in Hex as [Hex|Hex]; [contradiction | exact Hex].
Qed.

Lemma find_appended (row : ResumenEjecutivo) before :
  ~ Exists (fun r => r_video r = r_video row) before ->
  List.find (fun r => bool_decide (r_video r = r_video row)) (before ++ [row])
  = Some row.
Proof.
  induction before as [|r rest IH]; intros Hno; simpl.
  - now rewrite bool_decide_eq_true_2.
  - rewrite bool_decide_eq_false_2.
    + apply IH. intros Hex. apply Hno. now apply Exists_cons_tl.
    + intros E. apply Hno. now apply Exists_cons_hd.
Qed.

(** X19: a summary that [_save_analysis] stored is read back by
    [get_existing_summary] with the same text and model name, and with
    each list as it was given, every item behind its bullet, provided
    no item contains a line break; an empty list comes back as a list
    with one empty string. *)
Theorem saved_summary_reads_back settings video resumen_data w :
  Forall one_line (rs_temas_principales resumen_data) ->
  Forall one_line (rs_conclusiones_clave resumen_data) ->
  Forall one_line (rs_puntos_importantes resumen_data) ->
  fst (get_existing_summary
         video (snd (_save_analysis settings video resumen_data w)))
  = Val (Some (mkExisting
                 (rs_resumen_completo resumen_data)
                 (read_back (rs_temas_principales resumen_data))
                 (read_back (rs_conclusiones_clave resumen_data))
                 (read_back (rs_puntos_importantes resumen_data))
                 (GPT_MODEL settings))).
Proof.
  intros Htemas Hconclusiones Hpuntos.
  pose proof (UpsertFacts.save_analysis_upserts settings video resumen_data w)
    as H.
  unfold wp in H. destruct H as (_ & [Hupd Hnew] & _).
  set (row := UpsertFacts.resumen_row settings video resumen_data) in *.
  assert (Hfind :
            List.find (fun r => bool_decide (r_video r = v_id video))
                      (resumenes
                         (snd (_save_analysis settings video resumen_data w)))
            = Some row).
  { change (v_id video) with (r_video row).
    destruct (decide (Exists (fun r => r_video r = r_video row)
                             (resumenes w))) as [Hex|Hex].
    - rewrite (Hupd Hex). now apply find_replaced.
    - rewrite (Hnew Hex). now apply find_appended. }
  unfold get_existing_summary, gets. simpl. rewrite Hfind.
  unfold row, UpsertFacts.resumen_row. simpl.
  now rewrite !split_bullets.
Qed.

Lemma saved_summary_witness :
  fst (get_existing_summary
         TranscriptionFacts.stored_video
         (snd (_save_analysis RetryFacts.some_settings
                              TranscriptionFacts.stored_video
                              (mkRawSummary "Un saludo." ["saludo"; "cierre"]
                                            [] ["hola"])
                              UpsertFacts.transcribed_world)))
  = Val (Some (mkExisting "Un saludo."
                          (read_back ["saludo"; "cierre"])
                          (read_back [])
                          (read_back ["hola"])
                          (GPT_MODEL RetryFacts.some_settings))).
Proof.
  apply (saved_summary_reads_back
           RetryFacts.some_settings TranscriptionFacts.stored_video
           (mkRawSummary "Un saludo." ["saludo"; "cierre"] [] ["hola"])
           UpsertFacts.transcribed_world);
    repeat constructor.
Defined.

End SummaryFacts.

(** * The formatted times can be read back *)

Module DisplayFacts.

Import Display.

Lemma pretty_N_go_length x : forall s,
  (String.length s <= String.length (pretty_N_go x s))%nat.
Proof.
  induction (N.lt_wf_0 x) as [x _ IH]. intros s.
  destruct (decide (x = 0)%N) as [->|Hx]; [now rewrite pretty_N_go_0|].
  rewrite pretty_N_go_step by lia.
  etransitivity; [|apply IH; apply N.div_lt; lia]. simpl. lia.
Qed.

(** A number of three digits or more is printed with three characters
    or more. *)
Lemma pretty_length_100 z :
  100 <= z -> (3 <= String.length (pretty z))%nat.
Proof.
  intros Hz. destruct z as [|p|p]; try lia.
  change (pretty (Z.pos p)) with (pretty (N.pos p)).
  unfold pretty, pretty_N. rewrite decide_False by discriminate.
  assert (H1 : (0 < N.pos p)%N) by lia.
  assert (H2 : (0 < N.pos p `div` 10)%N)
    by (apply N.div_str_pos; lia).
  assert (H3 : (0 < (N.pos p `div` 10) `div` 10)%N).
  { apply N.div_str_pos. split; [lia|].
    apply N.div_le_lower_bound; lia. }
  rewrite pretty_N_go_step by exact H1.
  rewrite pretty_N_go_step by exact H2.
  rewrite pretty_N_go_step by exact H3.
  etransitivity; [|apply pretty_N_go_length]. simpl. lia.
Qed.

(** The numbers below 100, by enumeration. *)
Lemma below_100_checked :
  forallb (fun a => (String.length (Py.fmt_02d a) =? 2)%nat) (seqZ 0 100)
  && forallb
       (fun a =>
          forallb (fun b => negb (String.eqb (Py.fmt_02d a) (Py.fmt_02d b)))
                  (seqZ 10 90))
       (seqZ 0 10)
  = true.
Proof. vm_compute. reflexivity. Qed.

Lemma fmt_02d_length z :
  0 <= z < 100 -> String.length (Py.fmt_02d z) = 2%nat.
Proof.
  intros Hz. pose proof below_100_checked as H.
  apply andb_true_iff in H as [H _].
  rewrite forallb_forall in H. apply Nat.eqb_eq. apply H.
  apply list_elem_of_In, elem_of_seqZ. lia.
Qed.

Lemma fmt_02d_small_large a b :
  0 <= a < 10 -> 10 <= b -> Py.fmt_02d a <> Py.fmt_02d b.
Proof.
  intros Ha Hb E. destruct (decide (b < 100)) as [Hlt|Hge].
  - pose proof below_100_checked as H.
    apply andb_true_iff in H as [_ H].
    rewrite forallb_forall in H.
    specialize (H a ltac:(apply list_elem_of_In, elem_of_seqZ; lia)).
    rewrite forallb_forall in H.
    specialize (H b ltac:(apply list_elem_of_In, elem_of_seqZ; lia)).
    apply negb_true_iff in H. apply String.eqb_neq in H. contradiction.
  - pose proof (fmt_02d_length a ltac:(lia)) as Hla.
    pose proof (pretty_length_100 b ltac:(lia)) as Hlb.
    unfold Py.fmt_02d at 2 in E.
    replace (b <? 10) with false in E by (symmetry; apply Z.ltb_ge; lia).
    rewrite andb_false_r in E. rewrite E in Hla. lia.
Qed.

(** [f"{z:02d}"] tells non-negative numbers apart. *)
Lemma fmt_02d_inj a b :
  0 <= a -> 0 <= b -> Py.fmt_02d a = Py.fmt_02d b -> a = b.
Proof.
  intros Ha Hb E.
  destruct (decide (a < 10)) as [Ha10|Ha10], (decide (b < 10)) as [Hb10|Hb10].
  - unfold Py.fmt_02d in E.
    rewrite (proj2 (Z.leb_le 0 a) Ha), (proj2 (Z.ltb_lt a 10) Ha10) in E.
    rewrite (proj2 (Z.leb_le 0 b) Hb), (proj2 (Z.ltb_lt b 10) Hb10) in E.
    simpl in E. injection E as E. now apply (inj pretty).
  - exfalso. apply (fmt_02d_small_large a b); [lia | lia | exact E].
  - exfalso. apply (fmt_02d_small_large b a); [lia | lia | now symmetry].
  - unfold Py.fmt_02d in E.
    replace (a <? 10) with false in E by (symmetry; apply Z.ltb_ge; lia).
    replace (b <? 10) with false in E by (symmetry; apply Z.ltb_ge; lia).
    rewrite !andb_false_r in E. now apply (inj pretty).
Qed.

Lemma string_app_length s t :
  String.length (s +:+ t) = (String.length s + String.length t)%nat.
Proof. induction s as [|c s IH]; simpl; [reflexivity | now rewrite IH]. Qed.

(** Two concatenations with tails of the same length are equal
    piece by piece. *)
Lemma string_app_inj s1 t1 s2 t2 :
  s1 +:+ t1 = s2 +:+ t2 ->
  String.length t1 = String.length t2 ->
  s1 = s2 /\ t1 = t2.
Proof.
  revert s2. induction s1 as [|c s1 IH]; intros [|c' s2] E Hlen.
  - split; [reflexivity | exact E].
  - exfalso. assert (E' : t1 = String c' (s2 +:+ t2)) by exact E.
    rewrite E' in Hlen. simpl in Hlen.
    rewrite string_app_length in Hlen. lia.
  - exfalso. assert (E' : String c (s1 +:+ t1) = t2) by exact E.
    rewrite <- E' in Hlen. simpl in Hlen.
    rewrite string_app_length in Hlen. lia.
  - assert (E' : String c (s1 +:+ t1) = String c' (s2 +:+ t2)) by exact E.
    injection E' as -> E'. destruct (IH s2 E' Hlen) as [-> ->]. auto.
Qed.

(** [MM:SS] *)
Definition minutes_seconds (t : Z) : string :=
  Py.fmt_02d (t / 60) +:+ ":" +:+ Py.fmt_02d (t mod 60).

Lemma minutes_seconds_inj a b :
  0 <= a -> 0 <= b -> minutes_seconds a = minutes_seconds b -> a = b.
Proof.
  intros Ha Hb E. unfold minutes_seconds in E.
  pose proof (Z.mod_pos_bound a 60 ltac:(lia)) as Hma.
  pose proof (Z.mod_pos_bound b 60 ltac:(lia)) as Hmb.
  apply string_app_inj in E as [Em Es].
  - injection Es as Es.
    apply fmt_02d_inj in Em; [|apply Z.div_pos; lia..].
    apply fmt_02d_inj in Es; [|lia..].
    rewrite (Z.div_mod a 60), (Z.div_mod b 60) by lia. lia.
  - rewrite !string_app_length, !fmt_02d_length by lia. reflexivity.
Qed.

(** X20: the formatted times are unambiguous: two non-negative
    timestamps of segments with the same [MM:SS] text are equal, and
    so are two non-negative durations of videos with the same
    [HH:MM:SS] text. *)
Theorem formatted_times_are_unambiguous :
  (forall s1 s2,
      0 <= s_timestamp_inicio_seg s1 -> 0 <= s_timestamp_inicio_seg s2 ->
      timestamp_inicio_formateado s1 = timestamp_inicio_formateado s2 ->
      s_timestamp_inicio_seg s1 = s_timestamp_inicio_seg s2)
  /\ (forall s1 s2,
        0 <= s_timestamp_fin_seg s1 -> 0 <= s_timestamp_fin_seg s2 ->
        timestamp_fin_formateado s1 = timestamp_fin_formateado s2 ->
        s_timestamp_fin_seg s1 = s_timestamp_fin_seg s2)
  /\ (forall v1 v2 d1 d2,
        v_duracion_segundos v1 = Some d1 -> v_duracion_segundos v2 = Some d2 ->
        0 <= d1 -> 0 <= d2 ->
        duracion_formateada v1 = duracion_formateada v2 ->
        d1 = d2).
Proof.
  split; [|split].
  - intros s1 s2 H1 H2 E. now apply minutes_seconds_inj.
  - intros s1 s2 H1 H2 E. now apply minutes_seconds_inj.
  - intros v1 v2 d1 d2 E1 E2 H1 H2 E.
    assert (Hfmt : forall v d,
               v_duracion_segundos v = Some d -> 0 <= d ->
               duracion_formateada v
               = Py.fmt_02d (d / 3600) +:+ ":"
                   +:+ minutes_seconds (d mod 3600)).
    { intros v d Ev Hd. unfold duracion_formateada, minutes_seconds.
      rewrite Ev. simpl. destruct (d =? 0) eqn:E0; simpl.
      - apply Z.eqb_eq in E0. subst d. reflexivity.
      - replace (d mod 3600 mod 60) with (d mod 60); [reflexivity|].
        rewrite (Z.div_mod d 3600) at 1 by lia.
        replace (3600 * (d / 3600) + d mod 3600)
          with (d mod 3600 + (60 * (d / 3600)) * 60) by lia.
        now rewrite Z.mod_add by lia. }
    rewrite (Hfmt v1 d1 E1 H1), (Hfmt v2 d2 E2 H2) in E.
    pose proof (Z.mod_pos_bound d1 3600 ltac:(lia)) as Hm1.
    pose proof (Z.mod_pos_bound d2 3600 ltac:(lia)) as Hm2.
    apply string_app_inj in E as [Eh Em].
    + injection Em as Em.
      apply fmt_02d_inj in Eh; [|apply Z.div_pos; lia..].
      apply minutes_seconds_inj in Em; [|lia..].
      rewrite (Z.div_mod d1 3600), (Z.div_mod d2 3600) by lia. lia.
    + assert (B1 : 0 <= d1 mod 3600 / 60 < 100)
        by (split; [apply Z.div_pos; lia | apply Z.div_lt_upper_bound; lia]).
      assert (B2 : 0 <= d2 mod 3600 / 60 < 100)
        by (split; [apply Z.div_pos; lia | apply Z.div_lt_upper_bound; lia]).
      pose proof (Z.mod_pos_bound (d1 mod 3600) 60 ltac:(lia)).
      pose proof (Z.mod_pos_bound (d2 mod 3600) 60 ltac:(lia)).
      unfold minutes_seconds. rewrite !string_app_length.
      rewrite !fmt_02d_length by lia. reflexivity.
Qed.

End DisplayFacts.

(** * A segment is stored with its files, or not at all *)

Module ClipFacts.

Import Segmentation.

Section Service.

Context (env : Env) (settings : Settings) (video : Video) (video_path : string).

(** The table after [segmento] got its clip and, maybe, a picture. *)
Definition stored (segmento : Segmento) (clip : string)
    (thumb : option string) (rows : list Segmento) : list Segmento :=
  (fun r =>
     if decide (s_id r = s_id segmento)
     then with_files clip thumb segmento
     else r) <$> rows.

(** X21: one turn of the loop of [segment_video] never raises, and it
    is all or nothing for the row: either a result for the row is
    appended and the row is saved with its clip (and its picture, if
    one was made), the other rows staying as they are, or the list of
    results is as before and the table of segments is untouched. *)
Theorem process_segment_is_all_or_nothing resultados segmento w :
  let r := fst (process_segment env settings video video_path resultados
                                segmento w) in
  let w' := snd (process_segment env settings video video_path resultados
                                 segmento w) in
  (exists res clip thumb,
      r = Val (resultados ++ [res])
      /\ res_segmento_id res = s_id segmento
      /\ segmentos w' = stored segmento clip thumb (segmentos w))
  \/ (r = Val resultados /\ segmentos w' = segmentos w).
Proof.
  cbv zeta.
  change (wp (process_segment env settings video video_path resultados
                              segmento)
             (fun r w' =>
                (exists res clip thumb,
                    r = Val (resultados ++ [res])
                    /\ res_segmento_id res = s_id segmento
                    /\ segmentos w' = stored segmento clip thumb (segmentos w))
                \/ (r = Val resultados /\ segmentos w' = segmentos w)) w).
  unfold process_segment, _cut_segment, _generate_segment_thumbnail,
    _update_segment_files.
  wp_steps; simpl.
  all: first
         [ right; split; reflexivity
         | left; eexists; eexists; eexists; split; [reflexivity|];
           split; reflexivity ].
Qed.

End Service.

End ClipFacts.

(** * Configuration errors *)

Module ConfigFacts.

Import Transcription Tasks.

(** X22: with a mode that is neither ['api'] nor ['local'] no model is
    loaded, so the transcription of an existing file fails with
    [TranscriptionError] without calling Whisper, remote or local, and
    without writing a transcript. *)
Theorem unknown_mode_never_transcribes env settings video mode audio_path w :
  mode <> "api" ->
  mode <> "local" ->
  path_exists env (tick w) audio_path = true ->
  (exists msg,
      fst (transcribe env settings video mode audio_path w)
      = Exc (TranscriptionError msg))
  /\ calls (snd (transcribe env settings video mode audio_path w)) = calls w
  /\ transcripciones (snd (transcribe env settings video mode audio_path w))
     = transcripciones w.
Proof.
  intros Hapi Hlocal Hexists.
  change (wp (transcribe env settings video mode audio_path)
             (fun r w' =>
                (exists msg, r = Exc (TranscriptionError msg))
                /\ calls w' = calls w
                /\ transcripciones w' = transcripciones w) w).
  unfold transcribe, _transcribe_with_local.
  rewrite (bool_decide_eq_false_2 _ Hapi).
  rewrite (decide_False (P := mode = "api")) by exact Hapi.
  rewrite (decide_False (P := mode = "local")) by exact Hlocal.
  repeat (first [ progress simpl | rewrite Hexists | wp_step ]);
    try discriminate;
    (split; [eexists; reflexivity | split; reflexivity]).
Qed.

Lemma unknown_mode_witness :
  (exists msg,
      fst (transcribe RetryFacts.quiet_env RetryFacts.some_settings
                      TranscriptionFacts.stored_video "remote"
                      "/media/audio/audio_1.mp3" RetryFacts.one_video)
      = Exc (TranscriptionError msg))
  /\ calls (snd (transcribe RetryFacts.quiet_env RetryFacts.some_settings
                            TranscriptionFacts.stored_video "remote"
                            "/media/audio/audio_1.mp3" RetryFacts.one_video))
     = calls RetryFacts.one_video
  /\ transcripciones
       (snd (transcribe RetryFacts.quiet_env RetryFacts.some_settings
                        TranscriptionFacts.stored_video "remote"
                        "/media/audio/audio_1.mp3" RetryFacts.one_video))
     = transcripciones RetryFacts.one_video.
Proof.
  apply (unknown_mode_never_transcribes
           RetryFacts.quiet_env RetryFacts.some_settings
           TranscriptionFacts.stored_video "remote"
           "/media/audio/audio_1.mp3" RetryFacts.one_video);
    [discriminate | discriminate | reflexivity].
Defined.

(** X23: without [OPENAI_API_KEY] an attempt of the analysis task on a
    stored video fails before anything is asked outside: the video is
    marked [error], and the failure goes to [self.retry] like any
    other [AnalysisError], with the countdown of the attempt. *)
Theorem analysis_without_api_key_is_retried
    env settings retries video_id w v :
  videos w !! video_id = Some v ->
  OPENAI_API_KEY settings = "" ->
  fst (analizar_video_task env settings retries video_id w)
  = Exc (Celery.retry 2 retries (AnalysisError "OPENAI_API_KEY no configurada")
                      (180 * (Z.of_nat retries + 1)))
  /\ v_estado <$>
       (videos (snd (analizar_video_task env settings retries video_id w))
          !! video_id)
     = Some E_error
  /\ calls (snd (analizar_video_task env settings retries video_id w))
     = calls w
  /\ tick (snd (analizar_video_task env settings retries video_id w)) = tick w.
Proof.
  intros Hv Hkey.
  unfold analizar_video_task, Analysis.init, mark_error, try_pass.
  rewrite (decide_True (P := OPENAI_API_KEY settings = "")) by exact Hkey.
  unfold try_except, bind, logger_info, logger_error, modify, video_get,
    video_save, raise, ret.
  simpl. rewrite Hv. simpl. rewrite lookup_insert_eq. simpl.
  rewrite lookup_insert_eq. simpl. repeat split; reflexivity.
Qed.

Lemma analysis_without_api_key_witness :
  let settings :=
    mkSettings "/media" "/tmp/videos" "" "api" "base" "whisper-1"
               "gpt-4o-mini" 3 10 in
  fst (analizar_video_task RetryFacts.quiet_env settings 0 1
                           RetryFacts.one_video)
  = Exc (Celery.retry 2 0 (AnalysisError "OPENAI_API_KEY no configurada")
                      (180 * (Z.of_nat 0 + 1)))
  /\ v_estado <$>
       (videos (snd (analizar_video_task RetryFacts.quiet_env settings 0 1
                                         RetryFacts.one_video)) !! 1)
     = Some E_error
  /\ calls (snd (analizar_video_task RetryFacts.quiet_env settings 0 1
                                     RetryFacts.one_video))
     = calls RetryFacts.one_video
  /\ tick (snd (analizar_video_task RetryFacts.quiet_env settings 0 1
                                    RetryFacts.one_video))
     = tick RetryFacts.one_video.
Proof.
  intros settings.
  apply (analysis_without_api_key_is_retried
           RetryFacts.quiet_env settings 0%nat 1 RetryFacts.one_video
           (mkVideo 1 "Clase 1" (Some "https://example.org/v/1") None
                    E_pendiente None));
    reflexivity.
Defined.

End ConfigFacts.

(** * Who writes [completado], and what the API would accept *)

Module LifecycleFacts.

Import Tasks Stages.

(** The stored video [id], if any, is not completed. *)
Definition not_completado (id : Z) (w : World) : Prop :=
  forall v, videos w !! id = Some v -> v_estado v <> E_completado.

Lemma not_completado_insert id w (video : Video) :
  (v_id video = id -> v_estado video <> E_completado) ->
  not_completado id w ->
  not_completado id (set_videos (fun m => <[v_id video := video]> m) w).
Proof.
  intros Hv Hw v. simpl.
  destruct (decide (v_id video = id)) as [E|E].
  - rewrite E, lookup_insert_eq. intros [= <-]. auto.
  - rewrite lookup_insert_ne by exact E. apply Hw.
Qed.

Ltac completado_leaf :=
  lazymatch goal with
  | |- not_completado _ (set_videos _ _) =>
      apply not_completado_insert; [simpl; try discriminate; auto | assumption]
  | |- not_completado _ _ => assumption
  end.

Section Services.

Context (env : Env) (settings : Settings) (video : Video) (id : Z).

Lemma download_not_completado :
  preserves (not_completado id) (Services.download env video).
Proof.
  unfold Services.download, Services._update_video_info.
  inv_steps; completado_leaf.
Qed.

Lemma extract_not_completado path :
  preserves (not_completado id) (Services.extract env settings video path).
Proof. unfold Services.extract. inv_steps; completado_leaf. Qed.

Lemma generate_not_completado path :
  (v_id video = id -> v_estado video <> E_completado) ->
  preserves (not_completado id) (Services.generate env settings video path).
Proof. intros Hv. unfold Services.generate. inv_steps; completado_leaf. Qed.

Lemma transcribe_not_completado mode path :
  preserves (not_completado id)
            (Transcription.transcribe env settings video mode path).
Proof.
  unfold Transcription.transcribe, Transcription._transcribe_with_api,
    Transcription._transcribe_with_local, Transcription._save_transcription.
  inv_steps; completado_leaf.
Qed.

Lemma analyze_not_completado :
  preserves (not_completado id) (Analysis.analyze env settings video).
Proof.
  unfold Analysis.analyze, Analysis._get_transcription,
    Analysis._generate_executive_summary,
    Analysis._identify_important_segments, Analysis._validate_segments,
    Analysis._save_analysis.
  inv_steps;
    first [ apply AnalysisFacts.validate_loop_keeps; intros ? ? H; exact H
          | completado_leaf ].
Qed.

Lemma create_segmentos_not_completado segs : forall i,
  preserves (not_completado id) (create_segmentos video i segs).
Proof.
  induction segs as [|seg rest IH]; intros i; simpl.
  - inv_steps.
  - inv_steps; first [ apply IH | completado_leaf ].
Qed.

Lemma process_all_not_completado path rows : forall acc,
  preserves (not_completado id)
            (Segmentation.process_all env settings video path acc rows).
Proof.
  induction rows as [|seg rest IH]; intros acc; simpl.
  - inv_steps.
  - apply preserves_bind; [|intro; apply IH].
    unfold Segmentation.process_segment, Segmentation._cut_segment,
      Segmentation._generate_segment_thumbnail,
      Segmentation._update_segment_files.
    inv_steps; completado_leaf.
Qed.

Lemma segment_video_not_completado path :
  preserves (not_completado id)
            (Segmentation.segment_video env settings video path).
Proof.
  unfold Segmentation.segment_video.
  inv_steps; first [ apply process_all_not_completado | completado_leaf ].
Qed.

End Services.

Ltac rest_not_completado :=
  inv_steps;
  first [ apply download_not_completado | apply extract_not_completado
        | apply transcribe_not_completado | apply analyze_not_completado
        | apply create_segmentos_not_completado
        | apply segment_video_not_completado
        | completado_leaf ].

Ltac task_not_completado rest :=
  apply preserves_try_except;
  [ let w := fresh "w" in let Hw := fresh "Hw" in
    intros w Hw;
    lazymatch goal with
    | |- ?I (snd (?m w)) => change (wp m (fun _ w' => I w') w)
    end;
    apply wp_bind; unfold logger_info; apply wp_modify;
    apply wp_bind; apply wp_video_get; simpl;
    lazymatch goal with
    | |- match ?x with _ => _ end =>
        let v := fresh "v" in let Ev := fresh "Ev" in
        destruct x as [v|] eqn:Ev; [|exact Hw];
        apply preserves_wp; [|exact Hw]; rest v Ev Hw
    end
  | let e := fresh "e" in intros e; destruct e; inv_steps; completado_leaf ].

Section Tasks.

Context (env : Env) (settings : Settings) (id : Z).

Lemma stage_attempt_not_completado s video_id path retries :
  preserves (not_completado id)
            (stage_attempt env settings s video_id path retries).
Proof.
  destruct s; simpl; apply preserves_bind; try (intro; apply preserves_ret).
  - unfold descargar_video_task.
    task_not_completado ltac:(fun v Ev Hw => rest_not_completado).
  - unfold extraer_audio_task.
    task_not_completado ltac:(fun v Ev Hw => rest_not_completado).
  - unfold generar_miniatura_task.
    task_not_completado
      ltac:(fun v Ev Hw =>
              inv_steps;
              first [ apply generate_not_completado; simpl; intros <-;
                      now apply Hw
                    | completado_leaf ]).
  - unfold transcribir_audio_task.
    task_not_completado ltac:(fun v Ev Hw => rest_not_completado).
  - unfold analizar_video_task.
    task_not_completado ltac:(fun v Ev Hw => rest_not_completado).
  - unfold segmentar_video_task.
    task_not_completado ltac:(fun v Ev Hw => rest_not_completado).
Qed.

End Tasks.

(** X24: none of the six stage tasks ever marks a video as
    [completado]: a video that is not completed before an attempt of
    a stage is not completed after it, however the attempt ends.  The
    state is written by [finalizar_procesamiento_task] alone. *)
Theorem no_stage_marks_a_video_completado
    env settings s video_id path retries id w :
  (forall v, videos w !! id = Some v -> v_estado v <> E_completado) ->
  forall v,
    videos (snd (stage_attempt env settings s video_id path retries w)) !! id
    = Some v ->
    v_estado v <> E_completado.
Proof.
  intros Hw. now apply stage_attempt_not_completado.
Qed.

Lemma no_stage_marks_completado_witness :
  (forall v,
      videos RetryFacts.one_video !! 1 = Some v -> v_estado v <> E_completado)
  /\ forall v,
      videos (snd (stage_attempt RetryFacts.quiet_env RetryFacts.some_settings
                                 SegmentationStage 1 "/media/v.mp4" 0
                                 RetryFacts.one_video)) !! 1
      = Some v ->
      v_estado v <> E_completado.
Proof.
  assert (H : forall v,
             videos RetryFacts.one_video !! 1 = Some v ->
             v_estado v <> E_completado).
  { intros v Hv. vm_compute in Hv. injection Hv as <-. discriminate. }
  split; [exact H|].
  apply (no_stage_marks_a_video_completado
           RetryFacts.quiet_env RetryFacts.some_settings SegmentationStage 1
           "/media/v.mp4" 0%nat 1 RetryFacts.one_video H).
Defined.

(** X25: a segment that the validation of the analysis keeps would
    also be accepted by the serializer that creates segments through
    the API, with the same duration, provided it starts before the end
    of the video (or the duration of the video is unknown). *)
Theorem kept_segment_passes_the_create_serializer video seg v :
  Analysis.validate_one video seg = Analysis.Keep v ->
  match v_duracion_segundos video with
  | Some d => d = 0 \/ Analysis.vs_timestamp_inicio v < d
  | None => True
  end ->
  Serializers.validate video (Analysis.vs_timestamp_inicio v)
                       (Analysis.vs_timestamp_fin v)
  = Serializers.Accepted (Analysis.vs_duracion v).
Proof.
  intros H Hstart. apply ValidationFacts.validate_one_keep in H
    as (inicio & fin & relevancia & titulo & descripcion
        & _ & _ & _ & _ & _ & _ & Hrange & Hv).
  subst v. cbv zeta in *.
  cbn [Analysis.vs_timestamp_inicio Analysis.vs_timestamp_fin
       Analysis.vs_duracion] in *.
  unfold Serializers.validate.
  destruct (v_duracion_segundos video) as [d|];
    cbn [Py.truthy_int default from_option id] in *; unfold id in *.
  - destruct (d =? 0) eqn:E0; cbn [negb andb].
    + replace (fin <=? inicio) with false by (symmetry; apply Z.leb_gt; lia).
      reflexivity.
    + apply Z.eqb_neq in E0. destruct Hstart as [?|Hstart]; [contradiction|].
      destruct (d <? fin) eqn:E; cbv iota.
      * replace (d <=? inicio) with false by (symmetry; apply Z.leb_gt; lia).
        replace (inicio <? 0) with false by (symmetry; apply Z.ltb_ge; lia).
        rewrite Z.ltb_irrefl. reflexivity.
      * replace (fin <=? inicio) with false by (symmetry; apply Z.leb_gt; lia).
        replace (inicio <? 0) with false by (symmetry; apply Z.ltb_ge; lia).
        rewrite E. reflexivity.
  - cbn [andb].
    replace (fin <=? inicio) with false by (symmetry; apply Z.leb_gt; lia).
    reflexivity.
Qed.

Lemma kept_segment_passes_witness :
  let video := mkVideo 1 "Clase 1" None (Some 3600) E_analizando None in
  Serializers.validate
    video
    (Analysis.vs_timestamp_inicio
       (Analysis.mkValid "Cierre" "" 3000 3600 600 (Py.Finite 8) "otro"))
    (Analysis.vs_timestamp_fin
       (Analysis.mkValid "Cierre" "" 3000 3600 600 (Py.Finite 8) "otro"))
  = Serializers.Accepted
      (Analysis.vs_duracion
         (Analysis.mkValid "Cierre" "" 3000 3600 600 (Py.Finite 8) "otro")).
Proof.
  intros video.
  apply (kept_segment_passes_the_create_serializer
           video
           (mkRaw true (Conv_ok "Cierre") (Conv_ok "") (Conv_ok 3000)
                  (Conv_ok 4000) "resumen" (Conv_ok (Py.Finite 8))));
    [vm_compute; reflexivity | right; simpl; lia].
Defined.

End LifecycleFacts.
